(** * solgo: AST construction for type names, primary expressions and
      expression statements, and the detector registry

    A shallow embedding of [ast.TypeName], [ast.PrimaryExpression] and
    [ast.parseExpressionStatement], with the Go library functions they call,
    and of the registry of the inspector's detectors; the properties of the
    specification proved (or refuted) on it, and further properties of the
    code. *)

From Stdlib Require Import ZArith List Bool Lia Ascii String DecimalString.
Import ListNotations.
Set Warnings "-register-all".
Open Scope string_scope.
Open Scope Z_scope.

(** ** Go machine integers *)

(** [int] and [int64] are 64-bit two's complement on the platforms solgo
    targets; every arithmetic result is reduced into the signed range. *)
Module Int64.

Definition modulus : Z := 2 ^ 64.
Definition max_signed : Z := 2 ^ 63 - 1.
Definition min_signed : Z := - 2 ^ 63.
Definition max_unsigned : Z := 2 ^ 64 - 1.

Definition wrap (z : Z) : Z := (z + 2 ^ 63) mod modulus - 2 ^ 63.
Definition wrap_unsigned (z : Z) : Z := z mod modulus.

Definition add (a b : Z) : Z := wrap (a + b).
Definition sub (a b : Z) : Z := wrap (a - b).
Definition neg (a : Z) : Z := wrap (- a).

Definition in_range (z : Z) : Prop := min_signed <= z <= max_signed.

End Int64.

(** ** Go library functions used by the translators *)

Definition byte_string (codes : list nat) : string :=
  string_of_list_ascii (map ascii_of_nat codes).

(** The double-quote byte, hex 22. *)
Definition double_quote : string := Eval cbv in byte_string [34%nat].

Fixpoint string_rev (s : string) : string :=
  match s with
  | EmptyString => EmptyString
  | String c s' => string_rev s' ++ String c EmptyString
  end.

(** [strings.Contains(s, substr)]. *)
Fixpoint strings_Contains (s substr : string) : bool :=
  match s with
  | EmptyString => prefix substr EmptyString
  | String _ s' => prefix substr s || strings_Contains s' substr
  end.

(** [strings.ReplaceAll(s, old, new)] for a non-empty [old] (the translators
    only pass the one-byte double quote): occurrences are replaced from left
    to right, without overlap.  [skip] counts the bytes of a matched
    occurrence still to be dropped. *)
Fixpoint replace_from (old new : string) (skip : nat) (s : string) : string :=
  match s with
  | EmptyString => EmptyString
  | String c s' =>
      match skip with
      | S k => replace_from old new k s'
      | O =>
          if prefix old s
          then new ++ replace_from old new (String.length old - 1) s'
          else String c (replace_from old new O s')
      end
  end.

Definition strings_ReplaceAll (s old new : string) : string :=
  replace_from old new O s.

(** [strings.Split(s, sep)] for a non-empty [sep]: the pieces between the
    non-overlapping occurrences of [sep], in order. *)
Fixpoint split_from (sep : string) (skip : nat) (cur s : string) : list string :=
  match s with
  | EmptyString => [cur]
  | String c s' =>
      match skip with
      | S k => split_from sep k cur s'
      | O =>
          if prefix sep s
          then cur :: split_from sep (String.length sep - 1) EmptyString s'
          else split_from sep O (cur ++ String c EmptyString) s'
      end
  end.

Definition strings_Split (s sep : string) : list string :=
  split_from sep O EmptyString s.

(** [strings.TrimSpace]: leading and trailing white space runes, as
    [unicode.IsSpace] defines them, are removed.  The table lists the UTF-8
    encoding of every such rune. *)
Definition space_runes : list string := Eval cbv in
  map byte_string
    (app [ [9]; [10]; [11]; [12]; [13]; [32];
           [194; 133]; [194; 160]; [225; 154; 128] ]
      (app (map (fun k => [226; 128; k]) (seq 128 11))
           [ [226; 128; 168]; [226; 128; 169]; [226; 128; 175];
             [226; 129; 159]; [227; 128; 128] ]))%nat.

(** Byte length of the white space rune [s] starts with, 0 when it starts
    with none. *)
Fixpoint rune_length_at (runes : list string) (s : string) : nat :=
  match runes with
  | [] => O
  | r :: rest => if prefix r s then String.length r else rune_length_at rest s
  end.

Fixpoint trim_left_from (runes : list string) (skip : nat) (s : string) : string :=
  match s with
  | EmptyString => EmptyString
  | String _ s' =>
      match skip with
      | S k => trim_left_from runes k s'
      | O =>
          match rune_length_at runes s with
          | O => s
          | S k => trim_left_from runes k s'
          end
      end
  end.

Definition trim_left_space (s : string) : string :=
  trim_left_from space_runes O s.

Definition trim_right_space (s : string) : string :=
  string_rev (trim_left_from (map string_rev space_runes) O (string_rev s)).

Definition strings_TrimSpace (s : string) : string :=
  trim_right_space (trim_left_space s).

(** [hex.EncodeToString([]byte(s))]: two lower-case hex digits per byte. *)
Definition hex_digit (n : N) : ascii :=
  if (n <? 10)%N then ascii_of_N (48 + n) else ascii_of_N (87 + n).

Fixpoint hex_EncodeToString (s : string) : string :=
  match s with
  | EmptyString => EmptyString
  | String c s' =>
      let n := N_of_ascii c in
      String (hex_digit (n / 16)) (String (hex_digit (n mod 16)) (hex_EncodeToString s'))
  end.

(** The [%d] verb of [fmt.Sprintf] on an [int]. *)
Definition fmt_d (z : Z) : string := NilEmpty.string_of_int (Z.to_int z).

(** *** [strconv.Atoi] *)

Inductive NumError : Type := ErrSyntax | ErrRange.

Definition digit_value (c : ascii) : option Z :=
  let n := Z.of_N (N_of_ascii c) in
  if (48 <=? n) && (n <=? 57) then Some (n - 48) else None.

Definition is_sign (c : ascii) : bool :=
  Ascii.eqb c "+"%char || Ascii.eqb c "-"%char.

(** The loop of the fast path: [n = n*10 + int(ch)], a syntax error at the
    first byte that is not a digit. *)
Fixpoint atoi_fast_loop (s : string) (n : Z) : Z * option NumError :=
  match s with
  | EmptyString => (n, None)
  | String ch s' =>
      match digit_value ch with
      | None => (0, Some ErrSyntax)
      | Some d => atoi_fast_loop s' (Int64.add (Int64.wrap (n * 10)) d)
      end
  end.

(** [strconv.ParseUint(s, 10, 64)] past its empty-string test. *)
Definition parse_uint_cutoff : Z := Int64.max_unsigned / 10 + 1.

Fixpoint parse_uint_loop (s : string) (n : Z) : Z * option NumError :=
  match s with
  | EmptyString => (n, None)
  | String c s' =>
      match digit_value c with
      | None => (0, Some ErrSyntax)
      | Some d =>
          if n >=? parse_uint_cutoff then (Int64.max_unsigned, Some ErrRange)
          else
            let n10 := Int64.wrap_unsigned (n * 10) in
            let n1 := Int64.wrap_unsigned (n10 + d) in
            if (n1 <? n10) || (n1 >? Int64.max_unsigned)
            then (Int64.max_unsigned, Some ErrRange)
            else parse_uint_loop s' n1
      end
  end.

Definition strconv_ParseUint (s : string) : Z * option NumError :=
  match s with
  | EmptyString => (0, Some ErrSyntax)
  | _ => parse_uint_loop s 0
  end.

(** [strconv.ParseInt(s, 10, 0)]. *)
Definition strconv_ParseInt (s : string) : Z * option NumError :=
  match s with
  | EmptyString => (0, Some ErrSyntax)
  | String c0 rest =>
      let neg := Ascii.eqb c0 "-"%char in
      let s1 := if is_sign c0 then rest else s in
      let (un, err) := strconv_ParseUint s1 in
      match err with
      | Some ErrSyntax => (0, Some ErrSyntax)
      | _ =>
          let cutoff := 2 ^ 63 in
          if negb neg && (un >=? cutoff) then (cutoff - 1, Some ErrRange)
          else if neg && (un >? cutoff) then (- cutoff, Some ErrRange)
          else
            let n := Int64.wrap un in
            (if neg then Int64.neg n else n, None)
      end
  end.

(** [strconv.Atoi(s)] with a 64-bit [int]: strings of 1 to 18 bytes take the
    fast path, the others go through [ParseInt]. *)
Definition strconv_Atoi (s : string) : Z * option NumError :=
  let sLen := String.length s in
  if ((0 <? sLen) && (sLen <? 19))%nat then
    match s with
    | EmptyString => (0, Some ErrSyntax)
    | String c0 rest =>
        let s1 := if is_sign c0 then rest else s in
        match s1 with
        | EmptyString => (0, Some ErrSyntax)
        | _ =>
            let (n, err) := atoi_fast_loop s1 0 in
            match err with
            | Some e => (0, Some e)
            | None => (if Ascii.eqb c0 "-"%char then Int64.neg n else n, None)
            end
        end
    end
  else strconv_ParseInt s.

(** [int(math.Pow(10, float64(n)))] for a length [n].  [math.Pow] multiplies
    powers of the mantissa of 10 and is exact while [10^n] fits 53 bits of
    [5^n], so up to [n = 22]; the conversion to [int] is exact up to
    [10^18].  From [10^19] on the value is outside [int] and Go leaves the
    result of the conversion to the implementation: [overflow] stands for
    it. *)
Definition int_of_pow10 (overflow : Z) (n : nat) : Z :=
  if (n <=? 18)%nat then 10 ^ Z.of_nat n else overflow.

(** ** Data model *)

(** The values of [ast_pb.NodeType] the translators use; [NodeType_NT_DEFAULT]
    is the zero value of the enumeration. *)
Inductive NodeType : Type :=
| NodeType_NT_DEFAULT
| NodeType_IDENTIFIER
| NodeType_LITERAL
| NodeType_BOOLEAN
| NodeType_STRING
| NodeType_NUMBER
| NodeType_HEX_STRING
| NodeType_PLACEHOLDER_STATEMENT
| NodeType_ELEMENTARY_TYPE_NAME
| NodeType_MAPPING_TYPE_NAME
| NodeType_USER_DEFINED_PATH_NAME
| NodeType_IDENTIFIER_PATH
| NodeType_VARIABLE_DECLARATION
| NodeType_FUNCTION_CALL
| NodeType_ASSIGNMENT
| NodeType_UNARY_OPERATION
| NodeType_BINARY_OPERATION.

Definition NodeType_eqb (a b : NodeType) : bool :=
  match a, b with
  | NodeType_NT_DEFAULT, NodeType_NT_DEFAULT
  | NodeType_IDENTIFIER, NodeType_IDENTIFIER
  | NodeType_LITERAL, NodeType_LITERAL
  | NodeType_BOOLEAN, NodeType_BOOLEAN
  | NodeType_STRING, NodeType_STRING
  | NodeType_NUMBER, NodeType_NUMBER
  | NodeType_HEX_STRING, NodeType_HEX_STRING
  | NodeType_PLACEHOLDER_STATEMENT, NodeType_PLACEHOLDER_STATEMENT
  | NodeType_ELEMENTARY_TYPE_NAME, NodeType_ELEMENTARY_TYPE_NAME
  | NodeType_MAPPING_TYPE_NAME, NodeType_MAPPING_TYPE_NAME
  | NodeType_USER_DEFINED_PATH_NAME, NodeType_USER_DEFINED_PATH_NAME
  | NodeType_IDENTIFIER_PATH, NodeType_IDENTIFIER_PATH
  | NodeType_VARIABLE_DECLARATION, NodeType_VARIABLE_DECLARATION
  | NodeType_FUNCTION_CALL, NodeType_FUNCTION_CALL
  | NodeType_ASSIGNMENT, NodeType_ASSIGNMENT
  | NodeType_UNARY_OPERATION, NodeType_UNARY_OPERATION
  | NodeType_BINARY_OPERATION, NodeType_BINARY_OPERATION => true
  | _, _ => false
  end.

(** [ast_pb.Mutability]; [Mutability_M_DEFAULT] is the zero value. *)
Inductive Mutability : Type :=
| Mutability_M_DEFAULT
| Mutability_NONPAYABLE
| Mutability_PAYABLE.

Record SrcNode : Type := mkSrcNode {
  src_Id : Z;
  src_Line : Z;
  src_Column : Z;
  src_Start : Z;
  src_End : Z;
  src_Length : Z;
  src_ParentIndex : Z
}.

Definition SrcNode_zero : SrcNode := mkSrcNode 0 0 0 0 0 0 0.

Record TypeDescription : Type := mkTypeDescription {
  TypeIdentifier : string;
  TypeString : string
}.

Record PathNode : Type := mkPathNode {
  pn_Id : Z;
  pn_Name : string;
  pn_NodeType : NodeType;
  pn_ReferencedDeclaration : Z;
  pn_Src : SrcNode
}.

(** [TypeName]; the [*ASTBuilder] it embeds is the state of the [Build]
    monad below.  A nil pointer is [None]. *)
Inductive TypeName : Type := mkTypeName {
  tn_Id : Z;
  tn_NodeType : NodeType;
  tn_Src : SrcNode;
  tn_Name : string;
  tn_TypeDescription : option TypeDescription;
  tn_KeyType : option TypeName;
  tn_ValueType : option TypeName;
  tn_PathNode : option PathNode;
  tn_StateMutability : Mutability;
  tn_ReferencedDeclaration : Z
}.

Definition set_tn_Id (v : Z) (t : TypeName) : TypeName :=
  mkTypeName v (tn_NodeType t) (tn_Src t) (tn_Name t) (tn_TypeDescription t)
    (tn_KeyType t) (tn_ValueType t) (tn_PathNode t) (tn_StateMutability t)
    (tn_ReferencedDeclaration t).
Definition set_tn_NodeType (v : NodeType) (t : TypeName) : TypeName :=
  mkTypeName (tn_Id t) v (tn_Src t) (tn_Name t) (tn_TypeDescription t)
    (tn_KeyType t) (tn_ValueType t) (tn_PathNode t) (tn_StateMutability t)
    (tn_ReferencedDeclaration t).
Definition set_tn_Src (v : SrcNode) (t : TypeName) : TypeName :=
  mkTypeName (tn_Id t) (tn_NodeType t) v (tn_Name t) (tn_TypeDescription t)
    (tn_KeyType t) (tn_ValueType t) (tn_PathNode t) (tn_StateMutability t)
    (tn_ReferencedDeclaration t).
Definition set_tn_Name (v : string) (t : TypeName) : TypeName :=
  mkTypeName (tn_Id t) (tn_NodeType t) (tn_Src t) v (tn_TypeDescription t)
    (tn_KeyType t) (tn_ValueType t) (tn_PathNode t) (tn_StateMutability t)
    (tn_ReferencedDeclaration t).
Definition set_tn_TypeDescription (v : option TypeDescription) (t : TypeName) : TypeName :=
  mkTypeName (tn_Id t) (tn_NodeType t) (tn_Src t) (tn_Name t) v
    (tn_KeyType t) (tn_ValueType t) (tn_PathNode t) (tn_StateMutability t)
    (tn_ReferencedDeclaration t).
Definition set_tn_KeyType (v : option TypeName) (t : TypeName) : TypeName :=
  mkTypeName (tn_Id t) (tn_NodeType t) (tn_Src t) (tn_Name t) (tn_TypeDescription t)
    v (tn_ValueType t) (tn_PathNode t) (tn_StateMutability t)
    (tn_ReferencedDeclaration t).
Definition set_tn_ValueType (v : option TypeName) (t : TypeName) : TypeName :=
  mkTypeName (tn_Id t) (tn_NodeType t) (tn_Src t) (tn_Name t) (tn_TypeDescription t)
    (tn_KeyType t) v (tn_PathNode t) (tn_StateMutability t)
    (tn_ReferencedDeclaration t).
Definition set_tn_PathNode (v : option PathNode) (t : TypeName) : TypeName :=
  mkTypeName (tn_Id t) (tn_NodeType t) (tn_Src t) (tn_Name t) (tn_TypeDescription t)
    (tn_KeyType t) (tn_ValueType t) v (tn_StateMutability t)
    (tn_ReferencedDeclaration t).
Definition set_tn_StateMutability (v : Mutability) (t : TypeName) : TypeName :=
  mkTypeName (tn_Id t) (tn_NodeType t) (tn_Src t) (tn_Name t) (tn_TypeDescription t)
    (tn_KeyType t) (tn_ValueType t) (tn_PathNode t) v
    (tn_ReferencedDeclaration t).
Definition set_tn_ReferencedDeclaration (v : Z) (t : TypeName) : TypeName :=
  mkTypeName (tn_Id t) (tn_NodeType t) (tn_Src t) (tn_Name t) (tn_TypeDescription t)
    (tn_KeyType t) (tn_ValueType t) (tn_PathNode t) (tn_StateMutability t)
    v.

Definition set_pn_ReferencedDeclaration (v : Z) (p : PathNode) : PathNode :=
  mkPathNode (pn_Id p) (pn_Name p) (pn_NodeType p) v (pn_Src p).

(** [PrimaryExpression]. *)
Record PrimaryExpression : Type := mkPrimaryExpression {
  pe_Id : Z;
  pe_NodeType : NodeType;
  pe_Kind : NodeType;
  pe_Value : string;
  pe_HexValue : string;
  pe_Src : SrcNode;
  pe_Name : string;
  pe_TypeDescription : option TypeDescription;
  pe_OverloadedDeclarations : list Z;
  pe_ReferencedDeclaration : Z;
  pe_IsPure : bool;
  pe_ArgumentTypes : list (option TypeDescription)
}.

Definition set_pe_NodeType (v : NodeType) (p : PrimaryExpression) :=
  mkPrimaryExpression (pe_Id p) v (pe_Kind p) (pe_Value p) (pe_HexValue p)
    (pe_Src p) (pe_Name p) (pe_TypeDescription p) (pe_OverloadedDeclarations p)
    (pe_ReferencedDeclaration p) (pe_IsPure p) (pe_ArgumentTypes p).
Definition set_pe_Kind (v : NodeType) (p : PrimaryExpression) :=
  mkPrimaryExpression (pe_Id p) (pe_NodeType p) v (pe_Value p) (pe_HexValue p)
    (pe_Src p) (pe_Name p) (pe_TypeDescription p) (pe_OverloadedDeclarations p)
    (pe_ReferencedDeclaration p) (pe_IsPure p) (pe_ArgumentTypes p).
Definition set_pe_Value (v : string) (p : PrimaryExpression) :=
  mkPrimaryExpression (pe_Id p) (pe_NodeType p) (pe_Kind p) v (pe_HexValue p)
    (pe_Src p) (pe_Name p) (pe_TypeDescription p) (pe_OverloadedDeclarations p)
    (pe_ReferencedDeclaration p) (pe_IsPure p) (pe_ArgumentTypes p).
Definition set_pe_HexValue (v : string) (p : PrimaryExpression) :=
  mkPrimaryExpression (pe_Id p) (pe_NodeType p) (pe_Kind p) (pe_Value p) v
    (pe_Src p) (pe_Name p) (pe_TypeDescription p) (pe_OverloadedDeclarations p)
    (pe_ReferencedDeclaration p) (pe_IsPure p) (pe_ArgumentTypes p).
Definition set_pe_Src (v : SrcNode) (p : PrimaryExpression) :=
  mkPrimaryExpression (pe_Id p) (pe_NodeType p) (pe_Kind p) (pe_Value p) (pe_HexValue p)
    v (pe_Name p) (pe_TypeDescription p) (pe_OverloadedDeclarations p)
    (pe_ReferencedDeclaration p) (pe_IsPure p) (pe_ArgumentTypes p).
Definition set_pe_Name (v : string) (p : PrimaryExpression) :=
  mkPrimaryExpression (pe_Id p) (pe_NodeType p) (pe_Kind p) (pe_Value p) (pe_HexValue p)
    (pe_Src p) v (pe_TypeDescription p) (pe_OverloadedDeclarations p)
    (pe_ReferencedDeclaration p) (pe_IsPure p) (pe_ArgumentTypes p).
Definition set_pe_TypeDescription (v : option TypeDescription) (p : PrimaryExpression) :=
  mkPrimaryExpression (pe_Id p) (pe_NodeType p) (pe_Kind p) (pe_Value p) (pe_HexValue p)
    (pe_Src p) (pe_Name p) v (pe_OverloadedDeclarations p)
    (pe_ReferencedDeclaration p) (pe_IsPure p) (pe_ArgumentTypes p).
Definition set_pe_ReferencedDeclaration (v : Z) (p : PrimaryExpression) :=
  mkPrimaryExpression (pe_Id p) (pe_NodeType p) (pe_Kind p) (pe_Value p) (pe_HexValue p)
    (pe_Src p) (pe_Name p) (pe_TypeDescription p) (pe_OverloadedDeclarations p)
    v (pe_IsPure p) (pe_ArgumentTypes p).
Definition set_pe_IsPure (v : bool) (p : PrimaryExpression) :=
  mkPrimaryExpression (pe_Id p) (pe_NodeType p) (pe_Kind p) (pe_Value p) (pe_HexValue p)
    (pe_Src p) (pe_Name p) (pe_TypeDescription p) (pe_OverloadedDeclarations p)
    (pe_ReferencedDeclaration p) v (pe_ArgumentTypes p).
Definition set_pe_ArgumentTypes (v : list (option TypeDescription)) (p : PrimaryExpression) :=
  mkPrimaryExpression (pe_Id p) (pe_NodeType p) (pe_Kind p) (pe_Value p) (pe_HexValue p)
    (pe_Src p) (pe_Name p) (pe_TypeDescription p) (pe_OverloadedDeclarations p)
    (pe_ReferencedDeclaration p) (pe_IsPure p) v.

(** ** The parse tree, as the translators read it *)

(** A token: [GetLine()], [GetColumn()], [GetStart()], [GetStop()]. *)
Record Token : Type := mkToken {
  tok_Line : Z;
  tok_Column : Z;
  tok_Start : Z;
  tok_Stop : Z
}.

Record ElementaryTypeNameContext : Type := mkElementaryTypeNameContext {
  etn_GetText : string
}.

Record IdentifierContext : Type := mkIdentifierContext {
  idc_GetText : string;
  idc_GetStart : Token;
  idc_GetStop : Token
}.

Record IdentifierPathContext : Type := mkIdentifierPathContext {
  ipc_GetText : string;
  ipc_GetStart : Token;
  ipc_GetStop : Token;
  ipc_AllIdentifier : list IdentifierContext
}.

Record FunctionTypeNameContext : Type := mkFunctionTypeNameContext {
  ftn_GetText : string
}.

(** [mappingKeyType: elementaryTypeName | identifierPath]. *)
Record MappingKeyTypeContext : Type := mkMappingKeyTypeContext {
  mkc_GetText : string;
  mkc_GetStart : Token;
  mkc_GetStop : Token;
  mkc_ElementaryTypeName : option ElementaryTypeNameContext;
  mkc_IdentifierPath : option IdentifierPathContext
}.

(** [typeName] and [mappingType] productions.  A type name holds its
    children in source order; [key] and [value] of a mapping are the labelled
    children of the rule [Mapping ( key=mappingKeyType => value=typeName )].
    [ChildOther] is a child of any other production (the length expression
    of an array type, say), with the Go type [%T] prints for it. *)
Inductive TypeNameContext : Type :=
| mkTypeNameContext (text : string) (start stop : Token)
    (children : list TypeNameChild)
with TypeNameChild : Type :=
| ChildElementaryTypeName (c : ElementaryTypeNameContext)
| ChildMappingType (c : MappingTypeContext)
| ChildFunctionTypeName (c : FunctionTypeNameContext)
| ChildIdentifierPath (c : IdentifierPathContext)
| ChildTypeName (c : TypeNameContext)
| ChildTerminalNode (text : string)
| ChildOther (goType : string)
with MappingTypeContext : Type :=
| mkMappingTypeContext (text : string) (start stop : Token)
    (key : MappingKeyTypeContext) (value : TypeNameContext).

Definition tnc_GetText (c : TypeNameContext) : string :=
  match c with mkTypeNameContext text _ _ _ => text end.
Definition tnc_GetStart (c : TypeNameContext) : Token :=
  match c with mkTypeNameContext _ start _ _ => start end.
Definition tnc_GetStop (c : TypeNameContext) : Token :=
  match c with mkTypeNameContext _ _ stop _ => stop end.
Definition tnc_GetChildren (c : TypeNameContext) : list TypeNameChild :=
  match c with mkTypeNameContext _ _ _ children => children end.

Definition mtc_GetKey (c : MappingTypeContext) : MappingKeyTypeContext :=
  match c with mkMappingTypeContext _ _ _ key _ => key end.
Definition mtc_GetValue (c : MappingTypeContext) : TypeNameContext :=
  match c with mkMappingTypeContext _ _ _ _ value => value end.

(** The generated accessors return the first child of the production asked
    for, nil when there is none. *)
Fixpoint first_child {A : Type} (select : TypeNameChild -> option A)
    (children : list TypeNameChild) : option A :=
  match children with
  | [] => None
  | child :: rest =>
      match select child with
      | Some c => Some c
      | None => first_child select rest
      end
  end.

Definition tnc_ElementaryTypeName (c : TypeNameContext) : option ElementaryTypeNameContext :=
  first_child (fun ch => match ch with ChildElementaryTypeName e => Some e | _ => None end)
    (tnc_GetChildren c).
Definition tnc_MappingType (c : TypeNameContext) : option MappingTypeContext :=
  first_child (fun ch => match ch with ChildMappingType m => Some m | _ => None end)
    (tnc_GetChildren c).
Definition tnc_FunctionTypeName (c : TypeNameContext) : option FunctionTypeNameContext :=
  first_child (fun ch => match ch with ChildFunctionTypeName f => Some f | _ => None end)
    (tnc_GetChildren c).
Definition tnc_IdentifierPath (c : TypeNameContext) : option IdentifierPathContext :=
  first_child (fun ch => match ch with ChildIdentifierPath p => Some p | _ => None end)
    (tnc_GetChildren c).

(** What [%T] prints for a child of a type name. *)
Definition child_goType (ch : TypeNameChild) : string :=
  match ch with
  | ChildElementaryTypeName _ => "*parser.ElementaryTypeNameContext"
  | ChildMappingType _ => "*parser.MappingTypeContext"
  | ChildFunctionTypeName _ => "*parser.FunctionTypeNameContext"
  | ChildIdentifierPath _ => "*parser.IdentifierPathContext"
  | ChildTypeName _ => "*parser.TypeNameContext"
  | ChildTerminalNode _ => "*antlr.TerminalNodeImpl"
  | ChildOther goType => goType
  end.

(** The [ctx interface{}] argument of [generateTypeName], by the case of its
    type switch. *)
Inductive GenerateCtx : Type :=
| CtxMappingKeyType (specificCtx : MappingKeyTypeContext)
| CtxMappingType (specificCtx : MappingTypeContext)
| CtxTypeName (specificCtx : TypeNameContext).

(** [literal] and [primaryExpression] productions: the text of each literal
    alternative that is present. *)
Record LiteralContext : Type := mkLiteralContext {
  lit_BooleanLiteral : option string;
  lit_StringLiteral : option string;
  lit_NumberLiteral : option string;
  lit_HexStringLiteral : option string
}.

Record PrimaryExpressionContext : Type := mkPrimaryExpressionContext {
  pec_GetText : string;
  pec_GetStart : Token;
  pec_GetStop : Token;
  pec_Identifier : option string;
  pec_Literal : option LiteralContext
}.

(** The scopes [PrimaryExpression.Parse] searches.  Only the getters it
    calls are kept.  [ParameterNode] is the [Parameter] of the sources, a
    name Rocq reserves. *)
Record ParameterNode : Type := mkParameter {
  par_GetId : Z;
  par_GetName : string;
  par_GetTypeName : option TypeName
}.

Record Declaration : Type := mkDeclaration {
  decl_GetId : Z;
  decl_GetName : string;
  decl_GetTypeName : option TypeName
}.

Record VariableDeclaration : Type := mkVariableDeclaration {
  vd_GetId : Z;
  vd_GetDeclarations : list Declaration
}.

(** A statement of a body: [GetType()] is [NodeType_VARIABLE_DECLARATION]
    for the variable declaration statements and for no other, which is what
    the type assertion of the loop over the body relies on. *)
Inductive Statement : Type :=
| StmtVariableDeclaration (v : VariableDeclaration)
| StmtOther (id : Z).

Record BodyNode : Type := mkBodyNode {
  body_GetId : Z;
  body_GetStatements : list Statement
}.

(** [fnNode], by the case of the type switch on it; [GetParameters()] is a
    pointer to the parameter list and may be nil. *)
Inductive FnNode : Type :=
| FnConstructor (GetParameters : option (list ParameterNode))
| FnFunction (GetParameters : option (list ParameterNode))
| FnOther (nodeType : NodeType).

(** [expNode]: a function call, with the type descriptions of its arguments,
    or any other expression node. *)
Inductive ExpNode : Type :=
| ExpFunctionCall (id : Z) (typeDescription : option TypeDescription)
    (arguments : list (option TypeDescription))
| ExpOther (id : Z) (typeDescription : option TypeDescription).

Definition exp_GetId (e : ExpNode) : Z :=
  match e with ExpFunctionCall id _ _ => id | ExpOther id _ => id end.
Definition exp_GetTypeDescription (e : ExpNode) : option TypeDescription :=
  match e with ExpFunctionCall _ td _ => td | ExpOther _ td => td end.

Record SourceUnit : Type := mkSourceUnit {
  unit_GetTypeDescription : option TypeDescription
}.

(** The node handed to [Resolver.ResolveByNode], as it is at the call. *)
Inductive ResolverSubject : Type :=
| SubjectTypeName (t : TypeName)
| SubjectPrimaryExpression (p : PrimaryExpression).

(** ** Outcomes and the builder monad *)

Inductive RuntimeError : Type :=
| NilDereference
| IndexOutOfRange.

(** What a call does: it returns, it panics with the message of an explicit
    [panic(...)], or the Go run time panics.  [OutOfFuel] belongs to the
    model only: the recursion of [generateTypeName] is bounded by a counter. *)
Inductive Outcome (A : Type) : Type :=
| Returns (a : A)
| Panics (msg : string)
| RuntimePanics (e : RuntimeError)
| OutOfFuel.

Arguments Returns {A} a.
Arguments Panics {A} msg.
Arguments RuntimePanics {A} e.
Arguments OutOfFuel {A}.

(** The state is the identifier counter of the shared [*ASTBuilder]. *)
Definition Build (A : Type) : Type := Z -> Outcome (A * Z).

Definition ret {A : Type} (a : A) : Build A := fun s => Returns (a, s).

Definition bind {A B : Type} (m : Build A) (k : A -> Build B) : Build B :=
  fun s =>
    match m s with
    | Returns (a, s') => k a s'
    | Panics msg => Panics msg
    | RuntimePanics e => RuntimePanics e
    | OutOfFuel => OutOfFuel
    end.

Definition panic {A : Type} (msg : string) : Build A := fun _ => Panics msg.
Definition runtime_panic {A : Type} (e : RuntimeError) : Build A :=
  fun _ => RuntimePanics e.
Definition out_of_fuel {A : Type} : Build A := fun _ => OutOfFuel.

Notation "x <- c1 ;; c2" := (bind c1 (fun x => c2))
  (at level 61, c1 at next level, right associativity).
Notation "' pat <- c1 ;; c2" :=
  (bind c1 (fun x => match x with pat => c2 end))
  (at level 61, pat pattern, c1 at next level, right associativity).

(** Modelled from the spec: [ASTBuilder.GetNextID] is not among the sources;
    the specification asks of it a strictly increasing integer, unique for
    one translation run.  It hands out the counter and advances it. *)
Definition GetNextID : Build Z := fun s => Returns (s, s + 1).

(** Dereferencing a pointer that may be nil. *)
Definition deref {A : Type} (o : option A) : Build A :=
  match o with
  | Some a => ret a
  | None => runtime_panic NilDereference
  end.

(** [typeNameNode] of [generateTypeName] points at the receiver [t] or at the
    fresh [typeName] of the calling frame. *)
Inductive TypeNameRef : Type :=
| RefReceiver
| RefLocal (n : TypeName).

Definition load (r : TypeNameRef) (t : TypeName) : TypeName :=
  match r with RefReceiver => t | RefLocal n => n end.

Definition store (r : TypeNameRef) (t : TypeName) (f : TypeName -> TypeName)
  : TypeName * TypeNameRef :=
  match r with
  | RefReceiver => (f t, RefReceiver)
  | RefLocal n => (t, RefLocal (f n))
  end.

(** [NewTypeName(b)]. *)
Definition NewTypeName : TypeName :=
  mkTypeName 0 NodeType_NT_DEFAULT SrcNode_zero "" None None None None
    Mutability_M_DEFAULT 0.

(** [NewPrimaryExpression(b)]. *)
Definition NewPrimaryExpression : Build PrimaryExpression :=
  id <- GetNextID ;;
  ret (mkPrimaryExpression id NodeType_IDENTIFIER NodeType_NT_DEFAULT "" ""
         SrcNode_zero "" None [] 0 false []).

(** ** The detector registry *)

Section DetectorRegistry.

(** [DetectorType] and the [Detector] interface are known by name only: the
    registry asks of a detector type no more than to be the key of a map,
    and of a detector nothing. *)
Variable DetectorType : Type.
Variable DetectorType_eqb : DetectorType -> DetectorType -> bool.
Variable Detector : Type.

(** [map[DetectorType]Detector], as the list of its entries, one for a key. *)
Definition Registry : Type := list (DetectorType * Detector).

(** [var registry = map[DetectorType]Detector{}]: the package variable, as
    the program starts. *)
Definition registry : Registry := [].

(** [registry[detectorType]], with the [ok] of the two-valued form. *)
Fixpoint lookup (reg : Registry) (detectorType : DetectorType) : option Detector :=
  match reg with
  | [] => None
  | (key, detector) :: rest =>
      if DetectorType_eqb key detectorType then Some detector
      else lookup rest detectorType
  end.

(** [registry[detectorType] = detector]. *)
Fixpoint assign (reg : Registry) (detectorType : DetectorType)
    (detector : Detector) : Registry :=
  match reg with
  | [] => [(detectorType, detector)]
  | (key, old) :: rest =>
      if DetectorType_eqb key detectorType then (key, detector) :: rest
      else (key, old) :: assign rest detectorType detector
  end.

Definition DetectorExists (reg : Registry) (detectorType : DetectorType) : bool :=
  match lookup reg detectorType with
  | Some _ => true
  | None => false
  end.

(** [None] is the nil interface the map yields for a missing key. *)
Definition GetDetector (reg : Registry) (detectorType : DetectorType)
  : option Detector :=
  lookup reg detectorType.

(** The result and the registry as the call leaves it. *)
Definition RegisterDetector (reg : Registry) (detectorType : DetectorType)
    (detector : Detector) : bool * Registry :=
  if negb (DetectorExists reg detectorType)
  then (true, assign reg detectorType detector)
  else (false, reg).

(** [Inspector.RegisterDetectors].  The three detector types are constants
    of the package and the three detectors come from constructors, none of
    them among the sources: they are arguments here. *)
Definition RegisterDetectors
    (StateVariableDetectorType TransferDetectorType MintDetectorType : DetectorType)
    (NewStateVariableDetector NewTransferDetector NewMintDetector : Detector)
    (reg : Registry) : Registry :=
  let reg := snd (RegisterDetector reg StateVariableDetectorType NewStateVariableDetector) in
  let reg := snd (RegisterDetector reg TransferDetectorType NewTransferDetector) in
  snd (RegisterDetector reg MintDetectorType NewMintDetector).

End DetectorRegistry.

Arguments registry {DetectorType Detector}.
Arguments lookup {DetectorType} DetectorType_eqb {Detector} reg detectorType.
Arguments assign {DetectorType} DetectorType_eqb {Detector} reg detectorType detector.
Arguments DetectorExists {DetectorType} DetectorType_eqb {Detector} reg detectorType.
Arguments GetDetector {DetectorType} DetectorType_eqb {Detector} reg detectorType.
Arguments RegisterDetector {DetectorType} DetectorType_eqb {Detector} reg
  detectorType detector.
Arguments RegisterDetectors {DetectorType} DetectorType_eqb {Detector}
  StateVariableDetectorType TransferDetectorType MintDetectorType
  NewStateVariableDetector NewTransferDetector NewMintDetector reg.

(** ** The translators *)

Section Translators.

Set Default Proof Using "Type".

(** [normalizeTypeDescription] is not among the sources: it maps the
    spelling of an elementary type to its display name and its identifier. *)
Variable normalizeTypeDescription : string -> string * string.

(** [GetResolver().ResolveByNode(node, name)]: the declaration found (its id)
    and its type description, which may be nil; [None] when [ref == nil]. *)
Variable ResolveByNode :
  ResolverSubject -> string -> option (Z * option TypeDescription).

(** *** [TypeName] *)

(** The [&TypeDescription{...}] literal of a mapping, written twice in the
    sources ([parseMappingTypeName] and the mapping case of
    [generateTypeName]): it reads [node.KeyType.Name],
    [node.ValueType.Name] and the [TypeIdentifier] behind both
    [TypeDescription] pointers. *)
Definition mapping_TypeDescription (node : TypeName) : Build TypeDescription :=
  keyType <- deref (tn_KeyType node) ;;
  valueType <- deref (tn_ValueType node) ;;
  keyDescription <- deref (tn_TypeDescription keyType) ;;
  valueDescription <- deref (tn_TypeDescription valueType) ;;
  ret {| TypeString :=
           "mapping(" ++ tn_Name keyType ++ " => " ++ tn_Name valueType ++ ")";
         TypeIdentifier :=
           "t_mapping_$" ++ TypeIdentifier keyDescription ++ "_$"
             ++ TypeIdentifier valueDescription ++ "$" |}.

(** [parseTypeName], with [generateTypeName] as an argument: the two call
    each other.  The [unit] argument of the Go functions is read by none of
    them and is left out. *)
Definition parseTypeName_with
    (generateTypeName :
       TypeName -> GenerateCtx -> TypeNameRef ->
       Build (TypeName * TypeName * TypeNameRef))
    (t : TypeName) (parentNodeId : Z) (ctx : TypeNameContext) : Build TypeName :=
  let t := set_tn_Name (tnc_GetText ctx) t in
  srcId <- GetNextID ;;
  let t := set_tn_Src
    {| src_Id := srcId;
       src_Line := tok_Line (tnc_GetStart ctx);
       src_Column := tok_Column (tnc_GetStart ctx);
       src_Start := tok_Start (tnc_GetStart ctx);
       src_End := tok_Stop (tnc_GetStop ctx);
       src_Length :=
         Int64.add (Int64.sub (tok_Stop (tnc_GetStop ctx)) (tok_Start (tnc_GetStart ctx))) 1;
       src_ParentIndex := parentNodeId |} t in
  match tnc_ElementaryTypeName ctx with
  | Some elementary =>
      let '(normalizedTypeName, normalizedTypeIdentifier) :=
        normalizeTypeDescription (etn_GetText elementary) in
      ret (set_tn_TypeDescription
             (Some {| TypeString := normalizedTypeName;
                      TypeIdentifier := normalizedTypeIdentifier |}) t)
  | None =>
  match tnc_MappingType ctx with
  | Some mapping =>
      let t := set_tn_NodeType NodeType_MAPPING_TYPE_NAME t in
      ' (_, t, _) <- generateTypeName t (CtxMappingType mapping) RefReceiver ;;
      ret t
  | None =>
  match tnc_FunctionTypeName ctx with
  | Some _ =>
      panic ("Function type name is not supported yet @ TypeName.generateTypeName: "
               ++ "*parser.TypeNameContext")
  | None =>
      (* It seems to be a user defined type *)
      let t := set_tn_NodeType NodeType_USER_DEFINED_PATH_NAME t in
      let pathCtx := tnc_IdentifierPath ctx in
      t <- match pathCtx with
           | Some path =>
               pathId <- GetNextID ;;
               pathSrcId <- GetNextID ;;
               ret (set_tn_PathNode
                      (Some {| pn_Id := pathId;
                               pn_Name := ipc_GetText path;
                               pn_Src :=
                                 {| src_Id := pathSrcId;
                                    src_Line := tok_Line (ipc_GetStart path);
                                    src_Column := tok_Column (ipc_GetStart path);
                                    src_Start := tok_Start (ipc_GetStart path);
                                    src_End := tok_Stop (ipc_GetStop path);
                                    src_Length :=
                                      Int64.add (Int64.sub (tok_Stop (ipc_GetStop path))
                                                           (tok_Start (ipc_GetStart path))) 1;
                                    src_ParentIndex := tn_Id t |};
                               pn_NodeType := NodeType_IDENTIFIER_PATH;
                               pn_ReferencedDeclaration := 0 |}) t)
           | None => ret t
           end ;;
      (* pathCtx.GetText() is evaluated without a nil test *)
      path <- deref pathCtx ;;
      match ResolveByNode (SubjectTypeName t) (ipc_GetText path) with
      | Some (refId, refTypeDescription) =>
          let t := match tn_PathNode t with
                   | Some pathNode =>
                       set_tn_PathNode
                         (Some (set_pn_ReferencedDeclaration refId pathNode)) t
                   | None => t
                   end in
          let t := set_tn_ReferencedDeclaration refId t in
          ret (set_tn_TypeDescription refTypeDescription t)
      | None => ret t
      end
  end end end.

(** [generateTypeName].  Its [parentNode] argument is the receiver at every
    call ([parseTypeName] and [parseMappingTypeName] pass [t], the recursive
    calls pass it on), so [parentNode.GetId()] is read from [t] and the
    assignment [parentNode.TypeDescription = t.TypeDescription] changes
    nothing.  The result is the returned [typeName], the receiver and the
    node [typeNameNode] points at, as the call leaves them. *)
Fixpoint generateTypeName (fuel : nat) (t : TypeName) (ctx : GenerateCtx)
    (typeNameNode : TypeNameRef) {struct fuel}
  : Build (TypeName * TypeName * TypeNameRef) :=
  match fuel with
  | O => out_of_fuel
  | S fuel' =>
      id <- GetNextID ;;
      let typeName :=
        mkTypeName id NodeType_ELEMENTARY_TYPE_NAME SrcNode_zero "" None None
          None None Mutability_M_DEFAULT 0 in
      ' (typeName, t, typeNameNode) <-
        match ctx with
        | CtxMappingKeyType specificCtx =>
            let typeName := set_tn_Name (mkc_GetText specificCtx) typeName in
            srcId <- GetNextID ;;
            let typeName := set_tn_Src
              {| src_Id := srcId;
                 src_Line := tok_Line (mkc_GetStart specificCtx);
                 src_Column := tok_Column (mkc_GetStart specificCtx);
                 src_Start := tok_Start (mkc_GetStart specificCtx);
                 src_End := tok_Stop (mkc_GetStop specificCtx);
                 src_Length :=
                   Int64.add (Int64.sub (tok_Stop (mkc_GetStop specificCtx))
                                        (tok_Start (mkc_GetStart specificCtx))) 1;
                 src_ParentIndex := tn_Id t |} typeName in
            match mkc_ElementaryTypeName specificCtx with
            | Some elementary =>
                let '(normalizedTypeName, normalizedTypeIdentifier) :=
                  normalizeTypeDescription (etn_GetText elementary) in
                ret (set_tn_TypeDescription
                       (Some {| TypeString := normalizedTypeName;
                                TypeIdentifier := normalizedTypeIdentifier |})
                       typeName, t, typeNameNode)
            | None => ret (typeName, t, typeNameNode)
            end
        | CtxMappingType specificCtx =>
            let '(t, typeNameNode) :=
              store typeNameNode t (set_tn_NodeType NodeType_MAPPING_TYPE_NAME) in
            let keyCtx := mtc_GetKey specificCtx in
            let valueCtx := mtc_GetValue specificCtx in
            ' (keyType, t, typeNameNode) <-
              generateTypeName fuel' t (CtxMappingKeyType keyCtx) typeNameNode ;;
            let '(t, typeNameNode) :=
              store typeNameNode t (set_tn_KeyType (Some keyType)) in
            ' (valueType, t, typeNameNode) <-
              generateTypeName fuel' t (CtxTypeName valueCtx) typeNameNode ;;
            let '(t, typeNameNode) :=
              store typeNameNode t (set_tn_ValueType (Some valueType)) in
            description <- mapping_TypeDescription (load typeNameNode t) ;;
            let '(t, typeNameNode) :=
              store typeNameNode t (set_tn_TypeDescription (Some description)) in
            ret (typeName, t, typeNameNode)
        | CtxTypeName specificCtx =>
            let typeName := set_tn_Name (tnc_GetText specificCtx) typeName in
            srcId <- GetNextID ;;
            let typeName := set_tn_Src
              {| src_Id := srcId;
                 src_Line := tok_Line (tnc_GetStart specificCtx);
                 src_Column := tok_Column (tnc_GetStart specificCtx);
                 src_Start := tok_Start (tnc_GetStart specificCtx);
                 src_End := tok_Stop (tnc_GetStop specificCtx);
                 src_Length :=
                   Int64.add (Int64.sub (tok_Stop (tnc_GetStop specificCtx))
                                        (tok_Start (tnc_GetStart specificCtx))) 1;
                 src_ParentIndex := tn_Id t |} typeName in
            match tnc_ElementaryTypeName specificCtx with
            | Some elementary =>
                let '(normalizedTypeName, normalizedTypeIdentifier) :=
                  normalizeTypeDescription (etn_GetText elementary) in
                ret (set_tn_TypeDescription
                       (Some {| TypeString := normalizedTypeName;
                                TypeIdentifier := normalizedTypeIdentifier |})
                       typeName, t, typeNameNode)
            | None =>
            match tnc_MappingType specificCtx with
            | Some mapping =>
                let typeName := set_tn_NodeType NodeType_MAPPING_TYPE_NAME typeName in
                ' (_, t, local) <-
                  generateTypeName fuel' t (CtxMappingType mapping) (RefLocal typeName) ;;
                ret (load local typeName, t, typeNameNode)
            | None =>
            match tnc_FunctionTypeName specificCtx with
            | Some _ =>
                panic ("Function type name is not supported yet @ TypeName.generateTypeName: "
                         ++ "*parser.TypeNameContext")
            | None =>
                t <- parseTypeName_with (generateTypeName fuel') t (tn_Id t) specificCtx ;;
                ret (typeName, t, typeNameNode)
            end end end
        end ;;
      (* still no type description: look for the reference *)
      match tn_TypeDescription typeName with
      | None =>
          match ResolveByNode (SubjectTypeName typeName) (tn_Name typeName) with
          | Some (refId, refTypeDescription) =>
              let typeName := set_tn_ReferencedDeclaration refId typeName in
              ret (set_tn_TypeDescription refTypeDescription typeName, t, typeNameNode)
          | None => ret (typeName, t, typeNameNode)
          end
      | Some _ => ret (typeName, t, typeNameNode)
      end
  end.

Definition parseTypeName (fuel : nat) (t : TypeName) (parentNodeId : Z)
    (ctx : TypeNameContext) : Build TypeName :=
  parseTypeName_with (generateTypeName fuel) t parentNodeId ctx.

Definition parseElementaryTypeName (t : TypeName) (parentNodeId : Z)
    (ctx : ElementaryTypeNameContext) : Build TypeName :=
  let t := set_tn_Name (etn_GetText ctx) t in
  let t := set_tn_NodeType NodeType_ELEMENTARY_TYPE_NAME t in
  let '(normalizedTypeName, normalizedTypeIdentifier) :=
    normalizeTypeDescription (etn_GetText ctx) in
  let t :=
    if String.eqb normalizedTypeIdentifier "t_address"
    then set_tn_StateMutability Mutability_NONPAYABLE t
    else if String.eqb normalizedTypeIdentifier "t_address_payable"
    then set_tn_StateMutability Mutability_PAYABLE t
    else t in
  ret (set_tn_TypeDescription
         (Some {| TypeIdentifier := normalizedTypeIdentifier;
                  TypeString := normalizedTypeName |}) t).

Definition parseIdentifierPath (t : TypeName) (parentNodeId : Z)
    (ctx : IdentifierPathContext) : Build TypeName :=
  let t := set_tn_NodeType NodeType_USER_DEFINED_PATH_NAME t in
  match ipc_AllIdentifier ctx with
  | identifierCtx :: _ =>
      pathId <- GetNextID ;;
      pathSrcId <- GetNextID ;;
      let t := set_tn_PathNode
        (Some {| pn_Id := pathId;
                 pn_Name := idc_GetText identifierCtx;
                 pn_Src :=
                   {| src_Id := pathSrcId;
                      src_Line := tok_Line (idc_GetStart identifierCtx);
                      src_Column := tok_Column (idc_GetStart identifierCtx);
                      src_Start := tok_Start (idc_GetStart identifierCtx);
                      src_End := tok_Stop (idc_GetStop identifierCtx);
                      src_Length :=
                        Int64.add (Int64.sub (tok_Stop (idc_GetStop identifierCtx))
                                             (tok_Start (idc_GetStart identifierCtx))) 1;
                      src_ParentIndex := tn_Id t |};
                 pn_NodeType := NodeType_IDENTIFIER_PATH;
                 pn_ReferencedDeclaration := 0 |}) t in
      match ResolveByNode (SubjectTypeName t) (idc_GetText identifierCtx) with
      | Some (refId, refTypeDescription) =>
          let t := match tn_PathNode t with
                   | Some pathNode =>
                       set_tn_PathNode
                         (Some (set_pn_ReferencedDeclaration refId pathNode)) t
                   | None => t
                   end in
          let t := set_tn_ReferencedDeclaration refId t in
          ret (set_tn_TypeDescription refTypeDescription t)
      | None => ret t
      end
  | [] => ret t
  end.

Definition parseMappingTypeName (fuel : nat) (t : TypeName) (parentNodeId : Z)
    (ctx : MappingTypeContext) : Build TypeName :=
  let keyCtx := mtc_GetKey ctx in
  let valueCtx := mtc_GetValue ctx in
  ' (keyType, t, _) <- generateTypeName fuel t (CtxMappingKeyType keyCtx) RefReceiver ;;
  let t := set_tn_KeyType (Some keyType) t in
  ' (valueType, t, _) <- generateTypeName fuel t (CtxTypeName valueCtx) RefReceiver ;;
  let t := set_tn_ValueType (Some valueType) t in
  description <- mapping_TypeDescription t ;;
  ret (set_tn_TypeDescription (Some description) t).

(** The loop of [TypeName.Parse] over [ctx.GetChildren()]. *)
Fixpoint Parse_children (fuel : nat) (t : TypeName) (parentNodeId : Z)
    (children : list TypeNameChild) : Build TypeName :=
  match children with
  | [] => ret t
  | child :: rest =>
      t <- match child with
           | ChildElementaryTypeName childCtx =>
               parseElementaryTypeName t parentNodeId childCtx
           | ChildMappingType childCtx =>
               parseMappingTypeName fuel t parentNodeId childCtx
           | ChildIdentifierPath childCtx =>
               parseIdentifierPath t parentNodeId childCtx
           | ChildTypeName childCtx =>
               parseTypeName fuel t parentNodeId childCtx
           | ChildTerminalNode _ => ret t
           | ChildFunctionTypeName _ | ChildOther _ =>
               panic ("Unknown type name @ TypeName.Parse: " ++ child_goType child)
           end ;;
      Parse_children fuel t parentNodeId rest
  end.

(** [TypeName.Parse].  The test of [ctx.Expression()] after the loop only
    logs a warning. *)
Definition TypeName_Parse (fuel : nat) (t : TypeName) (parentNodeId : Z)
    (ctx : TypeNameContext) : Build TypeName :=
  id <- GetNextID ;;
  let t := set_tn_Id id t in
  srcId <- GetNextID ;;
  let t := set_tn_Src
    {| src_Id := srcId;
       src_Line := tok_Line (tnc_GetStart ctx);
       src_Column := tok_Column (tnc_GetStart ctx);
       src_Start := tok_Start (tnc_GetStart ctx);
       src_End := tok_Stop (tnc_GetStop ctx);
       src_Length :=
         Int64.add (Int64.sub (tok_Stop (tnc_GetStop ctx)) (tok_Start (tnc_GetStart ctx))) 1;
       src_ParentIndex := parentNodeId |} t in
  Parse_children fuel t parentNodeId (tnc_GetChildren ctx).

(** *** [PrimaryExpression] *)

(** The implementation-specific result of converting a [float64] outside
    the range of [int] (see [int_of_pow10]). *)
Variable float_to_int_overflow : Z.

(** [parts[i]]: the run time panics when the index is out of range. *)
Definition index (parts : list string) (i : nat) : Build string :=
  match nth_error parts i with
  | Some part => ret part
  | None => runtime_panic IndexOutOfRange
  end.

(** The loop over the parameters of the enclosing function or constructor:
    it stops at the first parameter with the name. *)
Fixpoint match_parameters (parameters : list ParameterNode) (p : PrimaryExpression)
  : PrimaryExpression :=
  match parameters with
  | [] => p
  | param :: rest =>
      if String.eqb (par_GetName param) (pe_Name p) then
        match par_GetTypeName param with
        | Some typeName =>
            let p := set_pe_TypeDescription (tn_TypeDescription typeName) p in
            set_pe_ReferencedDeclaration (pe_Id p) p
        | None => p
        end
      else match_parameters rest p
  end.

(** The loop over the declarations of one variable declaration statement:
    it stops at the first declaration with the name. *)
Fixpoint match_declarations (vDeclar : VariableDeclaration)
    (declarations : list Declaration) (p : PrimaryExpression)
  : Build PrimaryExpression :=
  match declarations with
  | [] => ret p
  | declaration :: rest =>
      if String.eqb (decl_GetName declaration) (pe_Name p) then
        typeName <- deref (decl_GetTypeName declaration) ;;
        let p := set_pe_TypeDescription (tn_TypeDescription typeName) p in
        ret (set_pe_ReferencedDeclaration (vd_GetId vDeclar) p)
      else match_declarations vDeclar rest p
  end.

(** The loop over the statements of the body: every statement is visited. *)
Fixpoint match_statements (statements : list Statement) (p : PrimaryExpression)
  : Build PrimaryExpression :=
  match statements with
  | [] => ret p
  | statement :: rest =>
      p <- match statement with
           | StmtVariableDeclaration vDeclar =>
               match_declarations vDeclar (vd_GetDeclarations vDeclar) p
           | StmtOther _ => ret p
           end ;;
      match_statements rest p
  end.

(** The common start of the literal branches: the lexeme without double
    quotes and surrounding space. *)
Definition literal_value (text : string) : string :=
  strings_TrimSpace (strings_ReplaceAll text double_quote "").

Definition magic_message : TypeDescription :=
  {| TypeIdentifier := "t_magic_message"; TypeString := "msg" |}.

Definition magic_block : TypeDescription :=
  {| TypeIdentifier := "t_magic_block"; TypeString := "block" |}.

(** [PrimaryExpression.Parse].  [contractNode] is not read and is left out. *)
Definition PrimaryExpression_Parse (p : PrimaryExpression) (unit : SourceUnit)
    (fnNode : option FnNode) (bodyNode : option BodyNode)
    (vDeclar : option VariableDeclaration) (expNode : option ExpNode)
    (ctx : PrimaryExpressionContext) : Build PrimaryExpression :=
  srcId <- GetNextID ;;
  parentIndex <-
    match expNode with
    | Some e => ret (exp_GetId e)
    | None =>
        match vDeclar with
        | Some v => ret (vd_GetId v)
        | None => body <- deref bodyNode ;; ret (body_GetId body)
        end
    end ;;
  let p := set_pe_Src
    {| src_Id := srcId;
       src_Line := tok_Line (pec_GetStart ctx);
       src_Column := tok_Column (pec_GetStart ctx);
       src_Start := tok_Start (pec_GetStart ctx);
       src_End := tok_Stop (pec_GetStop ctx);
       src_Length :=
         Int64.add (Int64.sub (tok_Stop (pec_GetStop ctx)) (tok_Start (pec_GetStart ctx))) 1;
       src_ParentIndex := parentIndex |} p in
  (* magic message type *)
  let p := if String.eqb (pec_GetText ctx) "msg"
           then set_pe_TypeDescription (Some magic_message) p else p in
  (* magic block type *)
  let p := if String.eqb (pec_GetText ctx) "block"
           then set_pe_TypeDescription (Some magic_block) p else p in
  (* magic this type: the type description of the contract *)
  let p := if String.eqb (pec_GetText ctx) "this"
           then set_pe_TypeDescription (unit_GetTypeDescription unit) p else p in
  let p := match expNode with
           | Some (ExpFunctionCall _ _ arguments) =>
               set_pe_ArgumentTypes (pe_ArgumentTypes p ++ arguments)%list p
           | _ => p
           end in
  p <- match pec_Identifier ctx with
       | Some identifier =>
           let p := set_pe_Name identifier p in
           p <- match fnNode with
                | Some (FnConstructor parameterList) =>
                    parameters <- deref parameterList ;;
                    ret (match_parameters parameters p)
                | Some (FnFunction (Some parameters)) =>
                    ret (match_parameters parameters p)
                | _ => ret p
                end ;;
           p <- match bodyNode with
                | Some body => match_statements (body_GetStatements body) p
                | None => ret p
                end ;;
           match pe_TypeDescription p with
           | None =>
               match ResolveByNode (SubjectPrimaryExpression p) (pe_Name p) with
               | Some (refId, refTypeDescription) =>
                   let p := set_pe_ReferencedDeclaration refId p in
                   ret (set_pe_TypeDescription refTypeDescription p)
               | None => ret p
               end
           | Some _ => ret p
           end
       | None => ret p
       end ;;
  (* a placeholder statement that arrives as a primary expression *)
  if String.eqb (pe_Name p) "_" then
    ret (set_pe_NodeType NodeType_PLACEHOLDER_STATEMENT p)
  else
  match pec_Literal ctx with
  | None => ret p
  | Some literalCtx =>
      let p := set_pe_NodeType NodeType_LITERAL p in
      let p := set_pe_IsPure true p in
      match lit_BooleanLiteral literalCtx with
      | Some text =>
          let p := if String.eqb (pe_Name p) "true" || String.eqb (pe_Name p) "false"
                   then set_pe_Name "" p else p in
          let p := set_pe_Kind NodeType_BOOLEAN p in
          let p := set_pe_Value (literal_value text) p in
          let p := set_pe_HexValue (hex_EncodeToString (pe_Value p)) p in
          ret (set_pe_TypeDescription
                 (Some {| TypeIdentifier := "t_bool"; TypeString := "bool" |}) p)
      | None =>
      match lit_StringLiteral literalCtx with
      | Some text =>
          let p := set_pe_Name "" p in
          let p := set_pe_Kind NodeType_STRING p in
          let p := set_pe_Value (literal_value text) p in
          let p := set_pe_HexValue (hex_EncodeToString (pe_Value p)) p in
          ret (set_pe_TypeDescription
                 (Some {| TypeIdentifier := "t_string_literal";
                          TypeString := "literal_string " ++ text |}) p)
      | None =>
      match lit_NumberLiteral literalCtx with
      | Some text =>
          let p := set_pe_Kind NodeType_NUMBER p in
          let p := set_pe_Value (literal_value text) p in
          let p := set_pe_HexValue (hex_EncodeToString (pe_Value p)) p in
          (* is the number a floating-point number *)
          if strings_Contains (pe_Value p) "." then
            let parts := strings_Split (pe_Value p) "." in
            part0 <- index parts 0 ;;
            part1 <- index parts 1 ;;
            (* the numerator is the number without the decimal point *)
            let '(numerator, _) := strconv_Atoi (part0 ++ part1) in
            (* the denominator is a power of 10 *)
            let denominator :=
              int_of_pow10 float_to_int_overflow (String.length part1) in
            ret (set_pe_TypeDescription
                   (Some {| TypeIdentifier :=
                              "t_rational_" ++ fmt_d numerator ++ "_by_" ++ fmt_d denominator;
                            TypeString := "fixed_const " ++ text |}) p)
          else
            let '(numerator, _) := strconv_Atoi (pe_Value p) in
            let denominator := 1 in
            ret (set_pe_TypeDescription
                   (Some {| TypeIdentifier :=
                              "t_rational_" ++ fmt_d numerator ++ "_by_" ++ fmt_d denominator;
                            TypeString := "int_const " ++ text |}) p)
      | None =>
      match lit_HexStringLiteral literalCtx with
      | Some _ =>
          let p := set_pe_Kind NodeType_HEX_STRING p in
          (* literalCtx.StringLiteral().GetText(), not HexStringLiteral() *)
          text <- deref (lit_StringLiteral literalCtx) ;;
          let p := set_pe_Value (literal_value text) p in
          let p := set_pe_HexValue (hex_EncodeToString (pe_Value p)) p in
          text' <- deref (lit_StringLiteral literalCtx) ;;
          ret (set_pe_TypeDescription
                 (Some {| TypeIdentifier := "t_string_hex_literal";
                          TypeString := "literal_hex_string " ++ text' |}) p)
      | None =>
          let p := if String.eqb (pec_GetText ctx) "msg"
                   then set_pe_TypeDescription (Some magic_message) p else p in
          description <- deref (pe_TypeDescription p) ;;
          if String.eqb (TypeString description) "" then
            match expNode with
            | Some e => ret (set_pe_TypeDescription (exp_GetTypeDescription e) p)
            | None => ret p
            end
          else ret p
      end end end end
  end.

(** *** Expression statements *)

(** The children of an expression statement, by the case of the type
    switch; [ExprChild_Unrecognized] is any other production, with the Go
    type [%T] prints. *)
Inductive ExpressionStatementChild : Type :=
| ExprChild_FunctionCall (childCtx : string)
| ExprChild_Assignment (childCtx : string)
| ExprChild_PrimaryExpression (childCtx : PrimaryExpressionContext)
| ExprChild_UnarySuffixOperation (childCtx : string)
| ExprChild_UnaryPrefixOperation (childCtx : string)
| ExprChild_OrderComparison (childCtx : string)
| ExprChild_TerminalNode (text : string)
| ExprChild_Unrecognized (goType : string).

(** The translators the statement delegates to that are not among the
    sources, and the node they return.  [Assignment.ParseStatement] is
    handed the whole statement besides the child: its children are the
    argument of the constructor. *)
Inductive Delegate : Type :=
| FunctionCall_Parse
| Assignment_ParseStatement (ctx : list ExpressionStatementChild)
| UnarySuffixExpression_Parse
| UnaryPrefixExpression_Parse
| BinaryOperationExpression_ParseOrderComparison.

Record ForeignNode : Type := mkForeignNode {
  fn_GetId : Z;
  fn_GetType : NodeType;
  fn_GetTypeDescription : option TypeDescription
}.

Inductive Node : Type :=
| NodePrimaryExpression (p : PrimaryExpression)
| NodeForeign (n : ForeignNode).

Variable delegate :
  Delegate -> SourceUnit -> option FnNode -> option BodyNode -> option ExpNode ->
  string -> Build ForeignNode.

(** The loop of [parseExpressionStatement] over [ctx.GetChildren()]: the
    first child that is not a terminal decides; [None] is the nil the
    function returns after the loop.  [ctx] is the whole statement, which
    the loop hands to [Assignment.ParseStatement]. *)
Fixpoint parseExpressionStatement_children (unit : SourceUnit)
    (fnNode : option FnNode) (bodyNode : option BodyNode)
    (parentNode : option ExpNode) (ctx : list ExpressionStatementChild)
    (children : list ExpressionStatementChild)
  : Build (option Node) :=
  match children with
  | [] => ret None
  | child :: rest =>
      match child with
      | ExprChild_FunctionCall childCtx =>
          n <- delegate FunctionCall_Parse unit fnNode bodyNode parentNode childCtx ;;
          ret (Some (NodeForeign n))
      | ExprChild_Assignment childCtx =>
          n <- delegate (Assignment_ParseStatement ctx) unit fnNode bodyNode
                 parentNode childCtx ;;
          ret (Some (NodeForeign n))
      | ExprChild_PrimaryExpression childCtx =>
          primaryExpression <- NewPrimaryExpression ;;
          p <- PrimaryExpression_Parse primaryExpression unit fnNode bodyNode None
                 parentNode childCtx ;;
          ret (Some (NodePrimaryExpression p))
      | ExprChild_UnarySuffixOperation childCtx =>
          n <- delegate UnarySuffixExpression_Parse unit fnNode bodyNode parentNode childCtx ;;
          ret (Some (NodeForeign n))
      | ExprChild_UnaryPrefixOperation childCtx =>
          n <- delegate UnaryPrefixExpression_Parse unit fnNode bodyNode parentNode childCtx ;;
          ret (Some (NodeForeign n))
      | ExprChild_OrderComparison childCtx =>
          n <- delegate BinaryOperationExpression_ParseOrderComparison unit fnNode
                 bodyNode parentNode childCtx ;;
          ret (Some (NodeForeign n))
      | ExprChild_TerminalNode _ =>
          parseExpressionStatement_children unit fnNode bodyNode parentNode ctx rest
      | ExprChild_Unrecognized goType =>
          panic ("Expression statement child not recognized @ ExpressionStatement.Parse: "
                   ++ goType)
      end
  end.

Definition parseExpressionStatement (unit : SourceUnit) (fnNode : option FnNode)
    (bodyNode : option BodyNode) (parentNode : option ExpNode)
    (ctx : list ExpressionStatementChild) : Build (option Node) :=
  parseExpressionStatement_children unit fnNode bodyNode parentNode ctx ctx.

(** ** The vocabulary of the properties *)

(** *** Spans *)

(** The span arithmetic of the specification, in Go's [int64]:
    [length == end - start + 1]. *)
Definition span_ok (src : SrcNode) : Prop :=
  src_Length src = Int64.add (Int64.sub (src_End src) (src_Start src)) 1.

(** The span read off a start and a stop token. *)
Definition span_of (start stop : Token) (src : SrcNode) : Prop :=
  src_Start src = tok_Start start /\ src_End src = tok_Stop stop /\ span_ok src.

Definition path_span_ok (o : option PathNode) : Prop :=
  match o with
  | Some pathNode => span_ok (pn_Src pathNode)
  | None => True
  end.

(** Every node of a type name tree: the node, its key and value types and
    its path node. *)
Fixpoint spans_ok (t : TypeName) : Prop :=
  match t with
  | mkTypeName _ _ src _ _ keyType valueType pathNode _ _ =>
      span_ok src
      /\ match keyType with Some k => spans_ok k | None => True end
      /\ match valueType with Some v => spans_ok v | None => True end
      /\ path_span_ok pathNode
  end.

Definition ref_spans_ok (r : TypeNameRef) : Prop :=
  match r with
  | RefReceiver => True
  | RefLocal n => spans_ok n
  end.

(** Structural depth of the parse tree of a type name: the fuel
    [generateTypeName] needs. *)
Fixpoint tnc_depth (c : TypeNameContext) : nat :=
  match c with
  | mkTypeNameContext _ _ _ children =>
      S ((fix children_depth (l : list TypeNameChild) : nat :=
            match l with
            | [] => O
            | child :: rest => Nat.max (child_depth child) (children_depth rest)
            end) children)
  end
with child_depth (child : TypeNameChild) : nat :=
  match child with
  | ChildMappingType m => mtc_depth m
  | ChildTypeName c => tnc_depth c
  | _ => O
  end
with mtc_depth (m : MappingTypeContext) : nat :=
  match m with
  | mkMappingTypeContext _ _ _ _ value => S (tnc_depth value)
  end.

Definition GenerateCtx_depth (ctx : GenerateCtx) : nat :=
  match ctx with
  | CtxMappingKeyType _ => 1%nat
  | CtxMappingType m => mtc_depth m
  | CtxTypeName c => tnc_depth c
  end.

(** *** The blocks of [PrimaryExpression.Parse]

    The same code, block by block, for the proofs: the span and the magic
    types, the identifier, and what follows it. *)

Definition parent_index (expNode : option ExpNode)
    (vDeclar : option VariableDeclaration) (bodyNode : option BodyNode) : Build Z :=
  match expNode with
  | Some e => ret (exp_GetId e)
  | None =>
      match vDeclar with
      | Some v => ret (vd_GetId v)
      | None => body <- deref bodyNode ;; ret (body_GetId body)
      end
  end.

(** The node after the first block, once the span has its two numbers. *)
Definition head_node (p : PrimaryExpression) (unit : SourceUnit)
    (expNode : option ExpNode) (ctx : PrimaryExpressionContext)
    (srcId parentIndex : Z) : PrimaryExpression :=
  let p := set_pe_Src
    {| src_Id := srcId;
       src_Line := tok_Line (pec_GetStart ctx);
       src_Column := tok_Column (pec_GetStart ctx);
       src_Start := tok_Start (pec_GetStart ctx);
       src_End := tok_Stop (pec_GetStop ctx);
       src_Length :=
         Int64.add (Int64.sub (tok_Stop (pec_GetStop ctx)) (tok_Start (pec_GetStart ctx))) 1;
       src_ParentIndex := parentIndex |} p in
  let p := if String.eqb (pec_GetText ctx) "msg"
           then set_pe_TypeDescription (Some magic_message) p else p in
  let p := if String.eqb (pec_GetText ctx) "block"
           then set_pe_TypeDescription (Some magic_block) p else p in
  let p := if String.eqb (pec_GetText ctx) "this"
           then set_pe_TypeDescription (unit_GetTypeDescription unit) p else p in
  match expNode with
  | Some (ExpFunctionCall _ _ arguments) =>
      set_pe_ArgumentTypes (pe_ArgumentTypes p ++ arguments)%list p
  | _ => p
  end.

Definition Parse_head (p : PrimaryExpression) (unit : SourceUnit)
    (bodyNode : option BodyNode) (vDeclar : option VariableDeclaration)
    (expNode : option ExpNode) (ctx : PrimaryExpressionContext)
  : Build PrimaryExpression :=
  srcId <- GetNextID ;;
  parentIndex <- parent_index expNode vDeclar bodyNode ;;
  ret (head_node p unit expNode ctx srcId parentIndex).

Definition Parse_scopes (fnNode : option FnNode) (bodyNode : option BodyNode)
    (p : PrimaryExpression) : Build PrimaryExpression :=
  p <- match fnNode with
       | Some (FnConstructor parameterList) =>
           parameters <- deref parameterList ;;
           ret (match_parameters parameters p)
       | Some (FnFunction (Some parameters)) =>
           ret (match_parameters parameters p)
       | _ => ret p
       end ;;
  match bodyNode with
  | Some body => match_statements (body_GetStatements body) p
  | None => ret p
  end.

Definition Parse_resolver (p : PrimaryExpression) : PrimaryExpression :=
  match pe_TypeDescription p with
  | None =>
      match ResolveByNode (SubjectPrimaryExpression p) (pe_Name p) with
      | Some (refId, refTypeDescription) =>
          let p := set_pe_ReferencedDeclaration refId p in
          set_pe_TypeDescription refTypeDescription p
      | None => p
      end
  | Some _ => p
  end.

Definition Parse_identifier (fnNode : option FnNode) (bodyNode : option BodyNode)
    (ctx : PrimaryExpressionContext) (p : PrimaryExpression)
  : Build PrimaryExpression :=
  match pec_Identifier ctx with
  | Some identifier =>
      p <- Parse_scopes fnNode bodyNode (set_pe_Name identifier p) ;;
      ret (Parse_resolver p)
  | None => ret p
  end.

Definition Parse_number (text : string) (p : PrimaryExpression)
  : Build PrimaryExpression :=
  let p := set_pe_Kind NodeType_NUMBER p in
  let p := set_pe_Value (literal_value text) p in
  let p := set_pe_HexValue (hex_EncodeToString (pe_Value p)) p in
  if strings_Contains (pe_Value p) "." then
    let parts := strings_Split (pe_Value p) "." in
    part0 <- index parts 0 ;;
    part1 <- index parts 1 ;;
    let '(numerator, _) := strconv_Atoi (part0 ++ part1) in
    let denominator :=
      int_of_pow10 float_to_int_overflow (String.length part1) in
    ret (set_pe_TypeDescription
           (Some {| TypeIdentifier :=
                      "t_rational_" ++ fmt_d numerator ++ "_by_" ++ fmt_d denominator;
                    TypeString := "fixed_const " ++ text |}) p)
  else
    let '(numerator, _) := strconv_Atoi (pe_Value p) in
    let denominator := 1 in
    ret (set_pe_TypeDescription
           (Some {| TypeIdentifier :=
                      "t_rational_" ++ fmt_d numerator ++ "_by_" ++ fmt_d denominator;
                    TypeString := "int_const " ++ text |}) p).

Definition Parse_literal (expNode : option ExpNode)
    (ctx : PrimaryExpressionContext) (literalCtx : LiteralContext)
    (p : PrimaryExpression) : Build PrimaryExpression :=
  let p := set_pe_NodeType NodeType_LITERAL p in
  let p := set_pe_IsPure true p in
  match lit_BooleanLiteral literalCtx with
  | Some text =>
      let p := if String.eqb (pe_Name p) "true" || String.eqb (pe_Name p) "false"
               then set_pe_Name "" p else p in
      let p := set_pe_Kind NodeType_BOOLEAN p in
      let p := set_pe_Value (literal_value text) p in
      let p := set_pe_HexValue (hex_EncodeToString (pe_Value p)) p in
      ret (set_pe_TypeDescription
             (Some {| TypeIdentifier := "t_bool"; TypeString := "bool" |}) p)
  | None =>
  match lit_StringLiteral literalCtx with
  | Some text =>
      let p := set_pe_Name "" p in
      let p := set_pe_Kind NodeType_STRING p in
      let p := set_pe_Value (literal_value text) p in
      let p := set_pe_HexValue (hex_EncodeToString (pe_Value p)) p in
      ret (set_pe_TypeDescription
             (Some {| TypeIdentifier := "t_string_literal";
                      TypeString := "literal_string " ++ text |}) p)
  | None =>
  match lit_NumberLiteral literalCtx with
  | Some text => Parse_number text p
  | None =>
  match lit_HexStringLiteral literalCtx with
  | Some _ =>
      let p := set_pe_Kind NodeType_HEX_STRING p in
      text <- deref (lit_StringLiteral literalCtx) ;;
      let p := set_pe_Value (literal_value text) p in
      let p := set_pe_HexValue (hex_EncodeToString (pe_Value p)) p in
      text' <- deref (lit_StringLiteral literalCtx) ;;
      ret (set_pe_TypeDescription
             (Some {| TypeIdentifier := "t_string_hex_literal";
                      TypeString := "literal_hex_string " ++ text' |}) p)
  | None =>
      let p := if String.eqb (pec_GetText ctx) "msg"
               then set_pe_TypeDescription (Some magic_message) p else p in
      description <- deref (pe_TypeDescription p) ;;
      if String.eqb (TypeString description) "" then
        match expNode with
        | Some e => ret (set_pe_TypeDescription (exp_GetTypeDescription e) p)
        | None => ret p
        end
      else ret p
  end end end end.

Definition Parse_tail (expNode : option ExpNode) (ctx : PrimaryExpressionContext)
    (p : PrimaryExpression) : Build PrimaryExpression :=
  if String.eqb (pe_Name p) "_" then
    ret (set_pe_NodeType NodeType_PLACEHOLDER_STATEMENT p)
  else
    match pec_Literal ctx with
    | None => ret p
    | Some literalCtx => Parse_literal expNode ctx literalCtx p
    end.


Definition children_depth (children : list TypeNameChild) : nat :=
  fold_right (fun child n => Nat.max (child_depth child) n) O children.


(** *** Mapping type descriptions *)

(** The description of a mapping node is composed from the identifiers of
    its key and value nodes and from their display names. *)
Definition mapping_described (node : TypeName) : Prop :=
  exists keyType valueType k v,
    tn_KeyType node = Some keyType
    /\ tn_ValueType node = Some valueType
    /\ tn_TypeDescription keyType = Some k
    /\ tn_TypeDescription valueType = Some v
    /\ tn_TypeDescription node =
       Some {| TypeIdentifier :=
                 "t_mapping_$" ++ TypeIdentifier k ++ "_$" ++ TypeIdentifier v ++ "$";
               TypeString :=
                 "mapping(" ++ tn_Name keyType ++ " => " ++ tn_Name valueType ++ ")" |}.

(** *** Sample inputs *)

(** A normalisation of elementary type names in the style of the canonical
    table: the identifier is the spelling behind [t_]. *)
Definition sample_normalize (text : string) : string * string :=
  (text, "t_" ++ text).

(** A resolver that finds nothing. *)
Definition resolve_nothing (_ : ResolverSubject) (_ : string)
  : option (Z * option TypeDescription) := None.

Definition token_at (start stop : Z) : Token := mkToken 1 start start stop.

(** [mapping(address => uint256)]. *)
Definition sample_key_address : MappingKeyTypeContext :=
  mkMappingKeyTypeContext "address" (token_at 8 14) (token_at 8 14)
    (Some (mkElementaryTypeNameContext "address")) None.

Definition sample_uint256 : TypeNameContext :=
  mkTypeNameContext "uint256" (token_at 19 25) (token_at 19 25)
    [ChildElementaryTypeName (mkElementaryTypeNameContext "uint256")].

Definition sample_mapping : MappingTypeContext :=
  mkMappingTypeContext "mapping(address=>uint256)" (token_at 0 6) (token_at 26 26)
    sample_key_address sample_uint256.

Definition sample_mapping_type_name : TypeNameContext :=
  mkTypeNameContext "mapping(address=>uint256)" (token_at 0 6) (token_at 26 26)
    [ChildMappingType sample_mapping].


(** A body with no statement, a contract without type description, and
    literal and identifier productions at offsets 0 to [stop]. *)
Definition sample_body : BodyNode := mkBodyNode 50 [].

Definition sample_unit : SourceUnit := mkSourceUnit None.

Definition number_literal (lexeme : string) (stop : Z) : PrimaryExpressionContext :=
  mkPrimaryExpressionContext lexeme (token_at 0 stop) (token_at 0 stop) None
    (Some (mkLiteralContext None None (Some lexeme) None)).

Definition identifier (name : string) (stop : Z) : PrimaryExpressionContext :=
  mkPrimaryExpressionContext name (token_at 0 stop) (token_at 0 stop)
    (Some name) None.

(** The node [NewPrimaryExpression] makes when the counter is at 100. *)
Definition sample_node : PrimaryExpression :=
  mkPrimaryExpression 100 NodeType_IDENTIFIER NodeType_NT_DEFAULT "" ""
    SrcNode_zero "" None [] 0 false [].


(** *** The scopes, as the specification reads them *)

Definition is_some {A : Type} (o : option A) : bool :=
  match o with Some _ => true | None => false end.

(** The parent a primary expression is attached to: the enclosing
    expression, else the variable declaration, else the body. *)
Definition parent_of (expNode : option ExpNode)
    (vDeclar : option VariableDeclaration) (bodyNode : option BodyNode) : option Z :=
  match expNode with
  | Some e => Some (exp_GetId e)
  | None =>
      match vDeclar with
      | Some v => Some (vd_GetId v)
      | None => option_map body_GetId bodyNode
      end
  end.

(** The first parameter with the name, when there is one: its type name. *)
Fixpoint parameter_named (name : string) (parameters : list ParameterNode)
  : option ParameterNode :=
  match parameters with
  | [] => None
  | param :: rest =>
      if String.eqb (par_GetName param) name then Some param
      else parameter_named name rest
  end.

(** The parameters of the enclosing function or constructor. *)
Definition parameters_of (fnNode : option FnNode) : list ParameterNode :=
  match fnNode with
  | Some (FnConstructor (Some parameters)) => parameters
  | Some (FnFunction (Some parameters)) => parameters
  | _ => []
  end.

(** A parameter shadows the name when the first parameter so named carries
    a type name. *)
Definition parameter_shadows (name : string) (fnNode : option FnNode) : bool :=
  match parameter_named name (parameters_of fnNode) with
  | Some param => is_some (par_GetTypeName param)
  | None => false
  end.

Fixpoint declaration_named (name : string) (declarations : list Declaration)
  : option Declaration :=
  match declarations with
  | [] => None
  | declaration :: rest =>
      if String.eqb (decl_GetName declaration) name then Some declaration
      else declaration_named name rest
  end.

(** The local declaration a name refers to: the statements are scanned in
    order and a later declaration of the name shadows the earlier ones.  The
    result is the variable declaration statement and the declaration in it. *)
Fixpoint local_declaration (name : string) (statements : list Statement)
  : option (VariableDeclaration * Declaration) :=
  match statements with
  | [] => None
  | statement :: rest =>
      match local_declaration name rest with
      | Some found => Some found
      | None =>
          match statement with
          | StmtVariableDeclaration v =>
              option_map (fun d => (v, d))
                (declaration_named name (vd_GetDeclarations v))
          | StmtOther _ => None
          end
      end
  end.

Definition statements_of (bodyNode : option BodyNode) : list Statement :=
  match bodyNode with
  | Some body => body_GetStatements body
  | None => []
  end.

(** The pointers the search through the scopes follows are not nil: the
    parameter list of a constructor, and the type name of the declarations
    with the name. *)
Definition declarations_typed (name : string) (statements : list Statement) : bool :=
  forallb
    (fun statement =>
       match statement with
       | StmtVariableDeclaration v =>
           match declaration_named name (vd_GetDeclarations v) with
           | Some d => is_some (decl_GetTypeName d)
           | None => true
           end
       | StmtOther _ => true
       end) statements.

Definition scopes_readable (name : string) (fnNode : option FnNode)
    (bodyNode : option BodyNode) : bool :=
  match fnNode with
  | Some (FnConstructor None) => false
  | _ => true
  end && declarations_typed name (statements_of bodyNode).

(** The production carries one of the four literals [Parse] knows. *)
Definition known_literal (ctx : PrimaryExpressionContext) : bool :=
  match pec_Literal ctx with
  | Some literalCtx =>
      is_some (lit_BooleanLiteral literalCtx)
      || is_some (lit_StringLiteral literalCtx)
      || is_some (lit_NumberLiteral literalCtx)
      || is_some (lit_HexStringLiteral literalCtx)
  | None => false
  end.


(** What the search through the parameters and the local declarations
    yields for a name: the type description and the referenced declaration
    the node is left with.  A local declaration comes before a parameter;
    a parameter without type name changes nothing. *)
Definition scope_resolution (name : string) (fnNode : option FnNode)
    (bodyNode : option BodyNode) (p : PrimaryExpression)
  : option TypeDescription * Z :=
  match local_declaration name (statements_of bodyNode) with
  | Some (v, d) =>
      (match decl_GetTypeName d with
       | Some typeName => tn_TypeDescription typeName
       | None => None
       end, vd_GetId v)
  | None =>
      match parameter_named name (parameters_of fnNode) with
      | Some param =>
          match par_GetTypeName param with
          | Some typeName => (tn_TypeDescription typeName, pe_Id p)
          | None => (pe_TypeDescription p, pe_ReferencedDeclaration p)
          end
      | None => (pe_TypeDescription p, pe_ReferencedDeclaration p)
      end
  end.

Definition resolved (p : PrimaryExpression)
    (resolution : option TypeDescription * Z) : PrimaryExpression :=
  set_pe_ReferencedDeclaration (snd resolution)
    (set_pe_TypeDescription (fst resolution) p).

(** The node after the identifier block, when the scopes can be read. *)
Definition identified (fnNode : option FnNode) (bodyNode : option BodyNode)
    (ctx : PrimaryExpressionContext) (p : PrimaryExpression) : PrimaryExpression :=
  match pec_Identifier ctx with
  | Some name =>
      let p := set_pe_Name name p in
      Parse_resolver (resolved p (scope_resolution name fnNode bodyNode p))
  | None => p
  end.

Definition readable (ctx : PrimaryExpressionContext) (fnNode : option FnNode)
    (bodyNode : option BodyNode) : bool :=
  match pec_Identifier ctx with
  | Some name => scopes_readable name fnNode bodyNode
  | None => true
  end.


(** The name the node carries after the identifier block. *)
Definition name_after (ctx : PrimaryExpressionContext) (p : PrimaryExpression)
  : string :=
  match pec_Identifier ctx with
  | Some name => name
  | None => pe_Name p
  end.

(** A declaration of the enclosing scopes takes the name of the
    identifier: a parameter with a type name or a local declaration. *)
Definition shadowed (ctx : PrimaryExpressionContext) (fnNode : option FnNode)
    (bodyNode : option BodyNode) : bool :=
  match pec_Identifier ctx with
  | Some name =>
      parameter_shadows name fnNode
      || is_some (local_declaration name (statements_of bodyNode))
  | None => false
  end.


(** Type names as the translators leave them, resolved or not. *)
Definition sample_type (id : Z) (name : string) : TypeName :=
  mkTypeName id NodeType_ELEMENTARY_TYPE_NAME SrcNode_zero name
    (Some {| TypeIdentifier := "t_" ++ name; TypeString := name |})
    None None None Mutability_M_DEFAULT 0.

Definition sample_unresolved_type (id : Z) (name : string) : TypeName :=
  mkTypeName id NodeType_USER_DEFINED_PATH_NAME SrcNode_zero name
    None None None None Mutability_M_DEFAULT 0.

(** A function with one parameter, [uint256 <name>], the node 7. *)
Definition function_with_parameter (name : string) : FnNode :=
  FnFunction (Some [mkParameter 7 name (Some (sample_type 8 "uint256"))]).

(** The body [address x; ...; bool x;]: the statements 20, 21 and 22. *)
Definition body_declaring_x_twice : BodyNode :=
  mkBodyNode 50
    [ StmtVariableDeclaration
        (mkVariableDeclaration 20 [mkDeclaration 30 "x" (Some (sample_type 31 "address"))]);
      StmtOther 21;
      StmtVariableDeclaration
        (mkVariableDeclaration 22 [mkDeclaration 32 "x" (Some (sample_type 33 "bool"))]) ].

(** The body [Foo x;] with a type [Foo] that is not resolved, and a
    resolver that knows a declaration 99 of [x]. *)
Definition body_declaring_unresolved_x : BodyNode :=
  mkBodyNode 50
    [ StmtVariableDeclaration
        (mkVariableDeclaration 20
           [mkDeclaration 30 "x" (Some (sample_unresolved_type 31 "Foo"))]) ].

Definition resolve_x (_ : ResolverSubject) (name : string)
  : option (Z * option TypeDescription) :=
  if String.eqb name "x"
  then Some (99, Some {| TypeIdentifier := "t_uint8"; TypeString := "uint8" |})
  else None.

(** The literal [hex'00ff']. *)
Definition hex_string_literal : PrimaryExpressionContext :=
  mkPrimaryExpressionContext "hex'00ff'" (token_at 0 8) (token_at 0 8) None
    (Some (mkLiteralContext None None None (Some "hex'00ff'"))).


(** *** Decimal lexemes, as the specification reads them *)

Definition is_digit (c : ascii) : bool := is_some (digit_value c).

Fixpoint all_digits (s : string) : bool :=
  match s with
  | EmptyString => true
  | String c s' => is_digit c && all_digits s'
  end.

(** The integer a string of decimal digits denotes. *)
Fixpoint decimal_from (n : Z) (s : string) : Z :=
  match s with
  | EmptyString => n
  | String c s' =>
      decimal_from (10 * n + match digit_value c with Some d => d | None => 0 end) s'
  end.

Definition decimal_value (s : string) : Z := decimal_from 0 s.

(** Digits and the decimal point: the bytes of a decimal lexeme. *)
Definition plain_char (c : ascii) : bool := is_digit c || Ascii.eqb c "."%char.

Fixpoint all_plain (s : string) : bool :=
  match s with
  | EmptyString => true
  | String c s' => plain_char c && all_plain s'
  end.

(** The text [strconv.Atoi] is given and the denominator, for the value of
    a number literal. *)
Definition numerator_text (value : string) : string :=
  if strings_Contains value "." then
    nth 0 (strings_Split value ".") "" ++ nth 1 (strings_Split value ".") ""
  else value.

Definition denominator_of (value : string) : Z :=
  if strings_Contains value "." then
    int_of_pow10 float_to_int_overflow
      (String.length (nth 1 (strings_Split value ".") ""))
  else 1.

(** The node a number literal becomes. *)
Definition number_node (text : string) (p : PrimaryExpression) : PrimaryExpression :=
  let value := literal_value text in
  set_pe_TypeDescription
    (Some {| TypeIdentifier :=
               "t_rational_" ++ fmt_d (fst (strconv_Atoi (numerator_text value)))
                 ++ "_by_" ++ fmt_d (denominator_of value);
             TypeString :=
               (if strings_Contains value "." then "fixed_const " else "int_const ")
                 ++ text |})
    (set_pe_HexValue (hex_EncodeToString value)
       (set_pe_Value value (set_pe_Kind NodeType_NUMBER p))).


(** *** Grammar shapes the translators know *)

(** A type name without function-type spelling and without a child of an
    unknown production, at any depth. *)
Fixpoint tnc_recognized (c : TypeNameContext) : bool :=
  match c with
  | mkTypeNameContext _ _ _ children =>
      (fix children_recognized (l : list TypeNameChild) : bool :=
         match l with
         | [] => true
         | child :: rest => child_recognized child && children_recognized rest
         end) children
  end
with child_recognized (child : TypeNameChild) : bool :=
  match child with
  | ChildElementaryTypeName _ | ChildIdentifierPath _ | ChildTerminalNode _ => true
  | ChildMappingType m => mtc_recognized m
  | ChildTypeName c => tnc_recognized c
  | ChildFunctionTypeName _ | ChildOther _ => false
  end
with mtc_recognized (m : MappingTypeContext) : bool :=
  match m with
  | mkMappingTypeContext _ _ _ _ value => tnc_recognized value
  end.

Definition children_recognized (children : list TypeNameChild) : bool :=
  forallb child_recognized children.

Definition GenerateCtx_recognized (ctx : GenerateCtx) : bool :=
  match ctx with
  | CtxMappingKeyType _ => true
  | CtxMappingType m => mtc_recognized m
  | CtxTypeName c => tnc_recognized c
  end.

Definition is_terminal (child : ExpressionStatementChild) : bool :=
  match child with
  | ExprChild_TerminalNode _ => true
  | _ => false
  end.

Definition is_assignment (child : ExpressionStatementChild) : bool :=
  match child with
  | ExprChild_Assignment _ => true
  | _ => false
  end.

(** [uint256[]] and [uint256[][]]. *)
Definition sample_array : TypeNameContext :=
  mkTypeNameContext "uint256[]" (token_at 0 6) (token_at 8 8)
    [ChildTypeName
       (mkTypeNameContext "uint256" (token_at 0 6) (token_at 0 6)
          [ChildElementaryTypeName (mkElementaryTypeNameContext "uint256")]);
     ChildTerminalNode "["; ChildTerminalNode "]"].

Definition sample_nested_array : TypeNameContext :=
  mkTypeNameContext "uint256[][]" (token_at 0 6) (token_at 10 10)
    [ChildTypeName sample_array; ChildTerminalNode "["; ChildTerminalNode "]"].


(** [function()[][]]: a function-type spelling under two array suffixes. *)
Definition sample_function_array : TypeNameContext :=
  mkTypeNameContext "function()[][]" (token_at 0 7) (token_at 13 13)
    [ChildTypeName
       (mkTypeNameContext "function()[]" (token_at 0 7) (token_at 11 11)
          [ChildTypeName
             (mkTypeNameContext "function()" (token_at 0 7) (token_at 9 9)
                [ChildFunctionTypeName (mkFunctionTypeNameContext "function()")]);
           ChildTerminalNode "["; ChildTerminalNode "]"]);
     ChildTerminalNode "["; ChildTerminalNode "]"].


(** *** Invariants of [generateTypeName] and of the scope search *)

(** A call keeps the spans of the receiver and of the node
    [typeNameNode] points at, and the node it returns has its span unless
    the context is a mapping (that node is dropped by every caller). *)
Definition generate_keeps_spans
    (generate :
       TypeName -> GenerateCtx -> TypeNameRef ->
       Build (TypeName * TypeName * TypeNameRef)) : Prop :=
  forall t ctx r s res t' r' s',
    generate t ctx r s = Returns ((res, t', r'), s') ->
    spans_ok t -> ref_spans_ok r ->
    spans_ok t' /\ ref_spans_ok r'
    /\ match ctx with CtxMappingType _ => True | _ => spans_ok res end.

(** An explicit panic comes from an unknown shape of the context. *)
Definition generate_panics_on_unrecognized
    (generate :
       TypeName -> GenerateCtx -> TypeNameRef ->
       Build (TypeName * TypeName * TypeNameRef)) : Prop :=
  forall t ctx r s msg,
    generate t ctx r s = Panics msg -> GenerateCtx_recognized ctx = false.

(** Every field but the type description and the referenced declaration. *)
Definition same_node (p q : PrimaryExpression) : Prop :=
  pe_Id q = pe_Id p /\ pe_NodeType q = pe_NodeType p /\ pe_Kind q = pe_Kind p
  /\ pe_Value q = pe_Value p /\ pe_HexValue q = pe_HexValue p
  /\ pe_Src q = pe_Src p /\ pe_Name q = pe_Name p
  /\ pe_OverloadedDeclarations q = pe_OverloadedDeclarations p
  /\ pe_IsPure q = pe_IsPure p /\ pe_ArgumentTypes q = pe_ArgumentTypes p.

(** *** Further vocabulary: bookkeeping of [PrimaryExpression.Parse] *)

(** The type descriptions of the arguments of the enclosing call, when the
    enclosing expression is a function call. *)
Definition call_arguments (expNode : option ExpNode) : list (option TypeDescription) :=
  match expNode with
  | Some (ExpFunctionCall _ _ arguments) => arguments
  | _ => []
  end.

(** The text is one of the three pseudo-globals. *)
Definition magic_text (ctx : PrimaryExpressionContext) : bool :=
  String.eqb (pec_GetText ctx) "msg" || String.eqb (pec_GetText ctx) "block"
  || String.eqb (pec_GetText ctx) "this".


(** The scopes give the node a type description before the Resolver would
    be asked (or the production has no identifier). *)
Definition typed_before_resolver (fnNode : option FnNode)
    (bodyNode : option BodyNode) (ctx : PrimaryExpressionContext)
    (p : PrimaryExpression) : bool :=
  match pec_Identifier ctx with
  | Some name =>
      is_some (fst (scope_resolution name fnNode bodyNode (set_pe_Name name p)))
  | None => true
  end.


(** A call [f(uint256, ?)] as the enclosing expression (the node 40, its
    second argument without type description), and the literals ['abc']
    and [unicode'x']. *)
Definition sample_call : ExpNode :=
  ExpFunctionCall 40
    (Some {| TypeIdentifier := "t_function_$"; TypeString := "function()" |})
    [Some {| TypeIdentifier := "t_uint256"; TypeString := "uint256" |}; None].

Definition string_literal : PrimaryExpressionContext :=
  mkPrimaryExpressionContext "'abc'" (token_at 0 4) (token_at 0 4) None
    (Some (mkLiteralContext None (Some "'abc'") None None)).

Definition unicode_literal : PrimaryExpressionContext :=
  mkPrimaryExpressionContext "unicode'x'" (token_at 0 9) (token_at 0 9) None
    (Some (mkLiteralContext None None None None)).

(** A contract with a type description. *)
Definition sample_contract : SourceUnit :=
  mkSourceUnit
    (Some {| TypeIdentifier := "t_contract$_Token_$1"; TypeString := "contract Token" |}).


(** A delegate that draws the id of its node and returns it. *)
Definition sample_delegate (_ : Delegate) (_ : SourceUnit) (_ : option FnNode)
    (_ : option BodyNode) (_ : option ExpNode) (_ : string) : Build ForeignNode :=
  id <- GetNextID ;;
  ret (mkForeignNode id NodeType_NT_DEFAULT None).


(** *** The ids of a type name tree *)

Definition path_ids (o : option PathNode) : list Z :=
  match o with
  | Some pathNode => [pn_Id pathNode; src_Id (pn_Src pathNode)]
  | None => []
  end.

(** The ids a type name tree carries: of the node and of its span, of its
    key and value types at every depth, and of its path node and its span. *)
Fixpoint tn_ids (t : TypeName) : list Z :=
  match t with
  | mkTypeName id _ src _ _ keyType valueType pathNode _ _ =>
      id :: src_Id src
        :: (match keyType with Some k => tn_ids k | None => [] end
            ++ match valueType with Some v => tn_ids v | None => [] end
            ++ path_ids pathNode)%list
  end.

(** All of them were handed out by the counter between [lo] and [hi]. *)
Definition ids_in (lo hi : Z) (t : TypeName) : Prop :=
  Forall (fun id => lo <= id < hi) (tn_ids t).

Definition ref_ids_in (lo hi : Z) (r : TypeNameRef) : Prop :=
  match r with
  | RefReceiver => True
  | RefLocal n => ids_in lo hi n
  end.

(** A call advances the counter, leaves the id of the receiver alone and
    keeps the ids of the receiver and of the node [typeNameNode] points at
    within the range; the node it returns is within it unless the context is
    a mapping (that node has no span, and every caller drops it). *)
Definition generate_keeps_ids
    (generate :
       TypeName -> GenerateCtx -> TypeNameRef ->
       Build (TypeName * TypeName * TypeNameRef)) : Prop :=
  forall lo t ctx r s res t' r' s',
    generate t ctx r s = Returns ((res, t', r'), s') ->
    lo <= s -> ids_in lo s t -> ref_ids_in lo s r ->
    s <= s' /\ tn_Id t' = tn_Id t /\ ids_in lo s' t' /\ ref_ids_in lo s' r'
    /\ match ctx with CtxMappingType _ => True | _ => ids_in lo s' res end.


(** The children [TypeName.Parse] skips, and those it knows no production
    for (a function type name among them). *)
Definition is_terminal_child (child : TypeNameChild) : bool :=
  match child with
  | ChildTerminalNode _ => true
  | _ => false
  end.

Definition is_unknown_production (child : TypeNameChild) : bool :=
  match child with
  | ChildFunctionTypeName _ | ChildOther _ => true
  | _ => false
  end.

(** [function() external], on its own, under an array suffix and as the
    value of a mapping; [mapping(Foo => uint256)]; the path [Lib.Foo]. *)
Definition sample_function_type : TypeNameContext :=
  mkTypeNameContext "function()external" (token_at 0 7) (token_at 10 17)
    [ChildFunctionTypeName (mkFunctionTypeNameContext "function()external")].

Definition sample_function_type_array : TypeNameContext :=
  mkTypeNameContext "function()external[]" (token_at 0 7) (token_at 19 19)
    [ChildTypeName sample_function_type; ChildTerminalNode "["; ChildTerminalNode "]"].

Definition sample_function_type_mapping : TypeNameContext :=
  mkTypeNameContext "mapping(address=>function()external)" (token_at 0 6)
    (token_at 35 35)
    [ChildMappingType
       (mkMappingTypeContext "mapping(address=>function()external)" (token_at 0 6)
          (token_at 35 35) sample_key_address sample_function_type)].

Definition sample_key_Foo : MappingKeyTypeContext :=
  mkMappingKeyTypeContext "Foo" (token_at 8 10) (token_at 8 10) None
    (Some (mkIdentifierPathContext "Foo" (token_at 8 10) (token_at 8 10)
             [mkIdentifierContext "Foo" (token_at 8 10) (token_at 8 10)])).

Definition sample_mapping_from_Foo : TypeNameContext :=
  mkTypeNameContext "mapping(Foo=>uint256)" (token_at 0 6) (token_at 20 20)
    [ChildMappingType
       (mkMappingTypeContext "mapping(Foo=>uint256)" (token_at 0 6)
          (token_at 20 20) sample_key_Foo sample_uint256)].

Definition sample_path : IdentifierPathContext :=
  mkIdentifierPathContext "Lib.Foo" (token_at 0 2) (token_at 4 6)
    [mkIdentifierContext "Lib" (token_at 0 2) (token_at 0 2);
     mkIdentifierContext "Foo" (token_at 4 6) (token_at 4 6)].

Definition sample_user_type : TypeNameContext :=
  mkTypeNameContext "Lib.Foo" (token_at 0 2) (token_at 4 6)
    [ChildIdentifierPath sample_path].


(** The last block of [Parse] follows no nil pointer on the node [q]: the
    node is the placeholder, or the production has no literal or one of the
    three literals read through their own accessor, or it has a literal of
    another kind that is no hex-string literal, on the text [msg] or on a
    node with a type description. *)
Definition literal_readable (ctx : PrimaryExpressionContext)
    (q : PrimaryExpression) : bool :=
  String.eqb (pe_Name q) "_"
  || match pec_Literal ctx with
     | None => true
     | Some literalCtx =>
         is_some (lit_BooleanLiteral literalCtx)
         || is_some (lit_StringLiteral literalCtx)
         || is_some (lit_NumberLiteral literalCtx)
         || (negb (is_some (lit_HexStringLiteral literalCtx))
             && (String.eqb (pec_GetText ctx) "msg"
                 || is_some (pe_TypeDescription q)))
     end.


(** [mapping(address => Foo)], and a resolver that knows the contract [Foo],
    the declaration 77. *)
Definition sample_Foo : TypeNameContext :=
  mkTypeNameContext "Foo" (token_at 17 19) (token_at 17 19)
    [ChildIdentifierPath
       (mkIdentifierPathContext "Foo" (token_at 17 19) (token_at 17 19)
          [mkIdentifierContext "Foo" (token_at 17 19) (token_at 17 19)])].

Definition sample_mapping_to_Foo : TypeNameContext :=
  mkTypeNameContext "mapping(address=>Foo)" (token_at 0 6) (token_at 20 20)
    [ChildMappingType
       (mkMappingTypeContext "mapping(address=>Foo)" (token_at 0 6)
          (token_at 20 20) sample_key_address sample_Foo)].

Definition resolve_Foo (_ : ResolverSubject) (name : string)
  : option (Z * option TypeDescription) :=
  if String.eqb name "Foo"
  then Some (77, Some {| TypeIdentifier := "t_contract$_Foo_$77";
                         TypeString := "contract Foo" |})
  else None.


(** The type description of the declaration that takes a name: of the
    declared type of the last local declaration of the name, else of the
    type name of the first parameter of the name; [None] when the type
    carries none (or nothing takes the name). *)
Definition declared_type (name : string) (fnNode : option FnNode)
    (bodyNode : option BodyNode) : option TypeDescription :=
  match local_declaration name (statements_of bodyNode) with
  | Some (_, d) =>
      match decl_GetTypeName d with
      | Some typeName => tn_TypeDescription typeName
      | None => None
      end
  | None =>
      match parameter_named name (parameters_of fnNode) with
      | Some param =>
          match par_GetTypeName param with
          | Some typeName => tn_TypeDescription typeName
          | None => None
          end
      | None => None
      end
  end.


(** *** The productions a span is read from *)

(** The start and stop tokens of the productions of a parse tree: of an
    identifier path and its identifiers, of a mapping key, and of a type
    name with every production under it. *)
Definition ipc_productions (path : IdentifierPathContext) : list (Token * Token) :=
  (ipc_GetStart path, ipc_GetStop path)
    :: map (fun identifierCtx => (idc_GetStart identifierCtx, idc_GetStop identifierCtx))
         (ipc_AllIdentifier path).

Definition mkc_productions (key : MappingKeyTypeContext) : list (Token * Token) :=
  (mkc_GetStart key, mkc_GetStop key)
    :: match mkc_IdentifierPath key with
       | Some path => ipc_productions path
       | None => []
       end.

Fixpoint tnc_productions (c : TypeNameContext) : list (Token * Token) :=
  match c with
  | mkTypeNameContext _ start stop children =>
      (start, stop)
        :: (fix children_productions (l : list TypeNameChild) : list (Token * Token) :=
              match l with
              | [] => []
              | child :: rest =>
                  (child_productions child ++ children_productions rest)%list
              end) children
  end
with child_productions (child : TypeNameChild) : list (Token * Token) :=
  match child with
  | ChildMappingType m => mtc_productions m
  | ChildTypeName c => tnc_productions c
  | ChildIdentifierPath path => ipc_productions path
  | _ => []
  end
with mtc_productions (m : MappingTypeContext) : list (Token * Token) :=
  match m with
  | mkMappingTypeContext _ start stop key value =>
      (start, stop) :: (mkc_productions key ++ tnc_productions value)%list
  end.

Definition GenerateCtx_productions (ctx : GenerateCtx) : list (Token * Token) :=
  match ctx with
  | CtxMappingKeyType key => mkc_productions key
  | CtxMappingType m => mtc_productions m
  | CtxTypeName c => tnc_productions c
  end.

(** The span was read off the start and stop tokens of one of the
    productions. *)
Definition span_from (productions : list (Token * Token)) (src : SrcNode) : Prop :=
  exists start stop, In (start, stop) productions /\ span_of start stop src.

(** The spans a type name tree carries: of the node, of its key and value
    types at every depth, and of its path node. *)
Fixpoint tn_spans (t : TypeName) : list SrcNode :=
  match t with
  | mkTypeName _ _ src _ _ keyType valueType pathNode _ _ =>
      src :: (match keyType with Some k => tn_spans k | None => [] end
              ++ match valueType with Some v => tn_spans v | None => [] end
              ++ match pathNode with Some pn => [pn_Src pn] | None => [] end)%list
  end.

Definition spans_from (productions : list (Token * Token)) (t : TypeName) : Prop :=
  Forall (span_from productions) (tn_spans t).

Definition ref_spans_from (productions : list (Token * Token)) (r : TypeNameRef)
  : Prop :=
  match r with
  | RefReceiver => True
  | RefLocal n => spans_from productions n
  end.

(** A call on a context of the parse tree keeps the spans of the receiver
    and of the node [typeNameNode] points at among those read from the
    parse tree, and the node it returns has such a span unless the context
    is a mapping (that node has no span, and every caller drops it). *)
Definition generate_reads_spans (productions : list (Token * Token))
    (generate :
       TypeName -> GenerateCtx -> TypeNameRef ->
       Build (TypeName * TypeName * TypeNameRef)) : Prop :=
  forall t ctx r s res t' r' s',
    generate t ctx r s = Returns ((res, t', r'), s') ->
    incl (GenerateCtx_productions ctx) productions ->
    spans_from productions t -> ref_spans_from productions r ->
    spans_from productions t' /\ ref_spans_from productions r'
    /\ match ctx with
       | CtxMappingType _ => True
       | _ => spans_from productions res
       end.


(** ** Proofs *)

(** [tauto] without the functions of the context, which it would take for
    implications. *)
Ltac logic :=
  try clear delegate; try clear float_to_int_overflow;
  try clear normalizeTypeDescription; tauto.

(** *** The builder monad *)

Lemma bind_Returns {A B : Type} (m : Build A) (k : A -> Build B) (s : Z)
    (r : B * Z) :
  bind m k s = Returns r ->
  exists a s', m s = Returns (a, s') /\ k a s' = Returns r.
Proof.
  unfold bind. destruct (m s) as [[a s'] | | |]; try discriminate.
  intros H. exists a, s'. split; [reflexivity | exact H].
Qed.

Lemma bind_eq_Returns {A B : Type} (m : Build A) (k : A -> Build B) (s s' : Z)
    (a : A) :
  m s = Returns (a, s') -> bind m k s = k a s'.
Proof. unfold bind. intros ->. reflexivity. Qed.

Lemma bind_not_OutOfFuel {A B : Type} (m : Build A) (k : A -> Build B) (s : Z) :
  m s <> OutOfFuel ->
  (forall a s', m s = Returns (a, s') -> k a s' <> OutOfFuel) ->
  bind m k s <> OutOfFuel.
Proof.
  unfold bind. intros Hm Hk.
  destruct (m s) as [[a s'] | | |]; try discriminate.
  - apply Hk. reflexivity.
  - contradiction.
Qed.

Lemma ret_Returns {A : Type} (a : A) (s : Z) (r : A * Z) :
  ret a s = Returns r -> r = (a, s).
Proof. unfold ret. congruence. Qed.

Lemma deref_Returns {A : Type} (o : option A) (s : Z) (a : A) (s' : Z) :
  deref o s = Returns (a, s') -> o = Some a /\ s' = s.
Proof.
  destruct o; simpl; unfold ret, runtime_panic; intros H; inversion H; auto.
Qed.

(** Splits the first [bind] of a computation that returned. *)
Ltac bind_inv H :=
  let a := fresh "a" in
  let s := fresh "s" in
  let Hm := fresh "Hm" in
  apply bind_Returns in H; destruct H as (a & s & Hm & H).

Ltac ret_inv H := apply ret_Returns in H; inversion H; subst; clear H.


(** *** Spans of the nodes of a type name *)

Lemma spans_ok_unfold (t : TypeName) :
  spans_ok t <->
  span_ok (tn_Src t)
  /\ match tn_KeyType t with Some k => spans_ok k | None => True end
  /\ match tn_ValueType t with Some v => spans_ok v | None => True end
  /\ path_span_ok (tn_PathNode t).
Proof. destruct t; simpl; logic. Qed.

Lemma span_ok_tokens (id line column parent : Z) (start stop : Token) :
  span_ok {| src_Id := id; src_Line := line; src_Column := column;
             src_Start := tok_Start start; src_End := tok_Stop stop;
             src_Length := Int64.add (Int64.sub (tok_Stop stop) (tok_Start start)) 1;
             src_ParentIndex := parent |}.
Proof. reflexivity. Qed.

Lemma store_spans (r r' : TypeNameRef) (t t' : TypeName)
    (f : TypeName -> TypeName) :
  store r t f = (t', r') ->
  (forall x, spans_ok x -> spans_ok (f x)) ->
  spans_ok t -> ref_spans_ok r ->
  spans_ok t' /\ ref_spans_ok r'.
Proof.
  intros H Hf Ht Hr. destruct r; simpl in H; inversion H; subst; simpl; auto.
Qed.

Lemma load_spans (r : TypeNameRef) (t : TypeName) :
  spans_ok t -> ref_spans_ok r -> spans_ok (load r t).
Proof. destruct r; simpl; auto. Qed.

(** The setters that leave the spans alone. *)
Lemma spans_set_NodeType v t : spans_ok t -> spans_ok (set_tn_NodeType v t).
Proof. destruct t; simpl; logic. Qed.
Lemma spans_set_Name v t : spans_ok t -> spans_ok (set_tn_Name v t).
Proof. destruct t; simpl; logic. Qed.
Lemma spans_set_Id v t : spans_ok t -> spans_ok (set_tn_Id v t).
Proof. destruct t; simpl; logic. Qed.
Lemma spans_set_TypeDescription v t :
  spans_ok t -> spans_ok (set_tn_TypeDescription v t).
Proof. destruct t; simpl; logic. Qed.
Lemma spans_set_ReferencedDeclaration v t :
  spans_ok t -> spans_ok (set_tn_ReferencedDeclaration v t).
Proof. destruct t; simpl; logic. Qed.
Lemma spans_set_StateMutability v t :
  spans_ok t -> spans_ok (set_tn_StateMutability v t).
Proof. destruct t; simpl; logic. Qed.
Lemma spans_set_Src v t : span_ok v -> spans_ok t -> spans_ok (set_tn_Src v t).
Proof. destruct t; simpl; logic. Qed.
Lemma spans_set_KeyType k t :
  spans_ok k -> spans_ok t -> spans_ok (set_tn_KeyType (Some k) t).
Proof. destruct t; simpl; logic. Qed.
Lemma spans_set_ValueType v t :
  spans_ok v -> spans_ok t -> spans_ok (set_tn_ValueType (Some v) t).
Proof. destruct t; simpl; logic. Qed.
Lemma spans_set_PathNode o t :
  path_span_ok o -> spans_ok t -> spans_ok (set_tn_PathNode o t).
Proof. destruct t; simpl; logic. Qed.

Lemma spans_path_of (t : TypeName) :
  spans_ok t -> path_span_ok (tn_PathNode t).
Proof. destruct t; simpl; logic. Qed.

Create HintDb spans discriminated.
#[local] Hint Resolve spans_set_NodeType spans_set_Name spans_set_Id
  spans_set_TypeDescription spans_set_ReferencedDeclaration
  spans_set_StateMutability spans_set_Src spans_set_KeyType
  spans_set_ValueType spans_set_PathNode span_ok_tokens load_spans : spans.


Lemma resolved_path_spans (t : TypeName) (refId : Z) :
  spans_ok t ->
  spans_ok
    match tn_PathNode t with
    | Some pathNode =>
        set_tn_PathNode (Some (set_pn_ReferencedDeclaration refId pathNode)) t
    | None => t
    end.
Proof.
  intros Ht. destruct (tn_PathNode t) as [pn|] eqn:E; [|exact Ht].
  apply spans_set_PathNode; [|exact Ht].
  apply spans_path_of in Ht. rewrite E in Ht. exact Ht.
Qed.

Lemma parseTypeName_with_spans generate t parentNodeId ctx s t' s' :
  generate_keeps_spans generate ->
  parseTypeName_with generate t parentNodeId ctx s = Returns (t', s') ->
  spans_ok t -> spans_ok t'.
Proof.
  intros Hgen H Ht. unfold parseTypeName_with in H.
  bind_inv H.
  destruct (tnc_ElementaryTypeName ctx) as [e|].
  { destruct (normalizeTypeDescription (etn_GetText e)) as [n i].
    ret_inv H. auto 6 with spans. }
  destruct (tnc_MappingType ctx) as [m|].
  { bind_inv H. destruct a0 as [[res t1] r1]. ret_inv H.
    assert (Hmap : spans_ok
              (set_tn_NodeType NodeType_MAPPING_TYPE_NAME
                 (set_tn_Src
                    {| src_Id := a; src_Line := tok_Line (tnc_GetStart ctx);
                       src_Column := tok_Column (tnc_GetStart ctx);
                       src_Start := tok_Start (tnc_GetStart ctx);
                       src_End := tok_Stop (tnc_GetStop ctx);
                       src_Length :=
                         Int64.add (Int64.sub (tok_Stop (tnc_GetStop ctx))
                                              (tok_Start (tnc_GetStart ctx))) 1;
                       src_ParentIndex := parentNodeId |}
                    (set_tn_Name (tnc_GetText ctx) t))))
      by auto 6 with spans.
    exact (proj1 (Hgen _ _ _ _ _ _ _ _ Hm0 Hmap I)). }
  destruct (tnc_FunctionTypeName ctx) as [f|]; [discriminate|].
  bind_inv H.
  assert (Ha0 : spans_ok a0).
  { destruct (tnc_IdentifierPath ctx) as [path|].
    - bind_inv Hm0. bind_inv Hm0. ret_inv Hm0.
      apply spans_set_PathNode; [reflexivity | auto 6 with spans].
    - ret_inv Hm0. auto 6 with spans. }
  bind_inv H.
  destruct (ResolveByNode (SubjectTypeName a0) (ipc_GetText a1)) as [[refId refTd]|].
  - ret_inv H. auto using resolved_path_spans with spans.
  - ret_inv H. exact Ha0.
Qed.

Lemma generateTypeName_spans (fuel : nat) :
  generate_keeps_spans (generateTypeName fuel).
Proof.
  induction fuel as [|fuel IH]; intros t ctx r s res t' r' s' H Ht Hr.
  { discriminate. }
  simpl in H. bind_inv H. bind_inv H.
  destruct a0 as [[typeName t1] r1].
  assert (Hbody : spans_ok t1 /\ ref_spans_ok r1
                  /\ match ctx with CtxMappingType _ => True | _ => spans_ok typeName end).
  { clear H. destruct ctx as [keyCtx | mapCtx | tnCtx].
    - bind_inv Hm0.
      destruct (mkc_ElementaryTypeName keyCtx) as [e|].
      + destruct (normalizeTypeDescription (etn_GetText e)) as [n i].
        ret_inv Hm0. repeat split; auto.
      + ret_inv Hm0. repeat split; auto.
    - destruct (store r t (set_tn_NodeType NodeType_MAPPING_TYPE_NAME))
        as [t2 r2] eqn:E2.
      pose proof (store_spans _ _ _ _ _ E2
                    (spans_set_NodeType _) Ht Hr) as [Ht2 Hr2].
      bind_inv Hm0. destruct a0 as [[keyType t3] r3].
      destruct (IH _ _ _ _ _ _ _ _ Hm1 Ht2 Hr2) as (Ht3 & Hr3 & Hkey).
      destruct (store r3 t3 (set_tn_KeyType (Some keyType))) as [t4 r4] eqn:E4.
      pose proof (store_spans _ _ _ _ _ E4
                    (fun x => spans_set_KeyType _ x Hkey) Ht3 Hr3) as [Ht4 Hr4].
      bind_inv Hm0. destruct a0 as [[valueType t5] r5].
      destruct (IH _ _ _ _ _ _ _ _ Hm2 Ht4 Hr4) as (Ht5 & Hr5 & Hvalue).
      destruct (store r5 t5 (set_tn_ValueType (Some valueType))) as [t6 r6] eqn:E6.
      pose proof (store_spans _ _ _ _ _ E6
                    (fun x => spans_set_ValueType _ x Hvalue) Ht5 Hr5) as [Ht6 Hr6].
      bind_inv Hm0.
      destruct (store r6 t6 (set_tn_TypeDescription (Some a0))) as [t7 r7] eqn:E7.
      pose proof (store_spans _ _ _ _ _ E7
                    (spans_set_TypeDescription _) Ht6 Hr6) as [Ht7 Hr7].
      ret_inv Hm0. auto.
    - bind_inv Hm0.
      destruct (tnc_ElementaryTypeName tnCtx) as [e|].
      { destruct (normalizeTypeDescription (etn_GetText e)) as [n i].
        ret_inv Hm0. repeat split; auto. }
      destruct (tnc_MappingType tnCtx) as [m|].
      { bind_inv Hm0. destruct a1 as [[res1 t2] local]. ret_inv Hm0.
        match type of Hm2 with
        | generateTypeName _ _ _ (RefLocal ?n) _ = _ =>
            assert (Hn : spans_ok n) by (simpl; repeat split; auto)
        end.
        destruct (IH _ _ _ _ _ _ _ _ Hm2 Ht Hn) as (Ht2 & Hlocal & _).
        repeat split; auto. destruct local; simpl; auto. }
      destruct (tnc_FunctionTypeName tnCtx) as [f|]; [discriminate|].
      bind_inv Hm0. ret_inv Hm0.
      apply (parseTypeName_with_spans _ _ _ _ _ _ _ IH) in Hm2; auto.
      repeat split; auto. }
  destruct Hbody as (Ht1 & Hr1 & Hres).
  destruct (tn_TypeDescription typeName).
  { ret_inv H. auto. }
  destruct (ResolveByNode (SubjectTypeName typeName) (tn_Name typeName))
    as [[refId refTd]|]; ret_inv H; repeat split; auto.
  destruct ctx; auto with spans.
Qed.


(** *** [PrimaryExpression.Parse], block by block *)

Lemma bind_assoc {A B C : Type} (m : Build A) (k1 : A -> Build B)
    (k2 : B -> Build C) (s : Z) :
  bind (bind m k1) k2 s = bind m (fun a => bind (k1 a) k2) s.
Proof. unfold bind. destruct (m s) as [[a s'] | | |]; reflexivity. Qed.

Lemma bind_ext {A B : Type} (m : Build A) (k1 k2 : A -> Build B) (s : Z) :
  (forall a s', k1 a s' = k2 a s') -> bind m k1 s = bind m k2 s.
Proof. unfold bind. intros H. destruct (m s) as [[a s'] | | |]; auto. Qed.

Lemma bind_congr {A B : Type} (m1 m2 : Build A) (k : A -> Build B) (s : Z) :
  m1 s = m2 s -> bind m1 k s = bind m2 k s.
Proof. unfold bind. intros ->. reflexivity. Qed.

Lemma Parse_blocks p unit fnNode bodyNode vDeclar expNode ctx s :
  PrimaryExpression_Parse p unit fnNode bodyNode vDeclar expNode ctx s =
  (p1 <- Parse_head p unit bodyNode vDeclar expNode ctx ;;
   p2 <- Parse_identifier fnNode bodyNode ctx p1 ;;
   Parse_tail expNode ctx p2) s.
Proof.
  unfold PrimaryExpression_Parse, Parse_head.
  rewrite bind_assoc. apply bind_ext. intros srcId s1.
  rewrite bind_assoc. apply bind_ext. intros parentIndex s2.
  change (bind (ret ?a) ?k s2) with (k a s2). cbv beta.
  apply bind_congr.
  unfold Parse_identifier.
  destruct (pec_Identifier ctx) as [identifier|]; [|reflexivity].
  unfold Parse_scopes. rewrite bind_assoc. apply bind_ext. intros p1 s3.
  apply bind_ext. intros p2 s4.
  unfold Parse_resolver.
  destruct (pe_TypeDescription p2); [reflexivity|].
  destruct (ResolveByNode (SubjectPrimaryExpression p2) (pe_Name p2))
    as [[refId refTd]|]; reflexivity.
Qed.


Lemma mapping_TypeDescription_state node s d s' :
  mapping_TypeDescription node s = Returns (d, s') -> s' = s.
Proof.
  unfold mapping_TypeDescription. intros H.
  bind_inv H. apply deref_Returns in Hm as [_ ->].
  bind_inv H. apply deref_Returns in Hm as [_ ->].
  bind_inv H. apply deref_Returns in Hm as [_ ->].
  bind_inv H. apply deref_Returns in Hm as [_ ->].
  ret_inv H. reflexivity.
Qed.

Lemma parseElementaryTypeName_spans t parentNodeId ctx s t' s' :
  parseElementaryTypeName t parentNodeId ctx s = Returns (t', s') ->
  spans_ok t -> spans_ok t'.
Proof.
  unfold parseElementaryTypeName. intros H Ht.
  destruct (normalizeTypeDescription (etn_GetText ctx)) as [n i].
  ret_inv H.
  destruct (String.eqb i "t_address"); [auto 6 with spans|].
  destruct (String.eqb i "t_address_payable"); auto 6 with spans.
Qed.

Lemma parseIdentifierPath_spans t parentNodeId ctx s t' s' :
  parseIdentifierPath t parentNodeId ctx s = Returns (t', s') ->
  spans_ok t -> spans_ok t'.
Proof.
  unfold parseIdentifierPath. intros H Ht.
  destruct (ipc_AllIdentifier ctx) as [|identifierCtx rest].
  { ret_inv H. auto with spans. }
  bind_inv H. bind_inv H.
  match type of H with
  | context [SubjectTypeName ?x] => assert (Hx : spans_ok x)
  end.
  { apply spans_set_PathNode; [reflexivity | auto with spans]. }
  destruct (ResolveByNode _ _) as [[refId refTd]|]; ret_inv H.
  - auto using resolved_path_spans with spans.
  - exact Hx.
Qed.

Lemma parseMappingTypeName_spans fuel t parentNodeId ctx s t' s' :
  parseMappingTypeName fuel t parentNodeId ctx s = Returns (t', s') ->
  spans_ok t -> spans_ok t'.
Proof.
  unfold parseMappingTypeName. intros H Ht.
  bind_inv H. destruct a as [[keyType t1] r1].
  destruct (generateTypeName_spans _ _ _ _ _ _ _ _ _ Hm Ht I) as (Ht1 & _ & Hkey).
  bind_inv H. destruct a as [[valueType t2] r2].
  destruct (generateTypeName_spans _ _ _ _ _ _ _ _ _ Hm0
              (spans_set_KeyType _ _ Hkey Ht1) I) as (Ht2 & _ & Hvalue).
  bind_inv H. ret_inv H. auto with spans.
Qed.

Lemma parseTypeName_spans fuel t parentNodeId ctx s t' s' :
  parseTypeName fuel t parentNodeId ctx s = Returns (t', s') ->
  spans_ok t -> spans_ok t'.
Proof.
  unfold parseTypeName. intros H.
  exact (parseTypeName_with_spans _ _ _ _ _ _ _ (generateTypeName_spans fuel) H).
Qed.

Lemma Parse_children_spans fuel parentNodeId children :
  forall t s t' s',
    Parse_children fuel t parentNodeId children s = Returns (t', s') ->
    spans_ok t -> spans_ok t'.
Proof.
  induction children as [|child rest IH]; intros t s t' s' H Ht; simpl in H.
  { ret_inv H. exact Ht. }
  bind_inv H. apply (IH _ _ _ _ H). clear H IH.
  destruct child; try discriminate.
  - eauto using parseElementaryTypeName_spans.
  - eauto using parseMappingTypeName_spans.
  - eauto using parseIdentifierPath_spans.
  - eauto using parseTypeName_spans.
  - ret_inv Hm. exact Ht.
Qed.

Lemma TypeName_Parse_spans fuel parentNodeId ctx s t' s' :
  TypeName_Parse fuel NewTypeName parentNodeId ctx s = Returns (t', s') ->
  spans_ok t'.
Proof.
  unfold TypeName_Parse. intros H. bind_inv H. bind_inv H.
  apply (Parse_children_spans _ _ _ _ _ _ _ H).
  simpl. repeat split; auto.
Qed.

(** *** What the blocks of [PrimaryExpression.Parse] leave alone *)


Lemma same_node_refl p : same_node p p.
Proof. unfold same_node. logic. Qed.

Lemma same_node_trans p q r : same_node p q -> same_node q r -> same_node p r.
Proof. unfold same_node. intuition congruence. Qed.

Lemma same_node_resolution p td ref :
  same_node p (set_pe_ReferencedDeclaration ref (set_pe_TypeDescription td p)).
Proof. unfold same_node. simpl. logic. Qed.

Lemma match_parameters_same parameters p :
  same_node p (match_parameters parameters p).
Proof.
  induction parameters as [|param rest IH]; simpl.
  - apply same_node_refl.
  - destruct (String.eqb (par_GetName param) (pe_Name p)); [|exact IH].
    destruct (par_GetTypeName param); [|apply same_node_refl].
    apply same_node_resolution.
Qed.

Lemma match_declarations_same vDeclar declarations p s q s' :
  match_declarations vDeclar declarations p s = Returns (q, s') ->
  same_node p q /\ s' = s.
Proof.
  induction declarations as [|declaration rest IH]; simpl; intros H.
  - ret_inv H. split; [apply same_node_refl | reflexivity].
  - destruct (String.eqb (decl_GetName declaration) (pe_Name p)); [|auto].
    bind_inv H. apply deref_Returns in Hm as [_ ->]. ret_inv H.
    split; [apply same_node_resolution | reflexivity].
Qed.

Lemma match_statements_same statements :
  forall p s q s',
    match_statements statements p s = Returns (q, s') ->
    same_node p q /\ s' = s.
Proof.
  induction statements as [|statement rest IH]; simpl; intros p s q s' H.
  - ret_inv H. split; [apply same_node_refl | reflexivity].
  - bind_inv H. apply IH in H as [Hq ->].
    destruct statement as [v | id].
    + apply match_declarations_same in Hm as [Ha ->].
      split; [eapply same_node_trans; eassumption | reflexivity].
    + ret_inv Hm. auto.
Qed.

Lemma Parse_scopes_same fnNode bodyNode p s q s' :
  Parse_scopes fnNode bodyNode p s = Returns (q, s') ->
  same_node p q /\ s' = s.
Proof.
  unfold Parse_scopes. intros H. bind_inv H.
  assert (Ha : same_node p a /\ s0 = s).
  { destruct fnNode as [[parameterList | [parameters|] | nodeType]|].
    - bind_inv Hm. apply deref_Returns in Hm0 as [_ ->]. ret_inv Hm.
      split; [apply match_parameters_same | reflexivity].
    - ret_inv Hm. split; [apply match_parameters_same | reflexivity].
    - ret_inv Hm. split; [apply same_node_refl | reflexivity].
    - ret_inv Hm. split; [apply same_node_refl | reflexivity].
    - ret_inv Hm. split; [apply same_node_refl | reflexivity]. }
  destruct Ha as [Ha ->].
  destruct bodyNode as [body|].
  - apply match_statements_same in H as [Hq ->].
    split; [eapply same_node_trans; eassumption | reflexivity].
  - ret_inv H. auto.
Qed.

Lemma Parse_resolver_same p : same_node p (Parse_resolver p).
Proof.
  unfold Parse_resolver. destruct (pe_TypeDescription p); [apply same_node_refl|].
  destruct (ResolveByNode _ _) as [[refId refTd]|]; [|apply same_node_refl].
  unfold same_node. simpl. logic.
Qed.

Lemma Parse_identifier_Src fnNode bodyNode ctx p s q s' :
  Parse_identifier fnNode bodyNode ctx p s = Returns (q, s') ->
  pe_Src q = pe_Src p.
Proof.
  unfold Parse_identifier. intros H.
  destruct (pec_Identifier ctx) as [identifier|].
  - bind_inv H. ret_inv H. apply Parse_scopes_same in Hm as [Ha _].
    pose proof (Parse_resolver_same a) as Hb.
    destruct (same_node_trans _ _ _ Ha Hb) as (_ & _ & _ & _ & _ & Hsrc & _).
    exact Hsrc.
  - ret_inv H. reflexivity.
Qed.

Lemma Parse_number_Src text p s q s' :
  Parse_number text p s = Returns (q, s') -> pe_Src q = pe_Src p.
Proof.
  unfold Parse_number. intros H.
  destruct (strings_Contains _ _).
  - bind_inv H. bind_inv H. destruct (strconv_Atoi _) as [n e]. ret_inv H.
    reflexivity.
  - destruct (strconv_Atoi _) as [n e]. ret_inv H. reflexivity.
Qed.

Lemma Parse_tail_Src expNode ctx p s q s' :
  Parse_tail expNode ctx p s = Returns (q, s') -> pe_Src q = pe_Src p.
Proof.
  unfold Parse_tail. intros H.
  destruct (String.eqb (pe_Name p) "_"). { ret_inv H. reflexivity. }
  destruct (pec_Literal ctx) as [literalCtx|]; [|ret_inv H; reflexivity].
  unfold Parse_literal in H.
  destruct (lit_BooleanLiteral literalCtx).
  { ret_inv H. simpl.
    destruct (String.eqb _ "true" || String.eqb _ "false"); reflexivity. }
  destruct (lit_StringLiteral literalCtx). { ret_inv H. reflexivity. }
  destruct (lit_NumberLiteral literalCtx).
  { apply Parse_number_Src in H. exact H. }
  destruct (lit_HexStringLiteral literalCtx). { discriminate. }
  bind_inv H.
  destruct (String.eqb (TypeString a) "").
  - destruct expNode; ret_inv H;
      destruct (String.eqb (pec_GetText ctx) "msg"); reflexivity.
  - ret_inv H. destruct (String.eqb (pec_GetText ctx) "msg"); reflexivity.
Qed.

Lemma head_node_Src p unit expNode ctx srcId parentIndex :
  pe_Src (head_node p unit expNode ctx srcId parentIndex) =
  {| src_Id := srcId;
     src_Line := tok_Line (pec_GetStart ctx);
     src_Column := tok_Column (pec_GetStart ctx);
     src_Start := tok_Start (pec_GetStart ctx);
     src_End := tok_Stop (pec_GetStop ctx);
     src_Length :=
       Int64.add (Int64.sub (tok_Stop (pec_GetStop ctx)) (tok_Start (pec_GetStart ctx))) 1;
     src_ParentIndex := parentIndex |}.
Proof.
  unfold head_node.
  destruct (String.eqb (pec_GetText ctx) "msg");
    destruct (String.eqb (pec_GetText ctx) "block");
    destruct (String.eqb (pec_GetText ctx) "this");
    destruct expNode as [[id td arguments | id td]|]; reflexivity.
Qed.

Lemma PrimaryExpression_Parse_Src p unit fnNode bodyNode vDeclar expNode ctx s p' s' :
  PrimaryExpression_Parse p unit fnNode bodyNode vDeclar expNode ctx s
    = Returns (p', s') ->
  span_of (pec_GetStart ctx) (pec_GetStop ctx) (pe_Src p').
Proof.
  rewrite Parse_blocks. intros H.
  bind_inv H. bind_inv H.
  apply Parse_tail_Src in H. apply Parse_identifier_Src in Hm0.
  unfold Parse_head in Hm. bind_inv Hm. bind_inv Hm. ret_inv Hm.
  rewrite H, Hm0, head_node_Src. repeat split.
Qed.



(** *** Enough fuel: the bound on the recursion is never met *)

Lemma tnc_depth_children text start stop children :
  tnc_depth (mkTypeNameContext text start stop children)
  = S (children_depth children).
Proof.
  simpl; f_equal; induction children as [|child rest IH]; simpl; congruence.
Qed.

Lemma first_child_depth {A : Type} (select : TypeNameChild -> option A)
    (depth : A -> nat) (children : list TypeNameChild) (a : A) :
  (forall child x, select child = Some x -> depth x = child_depth child) ->
  first_child select children = Some a ->
  (depth a <= children_depth children)%nat.
Proof.
  intros Hsel. induction children as [|child rest IH]; simpl; [discriminate|].
  destruct (select child) as [x|] eqn:E.
  - intros H. inversion H; subst. rewrite (Hsel _ _ E). lia.
  - intros H. apply IH in H. lia.
Qed.

Lemma tnc_MappingType_depth ctx m :
  tnc_MappingType ctx = Some m -> (mtc_depth m < tnc_depth ctx)%nat.
Proof.
  destruct ctx as [text start stop children]. unfold tnc_MappingType.
  rewrite tnc_depth_children. simpl tnc_GetChildren. intros H.
  apply (first_child_depth _ mtc_depth) in H; [lia|].
  intros child x Hx. destruct child; inversion Hx; subst. reflexivity.
Qed.

Lemma child_depth_le child children :
  In child children -> (child_depth child <= children_depth children)%nat.
Proof.
  induction children as [|c rest IH]; simpl; [logic|].
  intros [-> | H]; [lia | apply IH in H; lia].
Qed.

Lemma GetNextID_not_OutOfFuel s : GetNextID s <> OutOfFuel.
Proof. discriminate. Qed.

Lemma ret_not_OutOfFuel {A : Type} (a : A) s : ret a s <> OutOfFuel.
Proof. discriminate. Qed.

Lemma deref_not_OutOfFuel {A : Type} (o : option A) s : deref o s <> OutOfFuel.
Proof. destruct o; discriminate. Qed.

Lemma mapping_TypeDescription_not_OutOfFuel node s :
  mapping_TypeDescription node s <> OutOfFuel.
Proof.
  unfold mapping_TypeDescription.
  repeat (apply bind_not_OutOfFuel; [apply deref_not_OutOfFuel | intros]).
  discriminate.
Qed.

#[local] Hint Resolve GetNextID_not_OutOfFuel ret_not_OutOfFuel
  deref_not_OutOfFuel mapping_TypeDescription_not_OutOfFuel : spans.

Lemma parseTypeName_with_fuel generate t parentNodeId ctx s :
  (forall m t r s, tnc_MappingType ctx = Some m ->
                   generate t (CtxMappingType m) r s <> OutOfFuel) ->
  parseTypeName_with generate t parentNodeId ctx s <> OutOfFuel.
Proof.
  intros Hgen. unfold parseTypeName_with.
  apply bind_not_OutOfFuel; [auto with spans | intros srcId s1 _].
  destruct (tnc_ElementaryTypeName ctx) as [e|].
  { destruct (normalizeTypeDescription _). discriminate. }
  destruct (tnc_MappingType ctx) as [m|].
  { apply bind_not_OutOfFuel; [apply Hgen; reflexivity | intros [[? ?] ?] ? _].
    discriminate. }
  destruct (tnc_FunctionTypeName ctx); [discriminate|].
  apply bind_not_OutOfFuel.
  { destruct (tnc_IdentifierPath ctx); [|discriminate].
    repeat (apply bind_not_OutOfFuel; [auto with spans | intros]).
    discriminate. }
  intros t1 s2 _.
  apply bind_not_OutOfFuel; [auto with spans | intros path s3 _].
  destruct (ResolveByNode _ _) as [[? ?]|]; discriminate.
Qed.

Lemma generateTypeName_fuel (fuel : nat) :
  forall t ctx r s,
    (GenerateCtx_depth ctx <= fuel)%nat ->
    generateTypeName fuel t ctx r s <> OutOfFuel.
Proof.
  induction fuel as [|fuel IH]; intros t ctx r s Hfuel.
  { destruct ctx as [k | [? ? ? ? ?] | [? ? ? ?]]; simpl in Hfuel; lia. }
  simpl.
  apply bind_not_OutOfFuel; [auto with spans | intros id s1 _].
  apply bind_not_OutOfFuel.
  - destruct ctx as [keyCtx | mapCtx | tnCtx].
    + apply bind_not_OutOfFuel; [auto with spans | intros srcId s2 _].
      destruct (mkc_ElementaryTypeName keyCtx); [|discriminate].
      destruct (normalizeTypeDescription _). discriminate.
    + destruct mapCtx as [text start stop key value].
      simpl in Hfuel. simpl mtc_GetKey. simpl mtc_GetValue.
      assert (Hvalue : (1 <= tnc_depth value)%nat)
        by (destruct value; simpl; lia).
      destruct (store r t _) as [? ?].
      apply bind_not_OutOfFuel; [apply IH; simpl; lia | intros [[? ?] ?] ? _].
      destruct (store _ _ _) as [? ?].
      apply bind_not_OutOfFuel; [apply IH; simpl; lia | intros [[? ?] ?] ? _].
      destruct (store _ _ _) as [? ?].
      apply bind_not_OutOfFuel; [auto with spans | intros d ? _].
      destruct (store _ _ _) as [? ?]. discriminate.
    + apply bind_not_OutOfFuel; [auto with spans | intros srcId s2 _].
      destruct (tnc_ElementaryTypeName tnCtx).
      { destruct (normalizeTypeDescription _). discriminate. }
      destruct (tnc_MappingType tnCtx) as [m|] eqn:Em.
      { apply tnc_MappingType_depth in Em. simpl in Hfuel.
        apply bind_not_OutOfFuel; [apply IH; simpl; lia | intros [[? ?] ?] ? _].
        discriminate. }
      destruct (tnc_FunctionTypeName tnCtx); [discriminate|].
      apply bind_not_OutOfFuel; [|discriminate].
      apply parseTypeName_with_fuel. intros m ? ? ? Hm. congruence.
  - intros [[typeName t1] r1] s2 _.
    destruct (tn_TypeDescription typeName); [discriminate|].
    destruct (ResolveByNode _ _) as [[? ?]|]; discriminate.
Qed.

Lemma Parse_children_fuel fuel parentNodeId children :
  (children_depth children <= fuel)%nat ->
  forall t s, Parse_children fuel t parentNodeId children s <> OutOfFuel.
Proof.
  induction children as [|child rest IH]; intros Hfuel t s; simpl.
  { discriminate. }
  assert (Hc : (child_depth child <= fuel)%nat /\ (children_depth rest <= fuel)%nat).
  { change (children_depth (child :: rest))
      with (Nat.max (child_depth child) (children_depth rest)) in Hfuel. lia. }
  destruct Hc as [Hc Hrest]. clear Hfuel.
  apply bind_not_OutOfFuel; [|intros; apply IH; exact Hrest].
  destruct child as [e | m | f | path | c | text | goType]; try discriminate.
  - unfold parseElementaryTypeName.
    destruct (normalizeTypeDescription _). discriminate.
  - destruct m as [text start stop key value]. simpl in Hc.
    unfold parseMappingTypeName. simpl mtc_GetKey. simpl mtc_GetValue.
    assert (Hvalue : (1 <= tnc_depth value)%nat)
      by (destruct value; simpl; lia).
    apply bind_not_OutOfFuel;
      [apply generateTypeName_fuel; simpl; lia | intros [[? ?] ?] ? _].
    apply bind_not_OutOfFuel;
      [apply generateTypeName_fuel; simpl; lia | intros [[? ?] ?] ? _].
    apply bind_not_OutOfFuel; [auto with spans | discriminate].
  - unfold parseIdentifierPath.
    destruct (ipc_AllIdentifier path); [discriminate|].
    repeat (apply bind_not_OutOfFuel; [auto with spans | intros]).
    destruct (ResolveByNode _ _) as [[? ?]|]; discriminate.
  - unfold parseTypeName. apply parseTypeName_with_fuel.
    intros m ? ? ? Hm. apply generateTypeName_fuel.
    apply tnc_MappingType_depth in Hm. simpl in Hc. simpl. lia.
Qed.

(** With fuel up to the depth of the parse tree, [TypeName.Parse] returns
    or panics as the Go code does: the bound of the model is not met. *)
Lemma TypeName_Parse_fuel fuel t parentNodeId ctx s :
  (tnc_depth ctx <= fuel)%nat ->
  TypeName_Parse fuel t parentNodeId ctx s <> OutOfFuel.
Proof.
  intros Hfuel. unfold TypeName_Parse.
  apply bind_not_OutOfFuel; [auto with spans | intros id s1 _].
  apply bind_not_OutOfFuel; [auto with spans | intros srcId s2 _].
  apply Parse_children_fuel.
  destruct ctx as [text start stop children].
  rewrite tnc_depth_children in Hfuel. simpl. lia.
Qed.


(** *** Mapping type descriptions *)

Lemma mapping_TypeDescription_Returns node s d s' :
  mapping_TypeDescription node s = Returns (d, s') ->
  mapping_described (set_tn_TypeDescription (Some d) node).
Proof.
  unfold mapping_TypeDescription. intros H.
  bind_inv H. apply deref_Returns in Hm as [Hk _].
  bind_inv H. apply deref_Returns in Hm as [Hv _].
  bind_inv H. apply deref_Returns in Hm as [Hkd _].
  bind_inv H. apply deref_Returns in Hm as [Hvd _].
  ret_inv H. exists a, a0, a1, a2.
  destruct node; simpl in *. repeat split; assumption.
Qed.

Lemma load_store r t f t' r' :
  store r t f = (t', r') -> load r' t' = f (load r t).
Proof. destruct r; simpl; intros H; inversion H; reflexivity. Qed.

Lemma generateTypeName_mapping_described fuel t m r s res t' r' s' :
  generateTypeName fuel t (CtxMappingType m) r s = Returns ((res, t', r'), s') ->
  mapping_described (load r' t').
Proof.
  destruct fuel as [|fuel]; [discriminate|].
  simpl. intros H. bind_inv H. bind_inv H.
  destruct a0 as [[typeName t1] r1].
  assert (Hbody : mapping_described (load r1 t1)).
  { clear H.
    destruct (store r t _) as [t2 r2].
    bind_inv Hm0. destruct a0 as [[keyType t3] r3].
    destruct (store r3 t3 _) as [t4 r4].
    bind_inv Hm0. destruct a0 as [[valueType t5] r5].
    destruct (store r5 t5 _) as [t6 r6].
    bind_inv Hm0.
    destruct (store r6 t6 _) as [t7 r7] eqn:E7.
    ret_inv Hm0. rewrite (load_store _ _ _ _ _ E7).
    eapply mapping_TypeDescription_Returns. eassumption. }
  destruct (tn_TypeDescription typeName).
  { ret_inv H. exact Hbody. }
  destruct (ResolveByNode _ _) as [[? ?]|]; ret_inv H; exact Hbody.
Qed.

(** A mapping from an elementary key to an elementary value is always
    translated: [parseMappingTypeName] returns, whatever the receiver and
    the counter. *)
Lemma parseMappingTypeName_elementary_returns fuel t parentNodeId ctx ke ve s :
  mkc_ElementaryTypeName (mtc_GetKey ctx) = Some ke ->
  tnc_ElementaryTypeName (mtc_GetValue ctx) = Some ve ->
  exists t',
    parseMappingTypeName (S fuel) t parentNodeId ctx s = Returns (t', s + 4)
    /\ mapping_described t'.
Proof.
  intros Hk Hv.
  assert (Hret : exists t',
             parseMappingTypeName (S fuel) t parentNodeId ctx s
             = Returns (t', s + 4)).
  { unfold parseMappingTypeName. cbn [generateTypeName].
    unfold bind, GetNextID. rewrite Hk.
    destruct (normalizeTypeDescription (etn_GetText ke)) as [kn ki].
    cbn. unfold bind, GetNextID. rewrite Hv.
    destruct (normalizeTypeDescription (etn_GetText ve)) as [vn vi].
    cbn. unfold ret. replace (s + 1 + 1 + 1 + 1) with (s + 4) by lia.
    eexists. reflexivity. }
  destruct Hret as [t' Ht']. exists t'. split; [exact Ht'|].
  unfold parseMappingTypeName in Ht'.
  bind_inv Ht'. destruct a as [[keyType t1] r1].
  bind_inv Ht'. destruct a as [[valueType t2] r2].
  bind_inv Ht'. ret_inv Ht'.
  eapply mapping_TypeDescription_Returns. eassumption.
Qed.

(** C1, amended. The type description of a mapping node is composed from
    its key and value nodes: the identifier is [t_mapping_$k_$v$], with the
    [t_] prefix every identifier of the translators carries, for the
    identifiers [k] and [v] of the two nodes, and the string is
    [mapping(K => V)] for their names.  This holds for the node
    [parseMappingTypeName] completes and for the node the mapping case of
    [generateTypeName] completes (a mapping as a value, or under an array). *)
Theorem mapping_type_description :
  (forall fuel t parentNodeId ctx s t' s',
      parseMappingTypeName fuel t parentNodeId ctx s = Returns (t', s') ->
      mapping_described t')
  /\ (forall fuel t m r s res t' r' s',
         generateTypeName fuel t (CtxMappingType m) r s
           = Returns ((res, t', r'), s') ->
         mapping_described (load r' t')).
Proof.
  split.
  - unfold parseMappingTypeName. intros fuel t parentNodeId ctx s t' s' H.
    bind_inv H. destruct a as [[keyType t1] r1].
    bind_inv H. destruct a as [[valueType t2] r2].
    bind_inv H. ret_inv H.
    eapply mapping_TypeDescription_Returns. eassumption.
  - intros. eapply generateTypeName_mapping_described. eassumption.
Qed.


(** *** The search through the scopes *)

Lemma parent_index_eq expNode vDeclar bodyNode s :
  parent_index expNode vDeclar bodyNode s =
  match parent_of expNode vDeclar bodyNode with
  | Some parentIndex => Returns (parentIndex, s)
  | None => RuntimePanics NilDereference
  end.
Proof.
  unfold parent_index, parent_of.
  destruct expNode; [reflexivity|]. destruct vDeclar; [reflexivity|].
  destruct bodyNode; reflexivity.
Qed.

Lemma Parse_head_eq p unit bodyNode vDeclar expNode ctx s :
  Parse_head p unit bodyNode vDeclar expNode ctx s =
  match parent_of expNode vDeclar bodyNode with
  | Some parentIndex =>
      Returns (head_node p unit expNode ctx s parentIndex, s + 1)
  | None => RuntimePanics NilDereference
  end.
Proof.
  unfold Parse_head. unfold bind at 1. unfold GetNextID.
  unfold bind. rewrite parent_index_eq.
  destruct (parent_of expNode vDeclar bodyNode); reflexivity.
Qed.

Lemma resolved_eta (p q : PrimaryExpression) :
  same_node p q ->
  q = resolved p (pe_TypeDescription q, pe_ReferencedDeclaration q).
Proof.
  unfold same_node, resolved. destruct p, q; simpl.
  intros (? & ? & ? & ? & ? & ? & ? & ? & ? & ?). subst. reflexivity.
Qed.

Lemma match_parameters_eq parameters p :
  match_parameters parameters p =
  match parameter_named (pe_Name p) parameters with
  | Some param =>
      match par_GetTypeName param with
      | Some typeName => resolved p (tn_TypeDescription typeName, pe_Id p)
      | None => p
      end
  | None => p
  end.
Proof.
  induction parameters as [|param rest IH]; simpl; [reflexivity|].
  destruct (String.eqb (par_GetName param) (pe_Name p)); [|exact IH].
  destruct (par_GetTypeName param); reflexivity.
Qed.

Lemma match_declarations_eq vDeclar declarations p s :
  match_declarations vDeclar declarations p s =
  match declaration_named (pe_Name p) declarations with
  | Some d =>
      match decl_GetTypeName d with
      | Some typeName =>
          Returns (resolved p (tn_TypeDescription typeName, vd_GetId vDeclar), s)
      | None => RuntimePanics NilDereference
      end
  | None => Returns (p, s)
  end.
Proof.
  induction declarations as [|d rest IH]; simpl; [reflexivity|].
  destruct (String.eqb (decl_GetName d) (pe_Name p)); [|exact IH].
  destruct (decl_GetTypeName d); reflexivity.
Qed.

Lemma match_statements_returns statements :
  forall p s,
    declarations_typed (pe_Name p) statements = true ->
    exists q, match_statements statements p s = Returns (q, s).
Proof.
  induction statements as [|statement rest IH]; intros p s H; simpl.
  { exists p. reflexivity. }
  simpl in H. apply andb_true_iff in H as [Hst Hrest].
  assert (Hstep : exists p1,
             match statement with
             | StmtVariableDeclaration vDeclar =>
                 match_declarations vDeclar (vd_GetDeclarations vDeclar) p
             | StmtOther _ => ret p
             end s = Returns (p1, s) /\ pe_Name p1 = pe_Name p).
  { destruct statement as [v | id]; [|exists p; split; reflexivity].
    rewrite match_declarations_eq.
    destruct (declaration_named (pe_Name p) (vd_GetDeclarations v)) as [d|].
    - destruct (decl_GetTypeName d); [|discriminate].
      eexists. split; reflexivity.
    - exists p. split; reflexivity. }
  destruct Hstep as (p1 & Hp1 & Hname).
  rewrite <- Hname in Hrest. destruct (IH p1 s Hrest) as [q Hq].
  exists q. unfold bind. rewrite Hp1. exact Hq.
Qed.

Lemma match_statements_resolution statements :
  forall p s q s',
    match_statements statements p s = Returns (q, s') ->
    match local_declaration (pe_Name p) statements with
    | Some (v, d) =>
        exists typeName,
          decl_GetTypeName d = Some typeName
          /\ pe_TypeDescription q = tn_TypeDescription typeName
          /\ pe_ReferencedDeclaration q = vd_GetId v
    | None =>
        pe_TypeDescription q = pe_TypeDescription p
        /\ pe_ReferencedDeclaration q = pe_ReferencedDeclaration p
    end.
Proof.
  induction statements as [|statement rest IH]; intros p s q s' H; simpl in H.
  { ret_inv H. simpl. auto. }
  bind_inv H. apply IH in H.
  assert (Hname : pe_Name a = pe_Name p).
  { destruct statement as [v | id].
    - apply match_declarations_same in Hm as [(_ & _ & _ & _ & _ & _ & Hn & _) _].
      exact Hn.
    - ret_inv Hm. reflexivity. }
  rewrite Hname in H. simpl.
  destruct (local_declaration (pe_Name p) rest) as [[v d]|]; [exact H|].
  destruct H as [Htd Href].
  destruct statement as [v | id].
  - rewrite match_declarations_eq in Hm.
    destruct (declaration_named (pe_Name p) (vd_GetDeclarations v)) as [d|]; simpl.
    + destruct (decl_GetTypeName d) as [typeName|]; [|discriminate].
      inversion Hm; subst. exists typeName. rewrite Htd, Href. auto.
    + inversion Hm; subst. auto.
  - ret_inv Hm. simpl. auto.
Qed.

Lemma Parse_scopes_eq fnNode bodyNode p s :
  scopes_readable (pe_Name p) fnNode bodyNode = true ->
  Parse_scopes fnNode bodyNode p s =
  Returns (resolved p (scope_resolution (pe_Name p) fnNode bodyNode p), s).
Proof.
  unfold scopes_readable. intros H. apply andb_true_iff in H as [Hfn Hbody].
  unfold Parse_scopes.
  assert (Hparams :
            match fnNode with
            | Some (FnConstructor parameterList) =>
                parameters <- deref parameterList ;;
                ret (match_parameters parameters p)
            | Some (FnFunction (Some parameters)) =>
                ret (match_parameters parameters p)
            | _ => ret p
            end s = Returns (match_parameters (parameters_of fnNode) p, s)).
  { destruct fnNode as [[[parameters|] | [parameters|] | nodeType]|];
      try reflexivity; discriminate. }
  unfold bind at 1. rewrite Hparams. clear Hparams Hfn.
  set (p1 := match_parameters (parameters_of fnNode) p).
  assert (Hp1 : same_node p p1) by apply match_parameters_same.
  assert (Hname : pe_Name p1 = pe_Name p).
  { destruct Hp1 as (_ & _ & _ & _ & _ & _ & Hn & _). exact Hn. }
  assert (Hq : exists q,
             match bodyNode with
             | Some body => match_statements (body_GetStatements body) p1
             | None => ret p1
             end s = Returns (q, s)
             /\ same_node p1 q
             /\ match local_declaration (pe_Name p) (statements_of bodyNode) with
                | Some (v, d) =>
                    exists typeName,
                      decl_GetTypeName d = Some typeName
                      /\ pe_TypeDescription q = tn_TypeDescription typeName
                      /\ pe_ReferencedDeclaration q = vd_GetId v
                | None =>
                    pe_TypeDescription q = pe_TypeDescription p1
                    /\ pe_ReferencedDeclaration q = pe_ReferencedDeclaration p1
                end).
  { destruct bodyNode as [body|]; simpl in *.
    - rewrite <- Hname in Hbody.
      destruct (match_statements_returns _ p1 s Hbody) as [q Hq].
      exists q. split; [exact Hq|]. split.
      + apply match_statements_same in Hq as [Hs _]. exact Hs.
      + apply match_statements_resolution in Hq. rewrite Hname in Hq. exact Hq.
    - exists p1. split; [reflexivity|]. split; [apply same_node_refl | auto]. }
  destruct Hq as (q & Hret & Hsame & Hres). rewrite Hret. f_equal. f_equal.
  rewrite (resolved_eta p q (same_node_trans _ _ _ Hp1 Hsame)). f_equal.
  unfold scope_resolution.
  destruct (local_declaration (pe_Name p) (statements_of bodyNode)) as [[v d]|].
  - destruct Hres as (typeName & Hd & Htd & Href). rewrite Hd, Htd, Href.
    reflexivity.
  - destruct Hres as [Htd Href]. rewrite Htd, Href. unfold p1.
    rewrite match_parameters_eq.
    destruct (parameter_named (pe_Name p) (parameters_of fnNode)) as [param|];
      [|reflexivity].
    destruct (par_GetTypeName param); reflexivity.
Qed.

Lemma Parse_identifier_eq fnNode bodyNode ctx p s :
  readable ctx fnNode bodyNode = true ->
  Parse_identifier fnNode bodyNode ctx p s
  = Returns (identified fnNode bodyNode ctx p, s).
Proof.
  unfold readable, Parse_identifier, identified.
  destruct (pec_Identifier ctx) as [name|]; [|reflexivity].
  intros H. unfold bind. rewrite Parse_scopes_eq; [reflexivity | exact H].
Qed.

(** [PrimaryExpression.Parse] when the scopes can be read: one identifier
    is consumed for the span, and the node handed to the last block is
    known. *)
Lemma Parse_eq p unit fnNode bodyNode vDeclar expNode ctx s :
  readable ctx fnNode bodyNode = true ->
  PrimaryExpression_Parse p unit fnNode bodyNode vDeclar expNode ctx s =
  match parent_of expNode vDeclar bodyNode with
  | Some parentIndex =>
      Parse_tail expNode ctx
        (identified fnNode bodyNode ctx
           (head_node p unit expNode ctx s parentIndex)) (s + 1)
  | None => RuntimePanics NilDereference
  end.
Proof.
  intros H. rewrite Parse_blocks. unfold bind at 1. rewrite Parse_head_eq.
  destruct (parent_of expNode vDeclar bodyNode); [|reflexivity].
  unfold bind. rewrite Parse_identifier_eq; [reflexivity | exact H].
Qed.

(** The fields of the node after the first block. *)
Lemma head_node_fields p unit expNode ctx srcId parentIndex :
  let q := head_node p unit expNode ctx srcId parentIndex in
  pe_Id q = pe_Id p /\ pe_NodeType q = pe_NodeType p /\ pe_Kind q = pe_Kind p
  /\ pe_Value q = pe_Value p /\ pe_HexValue q = pe_HexValue p
  /\ pe_Name q = pe_Name p /\ pe_IsPure q = pe_IsPure p
  /\ pe_ReferencedDeclaration q = pe_ReferencedDeclaration p.
Proof.
  unfold head_node.
  destruct (String.eqb (pec_GetText ctx) "msg");
    destruct (String.eqb (pec_GetText ctx) "block");
    destruct (String.eqb (pec_GetText ctx) "this");
    destruct expNode as [[id td arguments | id td]|]; simpl; logic.
Qed.

Lemma head_node_msg p unit expNode ctx srcId parentIndex :
  pec_GetText ctx = "msg" ->
  pe_TypeDescription (head_node p unit expNode ctx srcId parentIndex)
  = Some magic_message.
Proof.
  intros H. unfold head_node. rewrite H. simpl.
  destruct expNode as [[id td arguments | id td]|]; reflexivity.
Qed.


Lemma identified_fields fnNode bodyNode ctx p :
  let q := identified fnNode bodyNode ctx p in
  pe_Id q = pe_Id p /\ pe_NodeType q = pe_NodeType p /\ pe_Kind q = pe_Kind p
  /\ pe_Value q = pe_Value p /\ pe_HexValue q = pe_HexValue p
  /\ pe_Src q = pe_Src p /\ pe_IsPure q = pe_IsPure p
  /\ pe_Name q = name_after ctx p.
Proof.
  unfold identified, name_after. destruct (pec_Identifier ctx) as [name|]; simpl.
  - match goal with
    | |- context [Parse_resolver ?x] =>
        destruct (Parse_resolver_same x)
          as (H1 & H2 & H3 & H4 & H5 & H6 & H7 & _ & H9 & _)
    end.
    rewrite H1, H2, H3, H4, H5, H6, H7, H9. simpl. logic.
  - logic.
Qed.

(** Without a declaration that takes the name, the identifier block leaves
    a type description that is already there alone. *)
Lemma identified_unshadowed fnNode bodyNode ctx p td :
  shadowed ctx fnNode bodyNode = false ->
  pe_TypeDescription p = Some td ->
  pe_TypeDescription (identified fnNode bodyNode ctx p) = Some td
  /\ pe_ReferencedDeclaration (identified fnNode bodyNode ctx p)
     = pe_ReferencedDeclaration p.
Proof.
  unfold shadowed, identified. intros Hsh Htd.
  destruct (pec_Identifier ctx) as [name|]; [|auto].
  apply orb_false_iff in Hsh as [Hpar Hloc].
  unfold scope_resolution, parameter_shadows in *.
  destruct (local_declaration name (statements_of bodyNode)); [discriminate|].
  assert (Hres :
            match parameter_named name (parameters_of fnNode) with
            | Some param =>
                match par_GetTypeName param with
                | Some typeName =>
                    (tn_TypeDescription typeName, pe_Id (set_pe_Name name p))
                | None =>
                    (pe_TypeDescription (set_pe_Name name p),
                     pe_ReferencedDeclaration (set_pe_Name name p))
                end
            | None =>
                (pe_TypeDescription (set_pe_Name name p),
                 pe_ReferencedDeclaration (set_pe_Name name p))
            end = (Some td, pe_ReferencedDeclaration p)).
  { destruct (parameter_named name (parameters_of fnNode)) as [param|].
    - destruct (par_GetTypeName param); [discriminate|]. simpl. congruence.
    - simpl. congruence. }
  rewrite Hres. unfold Parse_resolver, resolved. simpl. auto.
Qed.

(** With a local declaration of the name, the identifier block leaves the
    node with the id of the variable declaration statement and, when the
    declared type has one, its type description. *)
Lemma identified_local fnNode bodyNode ctx p name v d typeName td :
  pec_Identifier ctx = Some name ->
  local_declaration name (statements_of bodyNode) = Some (v, d) ->
  decl_GetTypeName d = Some typeName ->
  tn_TypeDescription typeName = Some td ->
  pe_TypeDescription (identified fnNode bodyNode ctx p) = Some td
  /\ pe_ReferencedDeclaration (identified fnNode bodyNode ctx p) = vd_GetId v.
Proof.
  intros Hid Hloc Hd Htd. unfold identified, scope_resolution.
  rewrite Hid, Hloc, Hd, Htd. unfold Parse_resolver, resolved. simpl. auto.
Qed.

(** The identifier block returns, with the state it found, or a nil
    pointer is dereferenced. *)
Lemma match_statements_outcome statements :
  forall p s,
    (exists q, match_statements statements p s = Returns (q, s))
    \/ match_statements statements p s = RuntimePanics NilDereference.
Proof.
  induction statements as [|statement rest IH]; intros p s; simpl.
  { left. exists p. reflexivity. }
  unfold bind.
  destruct statement as [v | id].
  - rewrite match_declarations_eq.
    destruct (declaration_named (pe_Name p) (vd_GetDeclarations v)) as [d|].
    + destruct (decl_GetTypeName d); [apply IH | right; reflexivity].
    + apply IH.
  - apply IH.
Qed.

Lemma Parse_identifier_outcome fnNode bodyNode ctx p s :
  (exists q, Parse_identifier fnNode bodyNode ctx p s = Returns (q, s)
             /\ pe_Name q = name_after ctx p)
  \/ Parse_identifier fnNode bodyNode ctx p s = RuntimePanics NilDereference.
Proof.
  unfold Parse_identifier, name_after.
  destruct (pec_Identifier ctx) as [name|]; [|left; exists p; split; reflexivity].
  unfold bind.
  destruct (Parse_scopes fnNode bodyNode (set_pe_Name name p) s)
    as [[q s'] | msg | e |] eqn:E.
  - left. exists (Parse_resolver q).
    apply Parse_scopes_same in E as [Hq ->]. split; [reflexivity|].
    destruct (Parse_resolver_same q) as (_ & _ & _ & _ & _ & _ & Hn & _).
    destruct Hq as (_ & _ & _ & _ & _ & _ & Hn' & _).
    rewrite Hn, Hn'. reflexivity.
  - exfalso. unfold Parse_scopes, bind in E.
    destruct fnNode as [[[parameters|] | [parameters|] | nodeType]|];
      simpl in E; try discriminate;
      (destruct bodyNode as [body|]; [|discriminate]);
      match type of E with
      | match_statements ?l ?x ?s0 = _ =>
          destruct (match_statements_outcome l x s0) as [[q Hq] | Hq];
            rewrite Hq in E; discriminate
      end.
  - right. f_equal. unfold Parse_scopes, bind in E.
    destruct fnNode as [[[parameters|] | [parameters|] | nodeType]|];
      simpl in E; try congruence;
      (destruct bodyNode as [body|]; [|discriminate]);
      match type of E with
      | match_statements ?l ?x ?s0 = _ =>
          destruct (match_statements_outcome l x s0) as [[q Hq] | Hq];
            rewrite Hq in E; congruence
      end.
  - exfalso. unfold Parse_scopes, bind in E.
    destruct fnNode as [[[parameters|] | [parameters|] | nodeType]|];
      simpl in E; try discriminate;
      (destruct bodyNode as [body|]; [|discriminate]);
      match type of E with
      | match_statements ?l ?x ?s0 = _ =>
          destruct (match_statements_outcome l x s0) as [[q Hq] | Hq];
            rewrite Hq in E; discriminate
      end.
Qed.

(** C9. For a primary expression that carries a hex-string literal, [Parse]
    reads the text from the string-literal accessor: the text of the
    hex-string literal has no influence on the outcome; and when the
    production is a hex-string literal, its string-literal accessor being
    nil, [Parse] dereferences a nil pointer and produces no node.  (The node
    is not the placeholder [_], which is returned before the literals are
    looked at.) *)
Theorem hex_string_literal_nil_dereference :
  (forall p unit fnNode bodyNode vDeclar expNode text start stop name
          boolean str number h h' s,
      PrimaryExpression_Parse p unit fnNode bodyNode vDeclar expNode
        (mkPrimaryExpressionContext text start stop name
           (Some (mkLiteralContext boolean str number (Some h)))) s
      = PrimaryExpression_Parse p unit fnNode bodyNode vDeclar expNode
          (mkPrimaryExpressionContext text start stop name
             (Some (mkLiteralContext boolean str number (Some h')))) s)
  /\ (forall p unit fnNode bodyNode vDeclar expNode ctx literalCtx h s,
         pec_Literal ctx = Some literalCtx ->
         lit_HexStringLiteral literalCtx = Some h ->
         lit_BooleanLiteral literalCtx = None ->
         lit_StringLiteral literalCtx = None ->
         lit_NumberLiteral literalCtx = None ->
         String.eqb (name_after ctx p) "_" = false ->
         PrimaryExpression_Parse p unit fnNode bodyNode vDeclar expNode ctx s
         = RuntimePanics NilDereference).
Proof.
  split.
  - intros. reflexivity.
  - intros p unit fnNode bodyNode vDeclar expNode ctx literalCtx h s
           Hlit Hhex Hbool Hstr Hnum Hname.
    rewrite Parse_blocks. unfold bind at 1. rewrite Parse_head_eq.
    destruct (parent_of expNode vDeclar bodyNode) as [parentIndex|];
      [|reflexivity].
    unfold bind.
    match goal with
    | |- context [Parse_identifier ?f ?b ?c ?x ?s0] =>
        destruct (Parse_identifier_outcome f b c x s0) as [(q & Hq & Hn) | Hq];
          rewrite Hq; [|reflexivity]
    end.
    unfold Parse_tail. rewrite Hn.
    unfold name_after in *.
    destruct (head_node_fields p unit expNode ctx s parentIndex)
      as (_ & _ & _ & _ & _ & Hhead & _).
    rewrite Hhead, Hname, Hlit. unfold Parse_literal.
    rewrite Hbool, Hstr, Hnum, Hhex. reflexivity.
Qed.


(** C6, amended. For a primary expression whose identifier is the
    placeholder marker [_], [Parse] resolves the identifier as it does any
    other (parameters, local declarations, Resolver), then tags the node as
    a placeholder statement and returns it before the literals are looked
    at: the node is the one the identifier block leaves, with the node type
    of a placeholder statement, and the kind, value, hex value and purity
    are those the node came with. *)
Theorem placeholder_returned_before_literals
    p unit fnNode bodyNode vDeclar expNode ctx parentIndex s :
  pec_Identifier ctx = Some "_" ->
  readable ctx fnNode bodyNode = true ->
  parent_of expNode vDeclar bodyNode = Some parentIndex ->
  exists p',
    PrimaryExpression_Parse p unit fnNode bodyNode vDeclar expNode ctx s
      = Returns (p', s + 1)
    /\ p' = set_pe_NodeType NodeType_PLACEHOLDER_STATEMENT
              (identified fnNode bodyNode ctx
                 (head_node p unit expNode ctx s parentIndex))
    /\ pe_NodeType p' = NodeType_PLACEHOLDER_STATEMENT
    /\ pe_Kind p' = pe_Kind p /\ pe_Value p' = pe_Value p
    /\ pe_HexValue p' = pe_HexValue p /\ pe_IsPure p' = pe_IsPure p.
Proof.
  intros Hid Hread Hparent.
  rewrite (Parse_eq _ _ _ _ _ _ _ _ Hread), Hparent.
  destruct (identified_fields fnNode bodyNode ctx
              (head_node p unit expNode ctx s parentIndex))
    as (_ & _ & Hk & Hv & Hh & _ & Hp & Hn).
  destruct (head_node_fields p unit expNode ctx s parentIndex)
    as (_ & _ & Hk' & Hv' & Hh' & _ & Hp' & _).
  unfold name_after in Hn. rewrite Hid in Hn.
  unfold Parse_tail. rewrite Hn. simpl String.eqb. cbv iota.
  eexists. split; [reflexivity|]. split; [reflexivity|]. simpl.
  rewrite Hk, Hv, Hh, Hp. repeat split; assumption.
Qed.

Lemma scope_resolution_shadowed fnNode bodyNode ctx name q :
  pec_Identifier ctx = Some name ->
  shadowed ctx fnNode bodyNode = true ->
  fst (scope_resolution name fnNode bodyNode q)
  = declared_type name fnNode bodyNode.
Proof.
  unfold shadowed, scope_resolution, declared_type, parameter_shadows.
  intros -> H.
  destruct (local_declaration name (statements_of bodyNode)) as [[v d]|];
    [reflexivity|].
  destruct (parameter_named name (parameters_of fnNode)) as [param|];
    [|discriminate].
  destruct (par_GetTypeName param); [reflexivity | discriminate].
Qed.

(** C3, amended. For a primary expression whose text is the keyword [msg]
    (a production that is not one of the four literals), [Parse] returns a
    node, and it attaches the message type description ([t_magic_message],
    [msg]) whenever no declaration of the enclosing scopes takes the name:
    no parameter of the enclosing function or constructor that carries a
    type name and no local declaration of the body has the name of the
    identifier.  When such a declaration has the name (and the production
    is the identifier alone), the node gets the type description of the
    declared type instead, that of the last local declaration, else of the
    first parameter; and when the declared type carries none, it gets what
    the Resolver finds for the name, nothing when the Resolver finds
    nothing. *)
Theorem message_type_unless_shadowed
    p unit fnNode bodyNode vDeclar expNode ctx parentIndex s :
  pec_GetText ctx = "msg" ->
  known_literal ctx = false ->
  readable ctx fnNode bodyNode = true ->
  parent_of expNode vDeclar bodyNode = Some parentIndex ->
  exists p',
    PrimaryExpression_Parse p unit fnNode bodyNode vDeclar expNode ctx s
      = Returns (p', s + 1)
    /\ (shadowed ctx fnNode bodyNode = false ->
        pe_TypeDescription p' = Some magic_message)
    /\ (forall name,
          pec_Identifier ctx = Some name ->
          pec_Literal ctx = None ->
          shadowed ctx fnNode bodyNode = true ->
          let named :=
            set_pe_Name name (head_node p unit expNode ctx s parentIndex) in
          let asked :=
            resolved named (scope_resolution name fnNode bodyNode named) in
          pe_TypeDescription p' =
          match declared_type name fnNode bodyNode with
          | Some declared => Some declared
          | None =>
              match ResolveByNode (SubjectPrimaryExpression asked) name with
              | Some (_, refTypeDescription) => refTypeDescription
              | None => None
              end
          end).
Proof.
  intros Htext Hlit Hread Hparent.
  rewrite (Parse_eq _ _ _ _ _ _ _ _ Hread), Hparent.
  set (h := head_node p unit expNode ctx s parentIndex).
  set (q := identified fnNode bodyNode ctx h).
  assert (Htail : exists p',
             Parse_tail expNode ctx q (s + 1) = Returns (p', s + 1)
             /\ (pec_Literal ctx = None ->
                 pe_TypeDescription p' = pe_TypeDescription q)
             /\ (pe_TypeDescription q = Some magic_message ->
                 pe_TypeDescription p' = Some magic_message)).
  { unfold Parse_tail.
    destruct (String.eqb (pe_Name q) "_").
    { eexists. split; [reflexivity|]. split; intros H; [reflexivity | exact H]. }
    unfold known_literal in Hlit.
    destruct (pec_Literal ctx) as [literalCtx|].
    2:{ eexists. split; [reflexivity|].
        split; intros H; [reflexivity | exact H]. }
    unfold Parse_literal.
    destruct (lit_BooleanLiteral literalCtx); [discriminate|].
    destruct (lit_StringLiteral literalCtx); [discriminate|].
    destruct (lit_NumberLiteral literalCtx); [discriminate|].
    destruct (lit_HexStringLiteral literalCtx); [discriminate|].
    rewrite Htext. simpl. eexists. split; [reflexivity|].
    split; [discriminate | reflexivity]. }
  destruct Htail as (p' & Hret & Hplain & Hmagic).
  exists p'. split; [exact Hret|]. split.
  - intros Hsh. apply Hmagic.
    exact (proj1 (identified_unshadowed fnNode bodyNode ctx h magic_message Hsh
                    (head_node_msg _ _ _ _ _ _ Htext))).
  - intros name Hid Hnone Hsh named asked.
    rewrite (Hplain Hnone). unfold q, identified. rewrite Hid.
    fold named. fold asked. unfold Parse_resolver.
    assert (Htd : pe_TypeDescription asked = declared_type name fnNode bodyNode).
    { unfold asked, resolved.
      rewrite <- (scope_resolution_shadowed fnNode bodyNode ctx name named Hid Hsh).
      reflexivity. }
    assert (Hname : pe_Name asked = name) by reflexivity.
    rewrite Htd, Hname.
    destruct (declared_type name fnNode bodyNode) as [declared|] eqn:Hd.
    + exact Htd.
    + destruct (ResolveByNode (SubjectPrimaryExpression asked) name)
        as [[refId refTd]|]; [reflexivity | exact Htd].
Qed.

(** C4, amended. For an identifier primary expression (a production
    without literal) whose name has a local declaration in the body, [Parse]
    records the variable declaration statement of the last such declaration
    (its id) and the type description of the declared type, whatever the
    parameters of the enclosing function are called, provided the declared
    type carries a type description. *)
Theorem local_declaration_wins
    p unit fnNode bodyNode vDeclar expNode ctx name v d typeName td s :
  pec_Identifier ctx = Some name ->
  pec_Literal ctx = None ->
  local_declaration name (statements_of bodyNode) = Some (v, d) ->
  decl_GetTypeName d = Some typeName ->
  tn_TypeDescription typeName = Some td ->
  readable ctx fnNode bodyNode = true ->
  exists p',
    PrimaryExpression_Parse p unit fnNode bodyNode vDeclar expNode ctx s
      = Returns (p', s + 1)
    /\ pe_ReferencedDeclaration p' = vd_GetId v
    /\ pe_TypeDescription p' = Some td.
Proof.
  intros Hid Hlit Hloc Hd Htd Hread.
  rewrite (Parse_eq _ _ _ _ _ _ _ _ Hread).
  assert (Hparent : exists parentIndex,
             parent_of expNode vDeclar bodyNode = Some parentIndex).
  { unfold parent_of. destruct expNode; [eauto|]. destruct vDeclar; [eauto|].
    destruct bodyNode; [simpl; eauto | discriminate]. }
  destruct Hparent as [parentIndex ->].
  destruct (identified_local fnNode bodyNode ctx
              (head_node p unit expNode ctx s parentIndex)
              name v d typeName td Hid Hloc Hd Htd) as [Hq Hr].
  unfold Parse_tail. rewrite Hlit.
  destruct (String.eqb _ "_"); eexists; (split; [reflexivity|]); simpl; auto.
Qed.

(** When the name is that of a parameter with a type name and of no local
    declaration, [Parse] records the id of the primary expression itself as
    the referenced declaration. *)
Lemma parameter_reference_is_own_id
    p unit fnNode bodyNode vDeclar expNode ctx name param typeName td
    parentIndex s :
  pec_Identifier ctx = Some name ->
  pec_Literal ctx = None ->
  local_declaration name (statements_of bodyNode) = None ->
  parameter_named name (parameters_of fnNode) = Some param ->
  par_GetTypeName param = Some typeName ->
  tn_TypeDescription typeName = Some td ->
  readable ctx fnNode bodyNode = true ->
  parent_of expNode vDeclar bodyNode = Some parentIndex ->
  exists p',
    PrimaryExpression_Parse p unit fnNode bodyNode vDeclar expNode ctx s
      = Returns (p', s + 1)
    /\ pe_ReferencedDeclaration p' = pe_Id p
    /\ pe_TypeDescription p' = Some td.
Proof.
  intros Hid Hlit Hloc Hpar Htn Htd Hread Hparent.
  rewrite (Parse_eq _ _ _ _ _ _ _ _ Hread), Hparent.
  destruct (head_node_fields p unit expNode ctx s parentIndex) as (Hhid & _).
  assert (Hq : pe_TypeDescription
                 (identified fnNode bodyNode ctx
                    (head_node p unit expNode ctx s parentIndex)) = Some td
               /\ pe_ReferencedDeclaration
                    (identified fnNode bodyNode ctx
                       (head_node p unit expNode ctx s parentIndex)) = pe_Id p).
  { unfold identified, scope_resolution.
    rewrite Hid, Hloc, Hpar, Htn, Htd. unfold Parse_resolver, resolved. simpl.
    auto. }
  destruct Hq as [Hq Hr].
  unfold Parse_tail. rewrite Hlit.
  destruct (String.eqb _ "_"); eexists; (split; [reflexivity|]); simpl; auto.
Qed.


(** *** The Go library functions on decimal lexemes *)

Lemma string_app_assoc (a b c : string) : (a ++ b) ++ c = a ++ (b ++ c).
Proof. induction a as [|x a IH]; simpl; [reflexivity | now rewrite IH]. Qed.

Lemma string_app_nil_r (a : string) : a ++ "" = a.
Proof. induction a as [|x a IH]; simpl; [reflexivity | now rewrite IH]. Qed.

Lemma string_rev_app (a b : string) :
  string_rev (a ++ b) = string_rev b ++ string_rev a.
Proof.
  induction a as [|x a IH]; simpl.
  - now rewrite string_app_nil_r.
  - now rewrite IH, string_app_assoc.
Qed.

Lemma string_rev_involutive (a : string) : string_rev (string_rev a) = a.
Proof.
  induction a as [|x a IH]; simpl; [reflexivity|].
  rewrite string_rev_app, IH. reflexivity.
Qed.

(** What the bytes of a decimal lexeme are not: a sign, a double quote, the
    start or the end of a white space rune. *)
Lemma plain_char_facts (c : ascii) :
  plain_char c = true ->
  is_sign c = false
  /\ (forall s, prefix double_quote (String c s) = false)
  /\ (forall s, rune_length_at space_runes (String c s) = O)
  /\ (forall s, rune_length_at (map string_rev space_runes) (String c s) = O).
Proof.
  destruct c as [[] [] [] [] [] [] [] []]; intros H;
    try discriminate H; repeat split; intros; reflexivity.
Qed.

Lemma digit_char_facts (c : ascii) :
  is_digit c = true ->
  (exists d, digit_value c = Some d /\ 0 <= d <= 9)
  /\ plain_char c = true
  /\ (forall s, prefix "." (String c s) = false).
Proof.
  destruct c as [[] [] [] [] [] [] [] []]; intros H;
    try discriminate H; (split; [eexists; split; [vm_compute; reflexivity | lia]|]);
    split; intros; reflexivity.
Qed.


Lemma all_digits_plain (s : string) : all_digits s = true -> all_plain s = true.
Proof.
  induction s as [|c s IH]; simpl; [reflexivity|].
  intros H. apply andb_true_iff in H as [Hc Hs].
  destruct (digit_char_facts c Hc) as (_ & Hp & _). rewrite Hp. auto.
Qed.

Lemma all_plain_app (a b : string) :
  all_plain (a ++ b) = all_plain a && all_plain b.
Proof.
  induction a as [|c a IH]; simpl; [reflexivity|].
  rewrite IH. apply andb_assoc.
Qed.

Lemma all_plain_rev (s : string) : all_plain (string_rev s) = all_plain s.
Proof.
  induction s as [|c s IH]; simpl; [reflexivity|].
  rewrite all_plain_app, IH. simpl. rewrite andb_true_r. apply andb_comm.
Qed.

Lemma replace_quotes_plain (s : string) :
  all_plain s = true -> strings_ReplaceAll s double_quote "" = s.
Proof.
  unfold strings_ReplaceAll.
  induction s as [|c s IH]; [reflexivity|].
  intros H. simpl in H. apply andb_true_iff in H as [Hc Hs].
  destruct (plain_char_facts c Hc) as (_ & Hq & _).
  change (replace_from double_quote "" O (String c s))
    with (if prefix double_quote (String c s)
          then "" ++ replace_from double_quote "" (String.length double_quote - 1) s
          else String c (replace_from double_quote "" O s)).
  rewrite Hq, (IH Hs). reflexivity.
Qed.

Lemma trim_left_from_stops (runes : list string) (s : string) :
  rune_length_at runes s = O -> trim_left_from runes O s = s.
Proof.
  destruct s as [|c s]; [reflexivity|]. intros H.
  change (trim_left_from runes O (String c s))
    with (match rune_length_at runes (String c s) with
          | O => String c s
          | S k => trim_left_from runes k s
          end).
  rewrite H. reflexivity.
Qed.

Lemma trim_space_plain (s : string) :
  all_plain s = true -> strings_TrimSpace s = s.
Proof.
  intros H. unfold strings_TrimSpace, trim_left_space, trim_right_space.
  assert (Hleft : trim_left_from space_runes O s = s).
  { apply trim_left_from_stops. destruct s as [|c s]; [reflexivity|].
    simpl in H. apply andb_true_iff in H as [Hc _].
    destruct (plain_char_facts c Hc) as (_ & _ & Hl & _). apply Hl. }
  rewrite Hleft.
  assert (Hright : trim_left_from (map string_rev space_runes) O (string_rev s)
                   = string_rev s).
  { apply trim_left_from_stops.
    pose proof (all_plain_rev s) as Hrev. rewrite H in Hrev.
    destruct (string_rev s) as [|c r]; [reflexivity|].
    simpl in Hrev. apply andb_true_iff in Hrev as [Hc _].
    destruct (plain_char_facts c Hc) as (_ & _ & _ & Hr). apply Hr. }
  rewrite Hright. apply string_rev_involutive.
Qed.

Lemma literal_value_plain (s : string) :
  all_plain s = true -> literal_value s = s.
Proof.
  intros H. unfold literal_value.
  rewrite (replace_quotes_plain s H). apply trim_space_plain. exact H.
Qed.

Lemma prefix_empty (s : string) : prefix "" s = true.
Proof. destruct s; reflexivity. Qed.

Lemma prefix_point (s : string) : prefix "." (String "." s) = true.
Proof. simpl. apply prefix_empty. Qed.

Lemma contains_digits (s : string) :
  all_digits s = true -> strings_Contains s "." = false.
Proof.
  induction s as [|c s IH]; [reflexivity|].
  intros H. simpl in H. apply andb_true_iff in H as [Hc Hs].
  destruct (digit_char_facts c Hc) as (_ & _ & Hp).
  change (strings_Contains (String c s) ".")
    with (prefix "." (String c s) || strings_Contains s ".").
  rewrite Hp, (IH Hs). reflexivity.
Qed.

Lemma contains_point (a b : string) :
  strings_Contains (a ++ String "." b) "." = true.
Proof.
  induction a as [|c a IH].
  - change (prefix "." (String "." b) || strings_Contains b "." = true).
    rewrite prefix_point. reflexivity.
  - change (prefix "." (String c (a ++ String "." b))
            || strings_Contains (a ++ String "." b) "." = true).
    rewrite IH. apply orb_true_r.
Qed.

Lemma split_from_digits (a : string) :
  forall cur rest,
    all_digits a = true ->
    split_from "." O cur (a ++ rest) = split_from "." O (cur ++ a) rest.
Proof.
  induction a as [|c a IH]; intros cur rest H.
  - now rewrite string_app_nil_r.
  - simpl in H. apply andb_true_iff in H as [Hc Ha].
    destruct (digit_char_facts c Hc) as (_ & _ & Hp).
    change (split_from "." O cur (String c a ++ rest))
      with (if prefix "." (String c (a ++ rest))
            then cur :: split_from "." (String.length "." - 1) "" (a ++ rest)
            else split_from "." O (cur ++ String c "") (a ++ rest)).
    rewrite Hp, (IH _ _ Ha), string_app_assoc. reflexivity.
Qed.

Lemma split_decimal (a b : string) :
  all_digits a = true -> all_digits b = true ->
  strings_Split (a ++ String "." b) "." = [a; b].
Proof.
  intros Ha Hb. unfold strings_Split.
  rewrite (split_from_digits a "" _ Ha). simpl append.
  change (split_from "." O a (String "." b))
    with (if prefix "." (String "." b)
          then a :: split_from "." (String.length "." - 1) "" b
          else split_from "." O (a ++ String "." "") b).
  rewrite prefix_point. simpl Nat.sub.
  rewrite <- (string_app_nil_r b) at 1.
  rewrite (split_from_digits b "" "" Hb). reflexivity.
Qed.

Lemma split_from_nonempty (sep : string) (s : string) :
  forall skip cur, exists part rest, split_from sep skip cur s = part :: rest.
Proof.
  induction s as [|c s IH]; intros skip cur.
  - simpl. eauto.
  - destruct skip as [|k]; [|apply IH].
    change (split_from sep O cur (String c s))
      with (if prefix sep (String c s)
            then cur :: split_from sep (String.length sep - 1) "" s
            else split_from sep O (cur ++ String c "") s).
    destruct (prefix sep (String c s)); [eauto | apply IH].
Qed.

Lemma split_contains (s : string) :
  forall cur,
    strings_Contains s "." = true ->
    exists part0 part1 rest, split_from "." O cur s = part0 :: part1 :: rest.
Proof.
  induction s as [|c s IH]; intros cur H; [discriminate|].
  change (prefix "." (String c s) || strings_Contains s "." = true) in H.
  change (split_from "." O cur (String c s))
    with (if prefix "." (String c s)
          then cur :: split_from "." (String.length "." - 1) "" s
          else split_from "." O (cur ++ String c "") s).
  destruct (prefix "." (String c s)).
  - destruct (split_from_nonempty "." s (String.length "." - 1) "")
      as (part & rest & ->). eauto.
  - simpl in H. apply IH. exact H.
Qed.

(** *** [strconv.Atoi] on digits, and its errors *)

Lemma wrap_small (z : Z) : Int64.in_range z -> Int64.wrap z = z.
Proof.
  unfold Int64.in_range, Int64.min_signed, Int64.max_signed, Int64.wrap,
    Int64.modulus.
  change (2 ^ 63) with 9223372036854775808.
  change (2 ^ 64) with 18446744073709551616.
  intros H. rewrite Z.mod_small; lia.
Qed.

Lemma wrap_unsigned_small (z : Z) :
  0 <= z <= Int64.max_unsigned -> Int64.wrap_unsigned z = z.
Proof.
  unfold Int64.wrap_unsigned, Int64.max_unsigned, Int64.modulus.
  change (2 ^ 64) with 18446744073709551616.
  intros H. apply Z.mod_small. lia.
Qed.

Lemma decimal_from_ge (s : string) :
  forall n, 0 <= n -> all_digits s = true -> n <= decimal_from n s.
Proof.
  induction s as [|c s IH]; intros n Hn H; cbn [decimal_from]; [lia|].
  cbn [all_digits] in H. apply andb_true_iff in H as [Hc Hs].
  destruct (digit_char_facts c Hc) as ((d & Hd & Hrange) & _).
  rewrite Hd. specialize (IH (10 * n + d) ltac:(lia) Hs). lia.
Qed.

Lemma atoi_fast_loop_digits (s : string) :
  forall n,
    0 <= n -> all_digits s = true -> decimal_from n s <= Int64.max_signed ->
    atoi_fast_loop s n = (decimal_from n s, None).
Proof.
  induction s as [|c s IH]; intros n Hn H Hmax;
    cbn [atoi_fast_loop decimal_from]; [reflexivity|].
  cbn [all_digits] in H. apply andb_true_iff in H as [Hc Hs].
  destruct (digit_char_facts c Hc) as ((d & Hd & Hrange) & _).
  cbn [decimal_from] in Hmax. rewrite Hd in *.
  pose proof (decimal_from_ge s (10 * n + d) ltac:(lia) Hs) as Hge.
  assert (Hstep : Int64.add (Int64.wrap (n * 10)) d = 10 * n + d).
  { unfold Int64.add.
    rewrite (wrap_small (n * 10));
      [|unfold Int64.in_range, Int64.min_signed, Int64.max_signed in *; lia].
    rewrite wrap_small;
      [lia | unfold Int64.in_range, Int64.min_signed, Int64.max_signed in *; lia]. }
  rewrite Hstep. apply IH; [lia | exact Hs | exact Hmax].
Qed.

Lemma parse_uint_loop_digits (s : string) :
  forall n,
    0 <= n -> all_digits s = true -> decimal_from n s <= Int64.max_signed ->
    parse_uint_loop s n = (decimal_from n s, None).
Proof.
  induction s as [|c s IH]; intros n Hn H Hmax;
    cbn [parse_uint_loop decimal_from]; [reflexivity|].
  cbn [all_digits] in H. apply andb_true_iff in H as [Hc Hs].
  destruct (digit_char_facts c Hc) as ((d & Hd & Hrange) & _).
  cbn [decimal_from] in Hmax. rewrite Hd in *.
  pose proof (decimal_from_ge s (10 * n + d) ltac:(lia) Hs) as Hge.
  assert (Hbound : 10 * n + d <= 9223372036854775807)
    by (unfold Int64.max_signed in Hmax;
        change (2 ^ 63) with 9223372036854775808 in Hmax; lia).
  assert (Hcut : (n >=? parse_uint_cutoff) = false).
  { rewrite Z.geb_leb. apply Z.leb_gt. change parse_uint_cutoff with 1844674407370955162. lia. }
  rewrite Hcut.
  rewrite (wrap_unsigned_small (n * 10));
    [|unfold Int64.max_unsigned; change (2 ^ 64) with 18446744073709551616; lia].
  rewrite wrap_unsigned_small;
    [|unfold Int64.max_unsigned; change (2 ^ 64) with 18446744073709551616; lia].
  assert (Hlt : (n * 10 + d <? n * 10) = false) by (apply Z.ltb_ge; lia).
  assert (Hgt : (n * 10 + d >? Int64.max_unsigned) = false).
  { rewrite Z.gtb_ltb. apply Z.ltb_ge. unfold Int64.max_unsigned.
    change (2 ^ 64) with 18446744073709551616. lia. }
  rewrite Hlt, Hgt. simpl orb. cbv iota.
  replace (n * 10 + d) with (10 * n + d) by lia.
  apply IH; [lia | exact Hs | exact Hmax].
Qed.

(** On a string of digits whose value fits [int], [Atoi] returns the
    value; on the empty string it returns 0 (with a syntax error). *)
Lemma Atoi_digits (s : string) :
  all_digits s = true -> decimal_value s <= Int64.max_signed ->
  fst (strconv_Atoi s) = decimal_value s.
Proof.
  intros H Hmax. destruct s as [|c s]; [reflexivity|].
  assert (Hsign : is_sign c = false /\ Ascii.eqb c "-"%char = false).
  { simpl in H. apply andb_true_iff in H as [Hc _].
    destruct (digit_char_facts c Hc) as (_ & Hp & _).
    destruct (plain_char_facts c Hp) as (Hsg & _). split; [exact Hsg|].
    unfold is_sign in Hsg. apply orb_false_iff in Hsg. logic. }
  destruct Hsign as [Hsign Hminus].
  assert (Hnn : 0 <= decimal_value (String c s))
    by (apply (decimal_from_ge _ 0); [lia | exact H]).
  unfold strconv_Atoi.
  destruct ((0 <? String.length (String c s))%nat
            && (String.length (String c s) <? 19)%nat).
  - rewrite Hsign, Hminus.
    rewrite (atoi_fast_loop_digits (String c s) 0 ltac:(lia) H Hmax).
    reflexivity.
  - unfold strconv_ParseInt. rewrite Hsign, Hminus. unfold strconv_ParseUint.
    rewrite (parse_uint_loop_digits (String c s) 0 ltac:(lia) H Hmax).
    fold (decimal_value (String c s)).
    assert (Hge : (decimal_value (String c s) >=? 2 ^ 63) = false).
    { rewrite Z.geb_leb. apply Z.leb_gt. unfold Int64.max_signed in Hmax. lia. }
    change (negb false) with true. rewrite Hge. cbn [andb fst].
    rewrite wrap_small; [reflexivity|].
    unfold Int64.in_range, Int64.min_signed. lia.
Qed.

Lemma parse_uint_loop_errors (s : string) :
  forall n v e,
    parse_uint_loop s n = (v, Some e) ->
    (e = ErrSyntax /\ v = 0) \/ (e = ErrRange /\ v = Int64.max_unsigned).
Proof.
  induction s as [|c s IH]; intros n v e; simpl; [discriminate|].
  destruct (digit_value c) as [d|]; [|intros H; inversion H; auto].
  destruct (n >=? parse_uint_cutoff); [intros H; inversion H; auto|].
  destruct (_ || _); [intros H; inversion H; auto|].
  apply IH.
Qed.

Lemma atoi_fast_loop_errors (s : string) :
  forall n v e, atoi_fast_loop s n = (v, Some e) -> e = ErrSyntax /\ v = 0.
Proof.
  induction s as [|c s IH]; intros n v e; simpl; [discriminate|].
  destruct (digit_value c) as [d|]; [apply IH | intros H; inversion H; auto].
Qed.

(** The value [Atoi] returns with an error: 0 with a syntax error, the
    largest or the smallest [int] with a range error. *)
Lemma Atoi_errors (s : string) (e : NumError) :
  snd (strconv_Atoi s) = Some e ->
  (e = ErrSyntax /\ fst (strconv_Atoi s) = 0)
  \/ (e = ErrRange
      /\ (fst (strconv_Atoi s) = Int64.max_signed
          \/ fst (strconv_Atoi s) = Int64.min_signed)).
Proof.
  unfold strconv_Atoi.
  destruct ((0 <? String.length s)%nat && (String.length s <? 19)%nat).
  - destruct s as [|c0 rest]; [simpl; intros H; inversion H; auto|].
    destruct (if is_sign c0 then rest else String c0 rest) as [|c1 s1] eqn:E1;
      [simpl; intros H; inversion H; auto|].
    destruct (atoi_fast_loop (String c1 s1) 0) as [n [err|]] eqn:E.
    + apply atoi_fast_loop_errors in E as [-> ->].
      simpl. intros H; inversion H; auto.
    + simpl. discriminate.
  - unfold strconv_ParseInt.
    destruct s as [|c0 rest]; [simpl; intros H; inversion H; auto|].
    destruct (strconv_ParseUint (if is_sign c0 then rest else String c0 rest))
      as [un [err|]] eqn:E.
    + assert (Herr : (err = ErrSyntax /\ un = 0)
                     \/ (err = ErrRange /\ un = Int64.max_unsigned)).
      { unfold strconv_ParseUint in E.
        destruct (if is_sign c0 then rest else String c0 rest);
          [inversion E; auto | eapply parse_uint_loop_errors; eassumption]. }
      destruct Herr as [[-> ->] | [-> ->]].
      * simpl. intros H; inversion H; auto.
      * destruct (Ascii.eqb c0 "-"); simpl; intros H; inversion H; subst;
          right; split; auto.
    + destruct (negb (Ascii.eqb c0 "-") && (un >=? 2 ^ 63)).
      { simpl. intros H; inversion H; subst. right. split; auto. }
      destruct (Ascii.eqb c0 "-" && (un >? 2 ^ 63)).
      { simpl. intros H; inversion H; subst. right. split; auto. }
      simpl. discriminate.
Qed.


(** *** Number literals *)

Lemma Parse_number_eq text p s :
  Parse_number text p s = Returns (number_node text p, s).
Proof.
  unfold Parse_number, number_node, numerator_text, denominator_of.
  cbn [pe_Value set_pe_HexValue set_pe_Value set_pe_Kind].
  destruct (strings_Contains (literal_value text) ".") eqn:Hpoint.
  - destruct (split_contains _ "" Hpoint) as (part0 & part1 & rest & Hsplit).
    unfold strings_Split. rewrite Hsplit.
    unfold bind, index. cbn [nth_error nth ret].
    destruct (strconv_Atoi (part0 ++ part1)) as [numerator err]. reflexivity.
  - destruct (strconv_Atoi (literal_value text)) as [numerator err]. reflexivity.
Qed.

(** [Parse] on a number literal: it returns, and the node is known. *)
Lemma Parse_number_literal
    p unit fnNode bodyNode vDeclar expNode ctx literalCtx lexeme parentIndex s :
  pec_Literal ctx = Some literalCtx ->
  lit_NumberLiteral literalCtx = Some lexeme ->
  lit_BooleanLiteral literalCtx = None ->
  lit_StringLiteral literalCtx = None ->
  String.eqb (name_after ctx p) "_" = false ->
  readable ctx fnNode bodyNode = true ->
  parent_of expNode vDeclar bodyNode = Some parentIndex ->
  PrimaryExpression_Parse p unit fnNode bodyNode vDeclar expNode ctx s =
  Returns
    (number_node lexeme
       (set_pe_IsPure true
          (set_pe_NodeType NodeType_LITERAL
             (identified fnNode bodyNode ctx
                (head_node p unit expNode ctx s parentIndex)))), s + 1).
Proof.
  intros Hlit Hnum Hbool Hstr Hname Hread Hparent.
  rewrite (Parse_eq _ _ _ _ _ _ _ _ Hread), Hparent.
  destruct (identified_fields fnNode bodyNode ctx
              (head_node p unit expNode ctx s parentIndex))
    as (_ & _ & _ & _ & _ & _ & _ & Hn).
  unfold Parse_tail. rewrite Hn.
  assert (Hhead : name_after ctx (head_node p unit expNode ctx s parentIndex)
                  = name_after ctx p).
  { unfold name_after. destruct (pec_Identifier ctx); [reflexivity|].
    destruct (head_node_fields p unit expNode ctx s parentIndex)
      as (_ & _ & _ & _ & _ & H & _). exact H. }
  rewrite Hhead, Hname, Hlit. unfold Parse_literal.
  rewrite Hbool, Hstr, Hnum. apply Parse_number_eq.
Qed.

Lemma number_node_TypeDescription text p :
  pe_TypeDescription (number_node text p) =
  Some {| TypeIdentifier :=
            "t_rational_"
              ++ fmt_d (fst (strconv_Atoi (numerator_text (literal_value text))))
              ++ "_by_" ++ fmt_d (denominator_of (literal_value text));
          TypeString :=
            (if strings_Contains (literal_value text) "."
             then "fixed_const " else "int_const ") ++ text |}.
Proof. reflexivity. Qed.

(** C10. A number literal whose text fails the integer conversion does not
    make [Parse] abort: the node is returned, it is the node any number
    literal becomes (nothing in it records the failure), and its type
    identifier is built from the number the conversion returned with the
    error: 0 for a syntax error, the largest or smallest [int] for a range
    error. *)
Theorem malformed_number_literal
    p unit fnNode bodyNode vDeclar expNode ctx literalCtx lexeme parentIndex s
    err :
  pec_Literal ctx = Some literalCtx ->
  lit_NumberLiteral literalCtx = Some lexeme ->
  lit_BooleanLiteral literalCtx = None ->
  lit_StringLiteral literalCtx = None ->
  String.eqb (name_after ctx p) "_" = false ->
  readable ctx fnNode bodyNode = true ->
  parent_of expNode vDeclar bodyNode = Some parentIndex ->
  snd (strconv_Atoi (numerator_text (literal_value lexeme))) = Some err ->
  exists p' numerator,
    PrimaryExpression_Parse p unit fnNode bodyNode vDeclar expNode ctx s
      = Returns (p', s + 1)
    /\ p' = number_node lexeme
              (set_pe_IsPure true
                 (set_pe_NodeType NodeType_LITERAL
                    (identified fnNode bodyNode ctx
                       (head_node p unit expNode ctx s parentIndex))))
    /\ numerator = fst (strconv_Atoi (numerator_text (literal_value lexeme)))
    /\ pe_TypeDescription p' =
       Some {| TypeIdentifier :=
                 "t_rational_" ++ fmt_d numerator ++ "_by_"
                   ++ fmt_d (denominator_of (literal_value lexeme));
               TypeString :=
                 (if strings_Contains (literal_value lexeme) "."
                  then "fixed_const " else "int_const ") ++ lexeme |}
    /\ (err = ErrSyntax -> numerator = 0)
    /\ (err = ErrRange ->
        numerator = Int64.max_signed \/ numerator = Int64.min_signed).
Proof.
  intros Hlit Hnum Hbool Hstr Hname Hread Hparent Herr.
  eexists. eexists.
  split; [eapply Parse_number_literal; eassumption|].
  split; [reflexivity|]. split; [reflexivity|].
  split; [apply number_node_TypeDescription|].
  destruct (Atoi_errors _ _ Herr) as [[-> H0] | [-> H1]].
  - split; [intros _; exact H0 | discriminate].
  - split; [discriminate | intros _; exact H1].
Qed.

(** C2, amended. A number literal whose lexeme is digits, a decimal point
    and at most 18 digits, with the digits together denoting a number that
    fits [int], gets the identifier [t_rational_<numerator>_by_<denominator>],
    where the numerator is the integer the digits of both parts denote and
    the denominator is 10 to the number of fractional digits, and the string
    [fixed_const <lexeme>]; a lexeme of digits alone, denoting a number that
    fits [int], gets [t_rational_<value>_by_1] and [int_const <lexeme>]. *)
Theorem number_literal_rational :
  (forall p unit fnNode bodyNode vDeclar expNode ctx literalCtx a b parentIndex s,
      pec_Literal ctx = Some literalCtx ->
      lit_NumberLiteral literalCtx = Some (a ++ "." ++ b) ->
      lit_BooleanLiteral literalCtx = None ->
      lit_StringLiteral literalCtx = None ->
      String.eqb (name_after ctx p) "_" = false ->
      readable ctx fnNode bodyNode = true ->
      parent_of expNode vDeclar bodyNode = Some parentIndex ->
      all_digits a = true -> all_digits b = true ->
      (String.length b <=? 18)%nat = true ->
      (decimal_value (a ++ b) <=? Int64.max_signed) = true ->
      exists p',
        PrimaryExpression_Parse p unit fnNode bodyNode vDeclar expNode ctx s
          = Returns (p', s + 1)
        /\ pe_TypeDescription p' =
           Some {| TypeIdentifier :=
                     "t_rational_" ++ fmt_d (decimal_value (a ++ b)) ++ "_by_"
                       ++ fmt_d (10 ^ Z.of_nat (String.length b));
                   TypeString := "fixed_const " ++ (a ++ "." ++ b) |})
  /\ (forall p unit fnNode bodyNode vDeclar expNode ctx literalCtx lexeme
             parentIndex s,
         pec_Literal ctx = Some literalCtx ->
         lit_NumberLiteral literalCtx = Some lexeme ->
         lit_BooleanLiteral literalCtx = None ->
         lit_StringLiteral literalCtx = None ->
         String.eqb (name_after ctx p) "_" = false ->
         readable ctx fnNode bodyNode = true ->
         parent_of expNode vDeclar bodyNode = Some parentIndex ->
         all_digits lexeme = true ->
         (decimal_value lexeme <=? Int64.max_signed) = true ->
         exists p',
           PrimaryExpression_Parse p unit fnNode bodyNode vDeclar expNode ctx s
             = Returns (p', s + 1)
           /\ pe_TypeDescription p' =
              Some {| TypeIdentifier :=
                        "t_rational_" ++ fmt_d (decimal_value lexeme) ++ "_by_1";
                      TypeString := "int_const " ++ lexeme |}).
Proof.
  split.
  - intros p unit fnNode bodyNode vDeclar expNode ctx literalCtx a b
           parentIndex s Hlit Hnum Hbool Hstr Hname Hread Hparent Ha Hb Hlen Hmax.
    eexists. split; [eapply Parse_number_literal; eassumption|].
    rewrite number_node_TypeDescription.
    change (a ++ "." ++ b) with (a ++ String "." b).
    assert (Hplain : all_plain (a ++ String "." b) = true).
    { rewrite all_plain_app. cbn [all_plain].
      rewrite (all_digits_plain a Ha), (all_digits_plain b Hb). reflexivity. }
    rewrite (literal_value_plain _ Hplain).
    unfold numerator_text, denominator_of.
    rewrite contains_point, (split_decimal a b Ha Hb). cbn [nth].
    assert (Hab : all_digits (a ++ b) = true).
    { clear - Ha Hb. induction a as [|c a IH]; simpl in *; [exact Hb|].
      apply andb_true_iff in Ha as [Hc Ha]. rewrite Hc. auto. }
    apply Z.leb_le in Hmax. rewrite (Atoi_digits _ Hab Hmax).
    unfold int_of_pow10. rewrite Hlen. reflexivity.
  - intros p unit fnNode bodyNode vDeclar expNode ctx literalCtx lexeme
           parentIndex s Hlit Hnum Hbool Hstr Hname Hread Hparent Hd Hmax.
    eexists. split; [eapply Parse_number_literal; eassumption|].
    rewrite number_node_TypeDescription.
    rewrite (literal_value_plain _ (all_digits_plain _ Hd)).
    unfold numerator_text, denominator_of. rewrite (contains_digits _ Hd).
    apply Z.leb_le in Hmax. rewrite (Atoi_digits _ Hd Hmax). reflexivity.
Qed.


(** *** Fatal construction errors *)

Lemma bind_Panics {A B : Type} (m : Build A) (k : A -> Build B) (s : Z)
    (msg : string) :
  bind m k s = Panics msg ->
  m s = Panics msg \/ exists a s', m s = Returns (a, s') /\ k a s' = Panics msg.
Proof.
  unfold bind. destruct (m s) as [[a s'] | msg' | e |]; try discriminate.
  - intros H. right. eauto.
  - intros H. left. inversion H. reflexivity.
Qed.

Lemma deref_not_Panics {A : Type} (o : option A) s msg : deref o s <> Panics msg.
Proof. destruct o; discriminate. Qed.

Lemma mapping_TypeDescription_not_Panics node s msg :
  mapping_TypeDescription node s <> Panics msg.
Proof.
  unfold mapping_TypeDescription. intros H.
  repeat (apply bind_Panics in H as [H | (? & ? & _ & H)];
          [exact (deref_not_Panics _ _ _ H)|]).
  discriminate.
Qed.

Lemma tnc_recognized_children text start stop children :
  tnc_recognized (mkTypeNameContext text start stop children)
  = children_recognized children.
Proof.
  simpl; induction children as [|child rest IH]; simpl; congruence.
Qed.

Lemma first_child_In {A : Type} (select : TypeNameChild -> option A)
    (children : list TypeNameChild) (a : A) :
  first_child select children = Some a ->
  exists child, In child children /\ select child = Some a.
Proof.
  induction children as [|child rest IH]; simpl; [discriminate|].
  destruct (select child) as [x|] eqn:E.
  - intros H. inversion H; subst. eauto.
  - intros H. destruct (IH H) as (c & Hin & Hc). eauto.
Qed.

Lemma unrecognized_child ctx child :
  In child (tnc_GetChildren ctx) -> child_recognized child = false ->
  tnc_recognized ctx = false.
Proof.
  destruct ctx as [text start stop children]. rewrite tnc_recognized_children.
  simpl. intros Hin Hc.
  destruct (children_recognized children) eqn:E; [|reflexivity].
  unfold children_recognized in E. rewrite forallb_forall in E.
  rewrite (E _ Hin) in Hc. discriminate.
Qed.

Lemma function_type_unrecognized ctx f :
  tnc_FunctionTypeName ctx = Some f -> tnc_recognized ctx = false.
Proof.
  unfold tnc_FunctionTypeName. intros H.
  apply first_child_In in H as (child & Hin & Hc).
  apply (unrecognized_child _ _ Hin).
  destruct child; inversion Hc. reflexivity.
Qed.

Lemma mapping_type_unrecognized ctx m :
  tnc_MappingType ctx = Some m -> mtc_recognized m = false ->
  tnc_recognized ctx = false.
Proof.
  unfold tnc_MappingType. intros H Hm.
  apply first_child_In in H as (child & Hin & Hc).
  apply (unrecognized_child _ _ Hin).
  destruct child; inversion Hc; subst. exact Hm.
Qed.


Lemma parseTypeName_with_Panics generate t parentNodeId ctx s msg :
  generate_panics_on_unrecognized generate ->
  parseTypeName_with generate t parentNodeId ctx s = Panics msg ->
  tnc_recognized ctx = false.
Proof.
  intros Hgen H. unfold parseTypeName_with in H.
  apply bind_Panics in H as [H | (srcId & s1 & _ & H)]; [discriminate|].
  destruct (tnc_ElementaryTypeName ctx) as [e|].
  { destruct (normalizeTypeDescription _). discriminate. }
  destruct (tnc_MappingType ctx) as [m|] eqn:Em.
  { apply bind_Panics in H as [H | ([[? ?] ?] & ? & _ & H)]; [|discriminate].
    apply Hgen in H. exact (mapping_type_unrecognized _ _ Em H). }
  destruct (tnc_FunctionTypeName ctx) as [f|] eqn:Ef.
  { exact (function_type_unrecognized _ _ Ef). }
  exfalso.
  apply bind_Panics in H as [H | (t1 & s2 & _ & H)].
  { destruct (tnc_IdentifierPath ctx); [|discriminate].
    apply bind_Panics in H as [H | (? & ? & _ & H)]; [discriminate|].
    apply bind_Panics in H as [H | (? & ? & _ & H)]; discriminate. }
  apply bind_Panics in H as [H | (path & s3 & _ & H)].
  { exact (deref_not_Panics _ _ _ H). }
  destruct (ResolveByNode _ _) as [[? ?]|]; discriminate.
Qed.

Lemma generateTypeName_Panics (fuel : nat) :
  generate_panics_on_unrecognized (generateTypeName fuel).
Proof.
  induction fuel as [|fuel IH]; intros t ctx r s msg H; [discriminate|].
  simpl in H.
  apply bind_Panics in H as [H | (id & s1 & _ & H)]; [discriminate|].
  apply bind_Panics in H as [H | ([[typeName t1] r1] & s2 & _ & H)].
  2:{ exfalso. destruct (tn_TypeDescription typeName); [discriminate|].
      destruct (ResolveByNode _ _) as [[? ?]|]; discriminate. }
  destruct ctx as [keyCtx | mapCtx | tnCtx].
  - exfalso.
    apply bind_Panics in H as [H | (srcId & s2 & _ & H)]; [discriminate|].
    destruct (mkc_ElementaryTypeName keyCtx); [|discriminate].
    destruct (normalizeTypeDescription _). discriminate.
  - destruct mapCtx as [text start stop key value].
    simpl mtc_GetKey in H. simpl mtc_GetValue in H. simpl.
    destruct (store r t _) as [? ?].
    apply bind_Panics in H as [H | ([[? ?] ?] & ? & _ & H)].
    { apply IH in H. discriminate. }
    destruct (store _ _ _) as [? ?].
    apply bind_Panics in H as [H | ([[? ?] ?] & ? & _ & H)].
    { apply IH in H. exact H. }
    destruct (store _ _ _) as [? ?].
    apply bind_Panics in H as [H | (? & ? & _ & H)].
    { exfalso. exact (mapping_TypeDescription_not_Panics _ _ _ H). }
    destruct (store _ _ _) as [? ?]. discriminate.
  - simpl.
    apply bind_Panics in H as [H | (srcId & s2 & _ & H)]; [discriminate|].
    destruct (tnc_ElementaryTypeName tnCtx).
    { destruct (normalizeTypeDescription _). discriminate. }
    destruct (tnc_MappingType tnCtx) as [m|] eqn:Em.
    { apply bind_Panics in H as [H | ([[? ?] ?] & ? & _ & H)]; [|discriminate].
      apply IH in H. exact (mapping_type_unrecognized _ _ Em H). }
    destruct (tnc_FunctionTypeName tnCtx) as [f|] eqn:Ef.
    { exact (function_type_unrecognized _ _ Ef). }
    apply bind_Panics in H as [H | (? & ? & _ & H)]; [|discriminate].
    exact (parseTypeName_with_Panics _ _ _ _ _ _ IH H).
Qed.

Lemma Parse_children_Panics fuel parentNodeId children :
  forall t s msg,
    Parse_children fuel t parentNodeId children s = Panics msg ->
    children_recognized children = false.
Proof.
  induction children as [|child rest IH]; intros t s msg H; simpl in H.
  { discriminate. }
  simpl.
  apply bind_Panics in H as [H | (t1 & s1 & _ & H)].
  2:{ rewrite (IH _ _ _ H). apply andb_false_r. }
  apply andb_false_iff. left.
  destruct child as [e | m | f | path | c | text | goType]; try reflexivity.
  - exfalso. unfold parseElementaryTypeName in H.
    destruct (normalizeTypeDescription _). discriminate.
  - unfold parseMappingTypeName in H.
    destruct m as [text start stop key value].
    simpl mtc_GetKey in H. simpl mtc_GetValue in H. simpl.
    apply bind_Panics in H as [H | ([[? ?] ?] & ? & _ & H)].
    { apply generateTypeName_Panics in H. discriminate. }
    apply bind_Panics in H as [H | ([[? ?] ?] & ? & _ & H)].
    { apply generateTypeName_Panics in H. exact H. }
    apply bind_Panics in H as [H | (? & ? & _ & H)]; [|discriminate].
    exfalso. exact (mapping_TypeDescription_not_Panics _ _ _ H).
  - exfalso. unfold parseIdentifierPath in H.
    destruct (ipc_AllIdentifier path); [discriminate|].
    apply bind_Panics in H as [H | (? & ? & _ & H)]; [discriminate|].
    apply bind_Panics in H as [H | (? & ? & _ & H)]; [discriminate|].
    destruct (ResolveByNode _ _) as [[? ?]|]; discriminate.
  - simpl. unfold parseTypeName in H.
    exact (parseTypeName_with_Panics _ _ _ _ _ _
             (generateTypeName_Panics fuel) H).
  - discriminate.
Qed.

(** [TypeName.Parse] signals a fatal construction error only for a type
    name with a function-type spelling or a child of an unknown production
    in it. *)
Lemma TypeName_Parse_Panics fuel t parentNodeId ctx s msg :
  TypeName_Parse fuel t parentNodeId ctx s = Panics msg ->
  tnc_recognized ctx = false.
Proof.
  unfold TypeName_Parse. intros H.
  apply bind_Panics in H as [H | (id & s1 & _ & H)]; [discriminate|].
  apply bind_Panics in H as [H | (srcId & s2 & _ & H)]; [discriminate|].
  apply Parse_children_Panics in H.
  destruct ctx as [text start stop children].
  rewrite tnc_recognized_children. exact H.
Qed.


Lemma parseTypeName_function_type fuel t parentNodeId ctx f s :
  tnc_ElementaryTypeName ctx = None ->
  tnc_MappingType ctx = None ->
  tnc_FunctionTypeName ctx = Some f ->
  parseTypeName fuel t parentNodeId ctx s =
  Panics "Function type name is not supported yet @ TypeName.generateTypeName: *parser.TypeNameContext".
Proof.
  intros He Hm Hf. unfold parseTypeName, parseTypeName_with.
  unfold bind, GetNextID. rewrite He, Hm, Hf. reflexivity.
Qed.

Lemma generateTypeName_function_type fuel t ctx f r s :
  tnc_ElementaryTypeName ctx = None ->
  tnc_MappingType ctx = None ->
  tnc_FunctionTypeName ctx = Some f ->
  generateTypeName (S fuel) t (CtxTypeName ctx) r s =
  Panics "Function type name is not supported yet @ TypeName.generateTypeName: *parser.TypeNameContext".
Proof.
  intros He Hm Hf. simpl. unfold bind, GetNextID. rewrite He, Hm, Hf.
  reflexivity.
Qed.

(** A child of [TypeName.Parse] that is reached and belongs to no known
    production, a function type name among them, is a fatal error. *)
Lemma Parse_children_unknown_child fuel parentNodeId terminals child rest :
  forallb (fun c => match c with ChildTerminalNode _ => true | _ => false end)
    terminals = true ->
  match child with
  | ChildFunctionTypeName _ | ChildOther _ => True
  | _ => False
  end ->
  forall t s,
    Parse_children fuel t parentNodeId (terminals ++ child :: rest)%list s =
    Panics ("Unknown type name @ TypeName.Parse: " ++ child_goType child).
Proof.
  intros Hterm Hchild.
  induction terminals as [|c terminals IH]; intros t s.
  - simpl. destruct child; try contradiction; reflexivity.
  - simpl in Hterm. apply andb_true_iff in Hterm as [Hc Hterm].
    destruct c; try discriminate. simpl. unfold bind at 1. simpl.
    apply IH. exact Hterm.
Qed.

(** *** Expression statements *)

Lemma statement_loop_skips unit fnNode bodyNode parentNode ctx terminals rest s :
  forallb is_terminal terminals = true ->
  parseExpressionStatement_children unit fnNode bodyNode parentNode ctx
    (terminals ++ rest)%list s
  = parseExpressionStatement_children unit fnNode bodyNode parentNode ctx rest s.
Proof.
  induction terminals as [|child terminals IH]; simpl; [reflexivity|].
  intros H. apply andb_true_iff in H as [Hc Hrest].
  destruct child; try discriminate. apply IH. exact Hrest.
Qed.

Lemma parseExpressionStatement_terminals unit fnNode bodyNode parentNode ctx s :
  forallb is_terminal ctx = true ->
  parseExpressionStatement unit fnNode bodyNode parentNode ctx s
  = Returns (None, s).
Proof.
  unfold parseExpressionStatement. intros H.
  rewrite <- (app_nil_r ctx) at 2.
  rewrite (statement_loop_skips _ _ _ _ _ _ _ _ H). reflexivity.
Qed.

Lemma parseExpressionStatement_unrecognized
    unit fnNode bodyNode parentNode terminals goType rest s :
  forallb is_terminal terminals = true ->
  parseExpressionStatement unit fnNode bodyNode parentNode
    (terminals ++ ExprChild_Unrecognized goType :: rest)%list s
  = Panics ("Expression statement child not recognized @ ExpressionStatement.Parse: "
              ++ goType).
Proof.
  unfold parseExpressionStatement. intros H.
  rewrite (statement_loop_skips _ _ _ _ _ _ _ _ H). reflexivity.
Qed.

Lemma Parse_number_not_Panics text p s msg : Parse_number text p s <> Panics msg.
Proof. rewrite Parse_number_eq. discriminate. Qed.

Lemma PrimaryExpression_Parse_not_Panics
    p unit fnNode bodyNode vDeclar expNode ctx s msg :
  PrimaryExpression_Parse p unit fnNode bodyNode vDeclar expNode ctx s
  <> Panics msg.
Proof.
  rewrite Parse_blocks. unfold bind at 1. rewrite Parse_head_eq.
  destruct (parent_of expNode vDeclar bodyNode) as [parentIndex|];
    [|discriminate].
  unfold bind.
  match goal with
  | |- context [Parse_identifier ?f ?b ?c ?x ?s0] =>
      destruct (Parse_identifier_outcome f b c x s0) as [(q & Hq & _) | Hq];
        rewrite Hq; [|discriminate]
  end.
  unfold Parse_tail.
  destruct (String.eqb (pe_Name q) "_"); [discriminate|].
  destruct (pec_Literal ctx) as [literalCtx|]; [|discriminate].
  unfold Parse_literal.
  destruct (lit_BooleanLiteral literalCtx); [discriminate|].
  destruct (lit_StringLiteral literalCtx); [discriminate|].
  destruct (lit_NumberLiteral literalCtx); [apply Parse_number_not_Panics|].
  destruct (lit_HexStringLiteral literalCtx); [discriminate|].
  unfold bind.
  match goal with |- context [deref ?o ?s0] => destruct o as [d|] end;
    [|discriminate].
  simpl. destruct (String.eqb (TypeString d) ""); [|discriminate].
  destruct expNode; discriminate.
Qed.

Lemma statement_loop_Panics unit fnNode bodyNode parentNode ctx children s msg :
  parseExpressionStatement_children unit fnNode bodyNode parentNode ctx children s
  = Panics msg ->
  (exists terminals goType rest,
      children = (terminals ++ ExprChild_Unrecognized goType :: rest)%list
      /\ forallb is_terminal terminals = true
      /\ msg = "Expression statement child not recognized @ ExpressionStatement.Parse: "
                 ++ goType)
  \/ (exists d childCtx,
         delegate d unit fnNode bodyNode parentNode childCtx s = Panics msg).
Proof.
  induction children as [|child rest IH]; simpl; [discriminate|].
  destruct child as [c | c | c | c | c | c | text | goType]; intros H.
  1,2,4,5,6:
    right; apply bind_Panics in H as [H | (? & ? & _ & H)];
    [eauto | discriminate].
  - exfalso. apply bind_Panics in H as [H | (p0 & s1 & _ & H)]; [discriminate|].
    apply bind_Panics in H as [H | (? & ? & _ & H)]; [|discriminate].
    exact (PrimaryExpression_Parse_not_Panics _ _ _ _ _ _ _ _ _ H).
  - destruct (IH H) as [(terminals & goType & rest' & -> & Hterm & ->) | Hd].
    + left. exists (ExprChild_TerminalNode text :: terminals), goType, rest'.
      repeat split. simpl. exact Hterm.
    + right. exact Hd.
  - left. exists [], goType, rest. inversion H. repeat split.
Qed.

(** The statement signals the fatal error of its own exactly when the
    first child that is not a terminal belongs to no production with a
    delegate; any other fatal error is that of a delegate. *)
Lemma parseExpressionStatement_Panics unit fnNode bodyNode parentNode ctx s msg :
  parseExpressionStatement unit fnNode bodyNode parentNode ctx s = Panics msg ->
  (exists terminals goType rest,
      ctx = (terminals ++ ExprChild_Unrecognized goType :: rest)%list
      /\ forallb is_terminal terminals = true
      /\ msg = "Expression statement child not recognized @ ExpressionStatement.Parse: "
                 ++ goType)
  \/ (exists d childCtx,
         delegate d unit fnNode bodyNode parentNode childCtx s = Panics msg).
Proof. apply statement_loop_Panics. Qed.

(** C8 fails on the code: the nested array type [uint256[][]] has no
    function-type spelling and no child of an unknown production, yet its
    translation aborts: [parseTypeName], given the array type [uint256[]],
    calls [pathCtx.GetText()] on the nil identifier path.  And
    [function()[][]], which has a function-type spelling in it, aborts on
    the same nil pointer, not with the fatal error of the function type. *)
Theorem nested_array_nil_dereference :
  forall fuel t parentNodeId s,
    tnc_recognized sample_nested_array = true
    /\ TypeName_Parse fuel t parentNodeId sample_nested_array s
       = RuntimePanics NilDereference
    /\ tnc_recognized sample_function_array = false
    /\ TypeName_Parse fuel t parentNodeId sample_function_array s
       = RuntimePanics NilDereference.
Proof.
  intros. repeat split; reflexivity.
Qed.


(** *** Bookkeeping of [PrimaryExpression.Parse] *)

Lemma head_node_ArgumentTypes p unit expNode ctx srcId parentIndex :
  pe_ArgumentTypes (head_node p unit expNode ctx srcId parentIndex)
  = (pe_ArgumentTypes p ++ call_arguments expNode)%list
  /\ pe_OverloadedDeclarations (head_node p unit expNode ctx srcId parentIndex)
     = pe_OverloadedDeclarations p.
Proof.
  unfold head_node, call_arguments.
  destruct (String.eqb (pec_GetText ctx) "msg");
    destruct (String.eqb (pec_GetText ctx) "block");
    destruct (String.eqb (pec_GetText ctx) "this");
    destruct expNode as [[id td arguments | id td]|]; simpl;
    rewrite ?app_nil_r; split; reflexivity.
Qed.

Lemma Parse_identifier_keeps fnNode bodyNode ctx p s q s' :
  Parse_identifier fnNode bodyNode ctx p s = Returns (q, s') ->
  s' = s /\ pe_Id q = pe_Id p
  /\ pe_OverloadedDeclarations q = pe_OverloadedDeclarations p
  /\ pe_ArgumentTypes q = pe_ArgumentTypes p.
Proof.
  unfold Parse_identifier. intros H.
  destruct (pec_Identifier ctx) as [name|].
  - bind_inv H. ret_inv H. apply Parse_scopes_same in Hm as [Ha ->].
    pose proof (Parse_resolver_same a) as Hb.
    destruct (same_node_trans _ _ _ Ha Hb)
      as (Hid & _ & _ & _ & _ & _ & _ & Hov & _ & Harg).
    simpl in *. auto.
  - ret_inv H. auto.
Qed.

Lemma Parse_tail_keeps expNode ctx p s q s' :
  Parse_tail expNode ctx p s = Returns (q, s') ->
  s' = s /\ pe_Id q = pe_Id p /\ pe_Src q = pe_Src p
  /\ pe_ReferencedDeclaration q = pe_ReferencedDeclaration p
  /\ pe_OverloadedDeclarations q = pe_OverloadedDeclarations p
  /\ pe_ArgumentTypes q = pe_ArgumentTypes p.
Proof.
  unfold Parse_tail. intros H.
  destruct (String.eqb (pe_Name p) "_"). { ret_inv H. simpl. auto 7. }
  destruct (pec_Literal ctx) as [literalCtx|]; [|ret_inv H; auto 7].
  unfold Parse_literal in H.
  destruct (lit_BooleanLiteral literalCtx).
  { ret_inv H. simpl.
    destruct (String.eqb _ "true" || String.eqb _ "false"); simpl; auto 7. }
  destruct (lit_StringLiteral literalCtx). { ret_inv H. simpl. auto 7. }
  destruct (lit_NumberLiteral literalCtx).
  { rewrite Parse_number_eq in H. inversion H; subst. simpl. auto 7. }
  destruct (lit_HexStringLiteral literalCtx). { discriminate. }
  bind_inv H. apply deref_Returns in Hm as [_ ->].
  destruct (String.eqb (TypeString a) "").
  - destruct expNode; ret_inv H;
      destruct (String.eqb (pec_GetText ctx) "msg"); simpl; auto 7.
  - ret_inv H. destruct (String.eqb (pec_GetText ctx) "msg"); simpl; auto 7.
Qed.

Lemma PrimaryExpression_Parse_keeps
    p unit fnNode bodyNode vDeclar expNode ctx s p' s' :
  PrimaryExpression_Parse p unit fnNode bodyNode vDeclar expNode ctx s
    = Returns (p', s') ->
  s' = s + 1
  /\ pe_Id p' = pe_Id p
  /\ src_Id (pe_Src p') = s
  /\ parent_of expNode vDeclar bodyNode = Some (src_ParentIndex (pe_Src p'))
  /\ pe_OverloadedDeclarations p' = pe_OverloadedDeclarations p
  /\ pe_ArgumentTypes p'
     = (pe_ArgumentTypes p ++ call_arguments expNode)%list.
Proof.
  rewrite Parse_blocks. intros H. bind_inv H. bind_inv H.
  apply Parse_tail_keeps in H as (-> & Hid & Hsrc & _ & Hov & Harg).
  pose proof (Parse_identifier_Src _ _ _ _ _ _ _ Hm0) as Hsrc0.
  apply Parse_identifier_keeps in Hm0 as (-> & Hid0 & Hov0 & Harg0).
  rewrite Parse_head_eq in Hm.
  destruct (parent_of expNode vDeclar bodyNode) as [parentIndex|];
    [|discriminate].
  inversion Hm; subst.
  destruct (head_node_fields p unit expNode ctx s parentIndex) as (Hhid & _).
  destruct (head_node_ArgumentTypes p unit expNode ctx s parentIndex)
    as [Hharg Hhov].
  rewrite Hsrc, Hsrc0, head_node_Src, Hid, Hid0, Hhid, Hov, Hov0, Hhov,
    Harg, Harg0, Hharg.
  simpl. repeat split; reflexivity.
Qed.

(** X1. Whenever [Parse] returns, it has drawn exactly one identifier, the
    one of the span; the node keeps its own id and its overloaded
    declarations; the span points at the enclosing expression, else at the
    variable declaration, else at the body; and the argument types are
    those the node had, followed by the type descriptions of the arguments
    of the enclosing call when the enclosing expression is a function call. *)
Theorem Parse_bookkeeping
    p unit fnNode bodyNode vDeclar expNode ctx s p' s' :
  PrimaryExpression_Parse p unit fnNode bodyNode vDeclar expNode ctx s
    = Returns (p', s') ->
  s' = s + 1
  /\ pe_Id p' = pe_Id p
  /\ src_Id (pe_Src p') = s
  /\ parent_of expNode vDeclar bodyNode = Some (src_ParentIndex (pe_Src p'))
  /\ pe_OverloadedDeclarations p' = pe_OverloadedDeclarations p
  /\ pe_ArgumentTypes p'
     = (pe_ArgumentTypes p ++ call_arguments expNode)%list.
Proof.
  rewrite Parse_blocks. intros H. bind_inv H. bind_inv H.
  apply Parse_tail_keeps in H as (-> & Hid & Hsrc & _ & Hov & Harg).
  pose proof (Parse_identifier_Src _ _ _ _ _ _ _ Hm0) as Hsrc0.
  apply Parse_identifier_keeps in Hm0 as (-> & Hid0 & Hov0 & Harg0).
  rewrite Parse_head_eq in Hm.
  destruct (parent_of expNode vDeclar bodyNode) as [parentIndex|];
    [|discriminate].
  inversion Hm; subst.
  destruct (head_node_fields p unit expNode ctx s parentIndex) as (Hhid & _).
  destruct (head_node_ArgumentTypes p unit expNode ctx s parentIndex)
    as [Hharg Hhov].
  rewrite Hsrc, Hsrc0, head_node_Src, Hid, Hid0, Hhid, Hov, Hov0, Hhov,
    Harg, Harg0, Hharg.
  simpl. repeat split; reflexivity.
Qed.

(** X2. [Parse] returns a node or dereferences a nil pointer, and nothing
    else: it never panics with a message, the index into the parts of a
    number with a decimal point is never out of range, and without an
    enclosing expression, variable declaration or body it always
    dereferences nil ([bodyNode.GetId()] on the nil body). *)
Theorem Parse_returns_or_dereferences_nil
    p unit fnNode bodyNode vDeclar expNode ctx s :
  ((exists p', PrimaryExpression_Parse p unit fnNode bodyNode vDeclar expNode
                 ctx s = Returns (p', s + 1))
   \/ PrimaryExpression_Parse p unit fnNode bodyNode vDeclar expNode ctx s
      = RuntimePanics NilDereference)
  /\ (parent_of expNode vDeclar bodyNode = None ->
      PrimaryExpression_Parse p unit fnNode bodyNode vDeclar expNode ctx s
      = RuntimePanics NilDereference).
Proof.
  assert (E : PrimaryExpression_Parse p unit fnNode bodyNode vDeclar expNode
                ctx s =
              match parent_of expNode vDeclar bodyNode with
              | Some parentIndex =>
                  (p2 <- Parse_identifier fnNode bodyNode ctx
                           (head_node p unit expNode ctx s parentIndex) ;;
                   Parse_tail expNode ctx p2) (s + 1)
              | None => RuntimePanics NilDereference
              end).
  { rewrite Parse_blocks. unfold bind at 1. rewrite Parse_head_eq.
    destruct (parent_of expNode vDeclar bodyNode); reflexivity. }
  rewrite E. clear E.
  destruct (parent_of expNode vDeclar bodyNode) as [parentIndex|];
    [|split; [right|intros _]; reflexivity].
  split; [|discriminate].
  unfold bind.
  match goal with
  | |- context [Parse_identifier ?f ?b ?c ?x ?s0] =>
      destruct (Parse_identifier_outcome f b c x s0) as [(q & Hq & _) | Hq];
        rewrite Hq; [|right; reflexivity]
  end.
  unfold Parse_tail.
  destruct (String.eqb (pe_Name q) "_"); [left; eexists; reflexivity|].
  destruct (pec_Literal ctx) as [literalCtx|]; [|left; eexists; reflexivity].
  unfold Parse_literal.
  destruct (lit_BooleanLiteral literalCtx); [left; eexists; reflexivity|].
  destruct (lit_StringLiteral literalCtx); [left; eexists; reflexivity|].
  destruct (lit_NumberLiteral literalCtx).
  { left. rewrite Parse_number_eq. eexists. reflexivity. }
  destruct (lit_HexStringLiteral literalCtx); [right; reflexivity|].
  unfold bind.
  match goal with |- context [deref ?o ?s0] => destruct o as [d|] end;
    [|right; reflexivity].
  simpl. destruct (String.eqb (TypeString d) ""); [|left; eexists; reflexivity].
  destruct expNode; left; eexists; reflexivity.
Qed.


(** *** The Resolver, the literals and the pseudo-globals *)

Lemma head_node_plain p unit expNode ctx srcId parentIndex :
  magic_text ctx = false ->
  pe_TypeDescription (head_node p unit expNode ctx srcId parentIndex)
  = pe_TypeDescription p.
Proof.
  unfold magic_text, head_node. intros H.
  apply orb_false_iff in H as [H Hthis]. apply orb_false_iff in H as [Hmsg Hblock].
  rewrite Hmsg, Hblock, Hthis.
  destruct expNode as [[id td arguments | id td]|]; reflexivity.
Qed.

Lemma resolved_same (q : PrimaryExpression) :
  resolved q (pe_TypeDescription q, pe_ReferencedDeclaration q) = q.
Proof. destruct q. reflexivity. Qed.

Lemma scope_resolution_unshadowed fnNode bodyNode ctx name q :
  pec_Identifier ctx = Some name ->
  shadowed ctx fnNode bodyNode = false ->
  scope_resolution name fnNode bodyNode q
  = (pe_TypeDescription q, pe_ReferencedDeclaration q).
Proof.
  unfold shadowed, scope_resolution, parameter_shadows. intros -> H.
  apply orb_false_iff in H as [Hpar Hloc].
  destruct (local_declaration name (statements_of bodyNode)); [discriminate|].
  destruct (parameter_named name (parameters_of fnNode)) as [param|];
    [|reflexivity].
  destruct (par_GetTypeName param); [discriminate | reflexivity].
Qed.

(** X3. An identifier that no parameter and no local declaration takes,
    and that is not a pseudo-global, is handed to the Resolver together
    with the node as it stands: what the Resolver finds is recorded (the id
    and the type description it gives, which may be nil); when it finds
    nothing, [Parse] still returns, and the node is left without type
    description and with the referenced declaration it had, also when it is
    the argument of a call (no type is taken over from the call). *)
Theorem resolver_fallback
    p unit fnNode bodyNode vDeclar expNode ctx name parentIndex s :
  pec_Identifier ctx = Some name ->
  pec_Literal ctx = None ->
  magic_text ctx = false ->
  pe_TypeDescription p = None ->
  shadowed ctx fnNode bodyNode = false ->
  readable ctx fnNode bodyNode = true ->
  parent_of expNode vDeclar bodyNode = Some parentIndex ->
  exists p',
    PrimaryExpression_Parse p unit fnNode bodyNode vDeclar expNode ctx s
      = Returns (p', s + 1)
    /\ pe_Name p' = name
    /\ match ResolveByNode
               (SubjectPrimaryExpression
                  (set_pe_Name name (head_node p unit expNode ctx s parentIndex)))
               name with
       | Some (refId, refTypeDescription) =>
           pe_ReferencedDeclaration p' = refId
           /\ pe_TypeDescription p' = refTypeDescription
       | None =>
           pe_ReferencedDeclaration p' = pe_ReferencedDeclaration p
           /\ pe_TypeDescription p' = None
       end.
Proof.
  intros Hid Hlit Hmagic Htd Hsh Hread Hparent.
  rewrite (Parse_eq _ _ _ _ _ _ _ _ Hread), Hparent.
  set (h := head_node p unit expNode ctx s parentIndex).
  assert (Hh : pe_TypeDescription h = None)
    by (unfold h; rewrite head_node_plain; assumption).
  assert (Hhr : pe_ReferencedDeclaration h = pe_ReferencedDeclaration p).
  { destruct (head_node_fields p unit expNode ctx s parentIndex)
      as (_ & _ & _ & _ & _ & _ & _ & H). exact H. }
  assert (Hq : identified fnNode bodyNode ctx h = Parse_resolver (set_pe_Name name h)).
  { unfold identified. rewrite Hid.
    rewrite (scope_resolution_unshadowed _ _ _ _ _ Hid Hsh), resolved_same.
    reflexivity. }
  rewrite Hq. unfold Parse_tail, Parse_resolver. rewrite Hlit.
  change (pe_TypeDescription (set_pe_Name name h)) with (pe_TypeDescription h).
  rewrite Hh. change (pe_Name (set_pe_Name name h)) with name.
  destruct (ResolveByNode (SubjectPrimaryExpression (set_pe_Name name h)) name)
    as [[refId refTd]|].
  - destruct (String.eqb _ "_"); eexists; (split; [reflexivity|]); simpl; auto.
  - destruct (String.eqb _ "_"); eexists; (split; [reflexivity|]); simpl; auto.
Qed.

Lemma identified_typed fnNode bodyNode ctx p :
  typed_before_resolver fnNode bodyNode ctx p = true ->
  identified fnNode bodyNode ctx p =
  match pec_Identifier ctx with
  | Some name =>
      resolved (set_pe_Name name p)
        (scope_resolution name fnNode bodyNode (set_pe_Name name p))
  | None => p
  end.
Proof.
  unfold typed_before_resolver, identified.
  destruct (pec_Identifier ctx) as [name|]; [|reflexivity].
  intros H. unfold Parse_resolver.
  destruct (scope_resolution name fnNode bodyNode (set_pe_Name name p))
    as [[td|] r]; [reflexivity | discriminate].
Qed.

(** [Parse] without its Resolver, for a node the scopes have typed. *)
Lemma Parse_typed_eq p unit fnNode bodyNode vDeclar expNode ctx parentIndex s :
  readable ctx fnNode bodyNode = true ->
  parent_of expNode vDeclar bodyNode = Some parentIndex ->
  typed_before_resolver fnNode bodyNode ctx
    (head_node p unit expNode ctx s parentIndex) = true ->
  PrimaryExpression_Parse p unit fnNode bodyNode vDeclar expNode ctx s =
  Parse_tail expNode ctx
    match pec_Identifier ctx with
    | Some name =>
        resolved (set_pe_Name name (head_node p unit expNode ctx s parentIndex))
          (scope_resolution name fnNode bodyNode
             (set_pe_Name name (head_node p unit expNode ctx s parentIndex)))
    | None => head_node p unit expNode ctx s parentIndex
    end (s + 1).
Proof.
  intros Hread Hparent Htyped.
  rewrite (Parse_eq _ _ _ _ _ _ _ _ Hread), Hparent.
  rewrite (identified_typed _ _ _ _ Htyped). reflexivity.
Qed.

(** X5. A node [Parse] returns for a boolean, string or number literal is
    a pure literal node whose hex value is the hex encoding of its value,
    and whose kind, value and type description come from the literal alone:
    [t_bool] for a boolean, [t_string_literal] with the lexeme as written
    for a string, whose name is emptied.  (A hex-string literal never gets
    that far.) *)
Theorem literal_node
    p unit fnNode bodyNode vDeclar expNode ctx literalCtx s p' s' :
  PrimaryExpression_Parse p unit fnNode bodyNode vDeclar expNode ctx s
    = Returns (p', s') ->
  pec_Literal ctx = Some literalCtx ->
  known_literal ctx = true ->
  String.eqb (name_after ctx p) "_" = false ->
  pe_NodeType p' = NodeType_LITERAL
  /\ pe_IsPure p' = true
  /\ pe_HexValue p' = hex_EncodeToString (pe_Value p')
  /\ match lit_BooleanLiteral literalCtx with
     | Some text =>
         pe_Kind p' = NodeType_BOOLEAN /\ pe_Value p' = literal_value text
         /\ pe_TypeDescription p'
            = Some {| TypeIdentifier := "t_bool"; TypeString := "bool" |}
     | None =>
         match lit_StringLiteral literalCtx with
         | Some text =>
             pe_Kind p' = NodeType_STRING /\ pe_Value p' = literal_value text
             /\ pe_Name p' = ""
             /\ pe_TypeDescription p'
                = Some {| TypeIdentifier := "t_string_literal";
                          TypeString := "literal_string " ++ text |}
         | None =>
             exists text,
               lit_NumberLiteral literalCtx = Some text
               /\ pe_Kind p' = NodeType_NUMBER
               /\ pe_Value p' = literal_value text
         end
     end.
Proof.
  rewrite Parse_blocks. intros H Hlit Hknown Hname.
  bind_inv H. bind_inv H.
  rewrite Parse_head_eq in Hm.
  destruct (parent_of expNode vDeclar bodyNode) as [parentIndex|];
    [|discriminate].
  inversion Hm; subst. clear Hm.
  match type of Hm0 with
  | Parse_identifier ?f ?b ?c ?x ?s0 = _ =>
      destruct (Parse_identifier_outcome f b c x s0) as [(q & Hq & Hn) | Hq];
        rewrite Hq in Hm0; [|discriminate]
  end.
  inversion Hm0; subst. clear Hm0.
  assert (Hhead : name_after ctx (head_node p unit expNode ctx s parentIndex)
                  = name_after ctx p).
  { unfold name_after. destruct (pec_Identifier ctx); [reflexivity|].
    destruct (head_node_fields p unit expNode ctx s parentIndex)
      as (_ & _ & _ & _ & _ & Hx & _). exact Hx. }
  unfold Parse_tail in H. rewrite Hn, Hhead, Hname, Hlit in H.
  unfold known_literal in Hknown. rewrite Hlit in Hknown.
  unfold Parse_literal in H.
  destruct (lit_BooleanLiteral literalCtx) as [text|].
  { ret_inv H.
    match goal with
    | |- context [if ?c then _ else _] => destruct c
    end; simpl; repeat split; reflexivity. }
  destruct (lit_StringLiteral literalCtx) as [text|].
  { ret_inv H. simpl. repeat split; reflexivity. }
  destruct (lit_NumberLiteral literalCtx) as [text|].
  { rewrite Parse_number_eq in H. inversion H; subst. simpl.
    repeat split. exists text. repeat split. }
  destruct (lit_HexStringLiteral literalCtx); discriminate.
Qed.

(** X6. A literal production that is none of the four literals [Parse]
    knows (a unicode string literal, say), without identifier, whose text is
    no pseudo-global, on a node without type description: [Parse] reads
    [p.TypeDescription.TypeString] through the nil pointer and produces no
    node. *)
Theorem unknown_literal_nil_dereference
    p unit fnNode bodyNode vDeclar expNode ctx literalCtx s :
  pec_Literal ctx = Some literalCtx ->
  known_literal ctx = false ->
  pec_Identifier ctx = None ->
  String.eqb (pe_Name p) "_" = false ->
  magic_text ctx = false ->
  pe_TypeDescription p = None ->
  PrimaryExpression_Parse p unit fnNode bodyNode vDeclar expNode ctx s
  = RuntimePanics NilDereference.
Proof.
  intros Hlit Hknown Hid Hname Hmagic Htd.
  assert (Hread : readable ctx fnNode bodyNode = true)
    by (unfold readable; rewrite Hid; reflexivity).
  rewrite (Parse_eq _ _ _ _ _ _ _ _ Hread).
  destruct (parent_of expNode vDeclar bodyNode) as [parentIndex|];
    [|reflexivity].
  unfold identified. rewrite Hid.
  destruct (head_node_fields p unit expNode ctx s parentIndex)
    as (_ & _ & _ & _ & _ & Hn & _).
  unfold Parse_tail. rewrite Hn, Hname, Hlit. unfold Parse_literal.
  unfold known_literal in Hknown. rewrite Hlit in Hknown.
  destruct (lit_BooleanLiteral literalCtx); [discriminate|].
  destruct (lit_StringLiteral literalCtx); [discriminate|].
  destruct (lit_NumberLiteral literalCtx); [discriminate|].
  destruct (lit_HexStringLiteral literalCtx); [discriminate|].
  pose proof Hmagic as Hmagic'. unfold magic_text in Hmagic'.
  apply orb_false_iff in Hmagic' as [Hm _]. apply orb_false_iff in Hm as [Hmsg _].
  rewrite Hmsg.
  unfold bind.
  match goal with
  | |- context [deref ?o] => replace o with (@None TypeDescription)
  end; [reflexivity|].
  symmetry.
  change (pe_TypeDescription (head_node p unit expNode ctx s parentIndex) = None).
  rewrite head_node_plain; assumption.
Qed.


Lemma head_node_block p unit expNode ctx srcId parentIndex :
  pec_GetText ctx = "block" ->
  pe_TypeDescription (head_node p unit expNode ctx srcId parentIndex)
  = Some magic_block.
Proof.
  intros H. unfold head_node. rewrite H. simpl.
  destruct expNode as [[id td arguments | id td]|]; reflexivity.
Qed.

Lemma head_node_this p unit expNode ctx srcId parentIndex :
  pec_GetText ctx = "this" ->
  pe_TypeDescription (head_node p unit expNode ctx srcId parentIndex)
  = unit_GetTypeDescription unit.
Proof.
  intros H. unfold head_node. rewrite H. simpl.
  destruct expNode as [[id td arguments | id td]|]; reflexivity.
Qed.

(** X7. For an identifier production (no literal) whose text no declaration
    of the enclosing scopes takes: the text [block] gets the block type
    description ([t_magic_block], [block]), and the text [this] gets the
    type description of the contract, when the contract has one. *)
Theorem block_and_this_types
    p unit fnNode bodyNode vDeclar expNode ctx parentIndex s :
  pec_Literal ctx = None ->
  shadowed ctx fnNode bodyNode = false ->
  readable ctx fnNode bodyNode = true ->
  parent_of expNode vDeclar bodyNode = Some parentIndex ->
  (pec_GetText ctx = "block" ->
   exists p',
     PrimaryExpression_Parse p unit fnNode bodyNode vDeclar expNode ctx s
       = Returns (p', s + 1)
     /\ pe_TypeDescription p' = Some magic_block)
  /\ (forall contract,
        pec_GetText ctx = "this" ->
        unit_GetTypeDescription unit = Some contract ->
        exists p',
          PrimaryExpression_Parse p unit fnNode bodyNode vDeclar expNode ctx s
            = Returns (p', s + 1)
          /\ pe_TypeDescription p' = Some contract).
Proof.
  intros Hlit Hsh Hread Hparent.
  rewrite (Parse_eq _ _ _ _ _ _ _ _ Hread), Hparent.
  assert (Htail : forall td,
             pe_TypeDescription (head_node p unit expNode ctx s parentIndex)
             = Some td ->
             exists p',
               Parse_tail expNode ctx
                 (identified fnNode bodyNode ctx
                    (head_node p unit expNode ctx s parentIndex)) (s + 1)
               = Returns (p', s + 1)
               /\ pe_TypeDescription p' = Some td).
  { intros td Hhead.
    destruct (identified_unshadowed fnNode bodyNode ctx
                (head_node p unit expNode ctx s parentIndex) td Hsh Hhead)
      as [Htd _].
    unfold Parse_tail. rewrite Hlit.
    destruct (String.eqb _ "_"); eexists; (split; [reflexivity | exact Htd]). }
  split.
  - intros Htext. apply Htail. apply head_node_block. exact Htext.
  - intros contract Htext Hunit. apply Htail.
    rewrite head_node_this by exact Htext. exact Hunit.
Qed.


(** *** The children of an expression statement *)

(** X8. The first child of an expression statement that is not a terminal
    decides: the terminals before it are skipped without drawing an id, and
    the children behind it get no translator of their own, the outcome being
    that of the loop over this child alone in the same statement.  Unless
    the deciding child is an assignment, whose translator is handed the
    whole statement, it is the outcome for the statement that consists of
    this child alone. *)
Theorem expression_statement_first_child_decides
    unit fnNode bodyNode parentNode terminals child rest s :
  forallb is_terminal terminals = true ->
  is_terminal child = false ->
  parseExpressionStatement unit fnNode bodyNode parentNode
    (terminals ++ child :: rest)%list s
  = parseExpressionStatement_children unit fnNode bodyNode parentNode
      (terminals ++ child :: rest)%list [child] s
  /\ (is_assignment child = false ->
      parseExpressionStatement unit fnNode bodyNode parentNode
        (terminals ++ child :: rest)%list s
      = parseExpressionStatement unit fnNode bodyNode parentNode [child] s).
Proof.
  unfold parseExpressionStatement. intros Hterm Hchild.
  rewrite (statement_loop_skips _ _ _ _ _ _ _ _ Hterm).
  split.
  - destruct child; try discriminate; reflexivity.
  - intros Hassign. destruct child; try discriminate; reflexivity.
Qed.

(** X9. An expression statement yields no node (the nil after the loop)
    exactly when all its children are terminals, the empty statement among
    them; it has then drawn no id. *)
Theorem expression_statement_nil_iff_terminals
    unit fnNode bodyNode parentNode ctx s :
  (forallb is_terminal ctx = true ->
   parseExpressionStatement unit fnNode bodyNode parentNode ctx s
   = Returns (None, s))
  /\ (forall s',
        parseExpressionStatement unit fnNode bodyNode parentNode ctx s
        = Returns (None, s') ->
        forallb is_terminal ctx = true /\ s' = s).
Proof.
  split; [apply parseExpressionStatement_terminals|].
  unfold parseExpressionStatement.
  assert (Hloop : forall whole children s',
             parseExpressionStatement_children unit fnNode bodyNode parentNode
               whole children s = Returns (None, s') ->
             forallb is_terminal children = true /\ s' = s).
  { intros whole children.
    induction children as [|child rest IH]; intros s' H; simpl in H.
    { ret_inv H. split; reflexivity. }
    destruct child as [c | c | c | c | c | c | text | goType];
      try (bind_inv H; ret_inv H; fail).
    - bind_inv H. bind_inv H. ret_inv H.
    - simpl. apply IH. exact H.
    - discriminate. }
  apply Hloop.
Qed.

(** X10. When the first child that is not a terminal belongs to none of
    the six productions of the type switch, the statement aborts with the
    fatal error that names the Go type of the child. *)
Theorem expression_statement_unrecognized_child
    unit fnNode bodyNode parentNode terminals goType rest s :
  forallb is_terminal terminals = true ->
  parseExpressionStatement unit fnNode bodyNode parentNode
    (terminals ++ ExprChild_Unrecognized goType :: rest)%list s
  = Panics ("Expression statement child not recognized @ ExpressionStatement.Parse: "
              ++ goType).
Proof.
  unfold parseExpressionStatement. intros Hterm.
  rewrite (statement_loop_skips _ _ _ _ _ _ _ _ Hterm). reflexivity.
Qed.

(** X11. A fatal error of an expression statement is either its own, for
    a first non-terminal child of an unknown production and with the message
    that names it, or the fatal error of one of the translators it delegates
    to; a primary expression child never causes one. *)
Theorem expression_statement_fatal_errors
    unit fnNode bodyNode parentNode ctx s msg :
  parseExpressionStatement unit fnNode bodyNode parentNode ctx s = Panics msg ->
  (exists terminals goType rest,
      ctx = (terminals ++ ExprChild_Unrecognized goType :: rest)%list
      /\ forallb is_terminal terminals = true
      /\ msg = "Expression statement child not recognized @ ExpressionStatement.Parse: "
                 ++ goType)
  \/ (exists d childCtx,
         delegate d unit fnNode bodyNode parentNode childCtx s = Panics msg).
Proof.
  unfold parseExpressionStatement. intros H.
  destruct (statement_loop_Panics _ _ _ _ _ _ _ _ H)
    as [(terminals & goType & rest & Hctx & Hterm & Hmsg) | (d & childCtx & Hd)].
  - left. exists terminals, goType, rest. repeat split; assumption.
  - right. exists d, childCtx. exact Hd.
Qed.

(** X12. A primary expression as the deciding child: the statement creates
    the node and translates it with no variable declaration around, so the
    node carries the first id drawn and its span the second, the span points
    at the parent expression, else at the body, the overloaded declarations
    are empty and the argument types are those of the parent call. *)
Theorem expression_statement_primary_expression
    unit fnNode bodyNode parentNode terminals childCtx rest s node s' :
  forallb is_terminal terminals = true ->
  parseExpressionStatement unit fnNode bodyNode parentNode
    (terminals ++ ExprChild_PrimaryExpression childCtx :: rest)%list s
  = Returns (node, s') ->
  exists p,
    node = Some (NodePrimaryExpression p)
    /\ s' = s + 2
    /\ pe_Id p = s
    /\ src_Id (pe_Src p) = s + 1
    /\ parent_of parentNode None bodyNode = Some (src_ParentIndex (pe_Src p))
    /\ pe_OverloadedDeclarations p = []
    /\ pe_ArgumentTypes p = call_arguments parentNode.
Proof.
  intros Hterm H.
  unfold parseExpressionStatement in H.
  rewrite (statement_loop_skips _ _ _ _ _ _ _ _ Hterm) in H. simpl in H.
  bind_inv H. bind_inv H. ret_inv H.
  unfold NewPrimaryExpression in Hm. bind_inv Hm.
  assert (a1 = s /\ s2 = s + 1) as [-> ->]
    by (unfold GetNextID in Hm1; inversion Hm1; auto).
  ret_inv Hm.
  apply PrimaryExpression_Parse_keeps in Hm0
    as (-> & Hid & Hsrc & Hparent & Hov & Harg).
  eexists. split; [reflexivity|]. simpl in *.
  replace (s + 1 + 1) with (s + 2) by lia.
  repeat split; assumption.
Qed.


(** *** Fresh ids in the tree of a type name *)

Lemma GetNextID_Returns s a s' :
  GetNextID s = Returns (a, s') -> a = s /\ s' = s + 1.
Proof. unfold GetNextID. intros H. inversion H. split; reflexivity. Qed.

(** Splits a [GetNextID] at the head of a computation that returned. *)
Ltac next_id H :=
  let Hid := fresh "Hid" in
  apply bind_Returns in H; destruct H as (? & ? & Hid & H);
  apply GetNextID_Returns in Hid; destruct Hid as [-> ->].

Lemma ids_in_unfold lo hi t :
  ids_in lo hi t <->
  lo <= tn_Id t < hi /\ lo <= src_Id (tn_Src t) < hi
  /\ match tn_KeyType t with Some k => ids_in lo hi k | None => True end
  /\ match tn_ValueType t with Some v => ids_in lo hi v | None => True end
  /\ Forall (fun id => lo <= id < hi) (path_ids (tn_PathNode t)).
Proof.
  destruct t as [id nt src name td k v pn sm rd]. unfold ids_in. simpl.
  rewrite !Forall_cons_iff, !Forall_app.
  destruct k, v; simpl; rewrite ?Forall_nil_iff; logic.
Qed.

Lemma ids_in_mono lo hi hi' t : hi <= hi' -> ids_in lo hi t -> ids_in lo hi' t.
Proof.
  intros Hle. unfold ids_in. apply Forall_impl. intros id. lia.
Qed.

Lemma ref_ids_in_mono lo hi hi' r :
  hi <= hi' -> ref_ids_in lo hi r -> ref_ids_in lo hi' r.
Proof. destruct r; simpl; [auto | apply ids_in_mono]. Qed.

(** The setters that leave the ids alone. *)
Lemma ids_set_NodeType lo hi v t : ids_in lo hi t -> ids_in lo hi (set_tn_NodeType v t).
Proof. destruct t; exact (fun H => H). Qed.
Lemma ids_set_Name lo hi v t : ids_in lo hi t -> ids_in lo hi (set_tn_Name v t).
Proof. destruct t; exact (fun H => H). Qed.
Lemma ids_set_TypeDescription lo hi v t :
  ids_in lo hi t -> ids_in lo hi (set_tn_TypeDescription v t).
Proof. destruct t; exact (fun H => H). Qed.
Lemma ids_set_ReferencedDeclaration lo hi v t :
  ids_in lo hi t -> ids_in lo hi (set_tn_ReferencedDeclaration v t).
Proof. destruct t; exact (fun H => H). Qed.
Lemma ids_set_StateMutability lo hi v t :
  ids_in lo hi t -> ids_in lo hi (set_tn_StateMutability v t).
Proof. destruct t; exact (fun H => H). Qed.

Lemma ids_set_Src lo hi v t :
  lo <= src_Id v < hi -> ids_in lo hi t -> ids_in lo hi (set_tn_Src v t).
Proof.
  rewrite !ids_in_unfold. destruct t; simpl. logic.
Qed.

Lemma ids_set_KeyType lo hi k t :
  ids_in lo hi k -> ids_in lo hi t -> ids_in lo hi (set_tn_KeyType (Some k) t).
Proof.
  intros Hk. rewrite !(ids_in_unfold lo hi (set_tn_KeyType _ _)), (ids_in_unfold lo hi t).
  destruct t; simpl. logic.
Qed.

Lemma ids_set_ValueType lo hi v t :
  ids_in lo hi v -> ids_in lo hi t -> ids_in lo hi (set_tn_ValueType (Some v) t).
Proof.
  intros Hv. rewrite !(ids_in_unfold lo hi (set_tn_ValueType _ _)), (ids_in_unfold lo hi t).
  destruct t; simpl. logic.
Qed.

Lemma ids_set_PathNode lo hi o t :
  Forall (fun id => lo <= id < hi) (path_ids o) ->
  ids_in lo hi t -> ids_in lo hi (set_tn_PathNode o t).
Proof.
  intros Ho. rewrite !(ids_in_unfold lo hi (set_tn_PathNode _ _)), (ids_in_unfold lo hi t).
  destruct t; simpl. logic.
Qed.

Lemma ids_resolved_path lo hi refId t :
  ids_in lo hi t ->
  ids_in lo hi
    match tn_PathNode t with
    | Some pathNode =>
        set_tn_PathNode (Some (set_pn_ReferencedDeclaration refId pathNode)) t
    | None => t
    end.
Proof.
  intros Ht. destruct (tn_PathNode t) as [pn|] eqn:E; [|exact Ht].
  apply ids_set_PathNode; [|exact Ht].
  apply ids_in_unfold in Ht. rewrite E in Ht.
  destruct pn. simpl in *. logic.
Qed.

Lemma Id_resolved_path refId t :
  tn_Id match tn_PathNode t with
        | Some pathNode =>
            set_tn_PathNode (Some (set_pn_ReferencedDeclaration refId pathNode)) t
        | None => t
        end = tn_Id t.
Proof. destruct t as [? ? ? ? ? ? ? [pn|] ? ?]; reflexivity. Qed.

Lemma store_ids lo hi (r r' : TypeNameRef) (t t' : TypeName)
    (f : TypeName -> TypeName) :
  store r t f = (t', r') ->
  (forall x, ids_in lo hi x -> ids_in lo hi (f x)) ->
  (forall x, tn_Id (f x) = tn_Id x) ->
  ids_in lo hi t -> ref_ids_in lo hi r ->
  ids_in lo hi t' /\ ref_ids_in lo hi r' /\ tn_Id t' = tn_Id t.
Proof.
  intros H Hf Hid Ht Hr.
  destruct r; simpl in H; inversion H; subst; simpl; auto.
Qed.

Lemma load_ids lo hi (r : TypeNameRef) (t : TypeName) :
  ids_in lo hi t -> ref_ids_in lo hi r -> ids_in lo hi (load r t).
Proof. destruct r; simpl; auto. Qed.

(** No setter but [set_tn_Id] touches the id. *)
Lemma Id_set_NodeType v t : tn_Id (set_tn_NodeType v t) = tn_Id t.
Proof. destruct t; reflexivity. Qed.
Lemma Id_set_Name v t : tn_Id (set_tn_Name v t) = tn_Id t.
Proof. destruct t; reflexivity. Qed.
Lemma Id_set_Src v t : tn_Id (set_tn_Src v t) = tn_Id t.
Proof. destruct t; reflexivity. Qed.
Lemma Id_set_TypeDescription v t : tn_Id (set_tn_TypeDescription v t) = tn_Id t.
Proof. destruct t; reflexivity. Qed.
Lemma Id_set_ReferencedDeclaration v t :
  tn_Id (set_tn_ReferencedDeclaration v t) = tn_Id t.
Proof. destruct t; reflexivity. Qed.
Lemma Id_set_StateMutability v t : tn_Id (set_tn_StateMutability v t) = tn_Id t.
Proof. destruct t; reflexivity. Qed.
Lemma Id_set_KeyType v t : tn_Id (set_tn_KeyType v t) = tn_Id t.
Proof. destruct t; reflexivity. Qed.
Lemma Id_set_ValueType v t : tn_Id (set_tn_ValueType v t) = tn_Id t.
Proof. destruct t; reflexivity. Qed.
Lemma Id_set_PathNode v t : tn_Id (set_tn_PathNode v t) = tn_Id t.
Proof. destruct t; reflexivity. Qed.

Ltac same_id :=
  rewrite ?Id_set_NodeType, ?Id_set_Name, ?Id_set_Src, ?Id_set_TypeDescription,
    ?Id_set_ReferencedDeclaration, ?Id_set_StateMutability, ?Id_set_KeyType,
    ?Id_set_ValueType, ?Id_set_PathNode.

Lemma ids_fresh_node lo s id src nt name td sm rd :
  lo <= id < s -> lo <= src_Id src < s ->
  ids_in lo s (mkTypeName id nt src name td None None None sm rd).
Proof.
  intros Hid Hsrc. unfold ids_in. simpl.
  repeat constructor; lia.
Qed.

Lemma parseTypeName_with_ids generate lo t parentNodeId ctx s t' s' :
  generate_keeps_ids generate ->
  parseTypeName_with generate t parentNodeId ctx s = Returns (t', s') ->
  lo <= s -> ids_in lo s t ->
  s + 1 <= s' /\ tn_Id t' = tn_Id t /\ ids_in lo s' t'.
Proof.
  intros Hgen H Hlo Ht. unfold parseTypeName_with in H.
  next_id H.
  match type of H with
  | context [set_tn_Src ?src (set_tn_Name ?n t)] =>
      assert (Ht0 : ids_in lo (s + 1) (set_tn_Src src (set_tn_Name n t)))
        by (apply ids_set_Src; [simpl; lia|];
            apply ids_set_Name; apply (ids_in_mono lo s); [lia | exact Ht]);
      assert (Hid0 : tn_Id (set_tn_Src src (set_tn_Name n t)) = tn_Id t)
        by (destruct t; reflexivity);
      set (t0 := set_tn_Src src (set_tn_Name n t)) in *
  end.
  destruct (tnc_ElementaryTypeName ctx) as [e|].
  { destruct (normalizeTypeDescription (etn_GetText e)) as [n i].
    ret_inv H. split; [lia|]. split.
    - destruct t0; exact Hid0.
    - apply ids_set_TypeDescription. exact Ht0. }
  destruct (tnc_MappingType ctx) as [m|].
  { bind_inv H. destruct a as [[res t1] r1]. ret_inv H.
    destruct (Hgen lo _ _ _ _ _ _ _ _ Hm ltac:(lia)
                (ids_set_NodeType _ _ NodeType_MAPPING_TYPE_NAME _ Ht0) I)
      as (Hs & Hid1 & Ht1 & _).
    split; [lia|]. split; [|exact Ht1].
    rewrite Hid1. destruct t0; exact Hid0. }
  destruct (tnc_FunctionTypeName ctx) as [f|]; [discriminate|].
  bind_inv H. bind_inv H. apply deref_Returns in Hm0 as [Hpath ->].
  rewrite Hpath in Hm. next_id Hm. next_id Hm. ret_inv Hm.
  match type of H with
  | context [SubjectTypeName ?x] =>
      assert (Hx : ids_in lo (s + 1 + 1 + 1) x);
      [| assert (Hidx : tn_Id x = tn_Id t) by (destruct t0; exact Hid0);
         destruct (ResolveByNode (SubjectTypeName x) (ipc_GetText a0))
           as [[refId refTd]|]; ret_inv H ]
  end.
  - apply ids_set_PathNode.
    + simpl. repeat constructor; lia.
    + apply ids_set_NodeType. apply (ids_in_mono lo (s + 1)); [lia | exact Ht0].
  - split; [lia|]. split.
    + same_id. exact Hid0.
    + apply ids_set_TypeDescription, ids_set_ReferencedDeclaration.
      exact (ids_resolved_path _ _ refId _ Hx).
  - split; [lia|]. split; [exact Hidx | exact Hx].
Qed.


Lemma generateTypeName_ids (fuel : nat) :
  generate_keeps_ids (generateTypeName fuel).
Proof.
  induction fuel as [|fuel IH]; intros lo t ctx r s res t' r' s' H Hlo Ht Hr.
  { discriminate. }
  simpl in H. next_id H. bind_inv H.
  destruct a as [[typeName t1] r1].
  assert (Hbody : s + 1 <= s0 /\ tn_Id t1 = tn_Id t /\ ids_in lo s0 t1
                  /\ ref_ids_in lo s0 r1
                  /\ match ctx with
                     | CtxMappingType _ => True
                     | _ => ids_in lo s0 typeName
                     end).
  { clear H. destruct ctx as [keyCtx | mapCtx | tnCtx].
    - next_id Hm.
      assert (Ht1 : ids_in lo (s + 1 + 1) t)
        by (apply (ids_in_mono lo s); [lia | exact Ht]).
      assert (Hr1 : ref_ids_in lo (s + 1 + 1) r)
        by (apply (ref_ids_in_mono lo s); [lia | exact Hr]).
      destruct (mkc_ElementaryTypeName keyCtx) as [e|].
      + destruct (normalizeTypeDescription (etn_GetText e)) as [n i].
        ret_inv Hm. repeat split; auto; try lia.
        apply ids_fresh_node; simpl; lia.
      + ret_inv Hm. repeat split; auto; try lia.
        apply ids_fresh_node; simpl; lia.
    - assert (Ht0 : ids_in lo (s + 1) t)
        by (apply (ids_in_mono lo s); [lia | exact Ht]).
      assert (Hr0 : ref_ids_in lo (s + 1) r)
        by (apply (ref_ids_in_mono lo s); [lia | exact Hr]).
      destruct (store r t (set_tn_NodeType NodeType_MAPPING_TYPE_NAME))
        as [t2 r2] eqn:E2.
      pose proof (store_ids lo (s + 1) _ _ _ _ _ E2
                    (fun x => ids_set_NodeType _ _ _ x) (Id_set_NodeType _)
                    Ht0 Hr0) as (Ht2 & Hr2 & Hid2).
      bind_inv Hm. destruct a as [[keyType t3] r3].
      destruct (IH lo _ _ _ _ _ _ _ _ Hm0 ltac:(lia) Ht2 Hr2)
        as (Hs3 & Hid3 & Ht3 & Hr3 & Hkey).
      destruct (store r3 t3 (set_tn_KeyType (Some keyType))) as [t4 r4] eqn:E4.
      pose proof (store_ids lo s1 _ _ _ _ _ E4
                    (fun x => ids_set_KeyType _ _ _ x Hkey) (Id_set_KeyType _)
                    Ht3 Hr3) as (Ht4 & Hr4 & Hid4).
      bind_inv Hm. destruct a as [[valueType t5] r5].
      destruct (IH lo _ _ _ _ _ _ _ _ Hm1 ltac:(lia) Ht4 Hr4)
        as (Hs5 & Hid5 & Ht5 & Hr5 & Hvalue).
      destruct (store r5 t5 (set_tn_ValueType (Some valueType))) as [t6 r6] eqn:E6.
      pose proof (store_ids lo s2 _ _ _ _ _ E6
                    (fun x => ids_set_ValueType _ _ _ x Hvalue) (Id_set_ValueType _)
                    Ht5 Hr5) as (Ht6 & Hr6 & Hid6).
      bind_inv Hm. apply mapping_TypeDescription_state in Hm2 as ->.
      destruct (store r6 t6 (set_tn_TypeDescription (Some a))) as [t7 r7] eqn:E7.
      pose proof (store_ids lo s2 _ _ _ _ _ E7
                    (fun x => ids_set_TypeDescription _ _ _ x)
                    (Id_set_TypeDescription _) Ht6 Hr6) as (Ht7 & Hr7 & Hid7).
      ret_inv Hm. repeat split; auto; lia.
    - next_id Hm.
      assert (Ht1 : ids_in lo (s + 1 + 1) t)
        by (apply (ids_in_mono lo s); [lia | exact Ht]).
      assert (Hr1 : ref_ids_in lo (s + 1 + 1) r)
        by (apply (ref_ids_in_mono lo s); [lia | exact Hr]).
      destruct (tnc_ElementaryTypeName tnCtx) as [e|].
      { destruct (normalizeTypeDescription (etn_GetText e)) as [n i].
        ret_inv Hm. repeat split; auto; try lia.
        apply ids_fresh_node; simpl; lia. }
      destruct (tnc_MappingType tnCtx) as [m|].
      { bind_inv Hm. destruct a as [[res1 t2] local]. ret_inv Hm.
        match type of Hm0 with
        | generateTypeName _ _ _ (RefLocal ?n) _ = _ =>
            assert (Hn : ids_in lo (s + 1 + 1) n)
              by (apply ids_fresh_node; simpl; lia)
        end.
        destruct (IH lo _ _ _ _ _ _ _ _ Hm0 ltac:(lia) Ht1 Hn)
          as (Hs2 & Hid2 & Ht2 & Hlocal & _).
        repeat split; auto; try lia.
        - apply (ref_ids_in_mono lo (s + 1 + 1)); [lia | exact Hr1].
        - destruct local; simpl; [|exact Hlocal].
          apply (ids_in_mono lo (s + 1 + 1)); [lia | exact Hn]. }
      destruct (tnc_FunctionTypeName tnCtx) as [f|]; [discriminate|].
      bind_inv Hm. ret_inv Hm.
      destruct (parseTypeName_with_ids _ lo _ _ _ _ _ _ IH Hm0 ltac:(lia) Ht1)
        as (Hs2 & Hid2 & Ht2).
      repeat split; auto; try lia.
      + apply (ref_ids_in_mono lo (s + 1 + 1)); [lia | exact Hr1].
      + apply ids_fresh_node; simpl; lia. }
  destruct Hbody as (Hs0 & Hid1 & Ht1 & Hr1 & Hres).
  destruct (tn_TypeDescription typeName).
  { ret_inv H. repeat split; auto; lia. }
  destruct (ResolveByNode (SubjectTypeName typeName) (tn_Name typeName))
    as [[refId refTd]|]; ret_inv H; repeat split; auto; try lia.
  destruct ctx; auto using ids_set_TypeDescription, ids_set_ReferencedDeclaration.
Qed.

Lemma parseMappingTypeName_ids fuel lo t parentNodeId ctx s t' s' :
  parseMappingTypeName fuel t parentNodeId ctx s = Returns (t', s') ->
  lo <= s -> ids_in lo s t ->
  s <= s' /\ tn_Id t' = tn_Id t /\ ids_in lo s' t'.
Proof.
  unfold parseMappingTypeName. intros H Hlo Ht.
  bind_inv H. destruct a as [[keyType t1] r1].
  destruct (generateTypeName_ids fuel lo _ _ _ _ _ _ _ _ Hm Hlo Ht I)
    as (Hs1 & Hid1 & Ht1 & _ & Hkey).
  bind_inv H. destruct a as [[valueType t2] r2].
  destruct (generateTypeName_ids fuel lo _ _ _ _ _ _ _ _ Hm0 ltac:(lia)
              (ids_set_KeyType _ _ _ _ Hkey Ht1) I)
    as (Hs2 & Hid2 & Ht2 & _ & Hvalue).
  bind_inv H. apply mapping_TypeDescription_state in Hm1 as ->. ret_inv H.
  split; [lia|]. split.
  - same_id. rewrite Hid2. same_id. exact Hid1.
  - apply ids_set_TypeDescription, ids_set_ValueType; assumption.
Qed.

Lemma parseIdentifierPath_ids lo t parentNodeId ctx s t' s' :
  parseIdentifierPath t parentNodeId ctx s = Returns (t', s') ->
  lo <= s -> ids_in lo s t ->
  s <= s' /\ tn_Id t' = tn_Id t /\ ids_in lo s' t'.
Proof.
  unfold parseIdentifierPath. intros H Hlo Ht.
  destruct (ipc_AllIdentifier ctx) as [|identifierCtx others].
  { ret_inv H. split; [lia|]. split; [same_id; reflexivity|].
    apply ids_set_NodeType. exact Ht. }
  next_id H. next_id H.
  match type of H with
  | context [SubjectTypeName ?x] =>
      assert (Hx : ids_in lo (s + 1 + 1) x);
      [| assert (Hidx : tn_Id x = tn_Id t) by (same_id; reflexivity);
         destruct (ResolveByNode (SubjectTypeName x) (idc_GetText identifierCtx))
           as [[refId refTd]|]; ret_inv H ]
  end.
  - apply ids_set_PathNode.
    + simpl. repeat constructor; lia.
    + apply ids_set_NodeType. apply (ids_in_mono lo s); [lia | exact Ht].
  - split; [lia|]. split; [same_id; reflexivity|].
    apply ids_set_TypeDescription, ids_set_ReferencedDeclaration.
    exact (ids_resolved_path _ _ refId _ Hx).
  - split; [lia|]. split; [exact Hidx | exact Hx].
Qed.

Lemma parseElementaryTypeName_ids lo t parentNodeId ctx s t' s' :
  parseElementaryTypeName t parentNodeId ctx s = Returns (t', s') ->
  ids_in lo s t ->
  s' = s /\ tn_Id t' = tn_Id t /\ ids_in lo s' t'.
Proof.
  unfold parseElementaryTypeName. intros H Ht.
  destruct (normalizeTypeDescription (etn_GetText ctx)) as [n i].
  ret_inv H. split; [reflexivity|].
  destruct (String.eqb i "t_address"); [|destruct (String.eqb i "t_address_payable")];
    (split; [same_id; reflexivity|]);
    auto using ids_set_TypeDescription, ids_set_StateMutability,
      ids_set_NodeType, ids_set_Name.
Qed.

Lemma Parse_children_ids fuel lo parentNodeId children :
  forall t s t' s',
    Parse_children fuel t parentNodeId children s = Returns (t', s') ->
    lo <= s -> ids_in lo s t ->
    s <= s' /\ tn_Id t' = tn_Id t /\ ids_in lo s' t'.
Proof.
  induction children as [|child rest IH]; intros t s t' s' H Hlo Ht; simpl in H.
  { ret_inv H. split; [lia|]. split; [reflexivity | exact Ht]. }
  bind_inv H.
  assert (Hchild : s <= s0 /\ tn_Id a = tn_Id t /\ ids_in lo s0 a).
  { destruct child as [e | m | f | path | c | text | goType];
      try discriminate.
    - destruct (parseElementaryTypeName_ids lo _ _ _ _ _ _ Hm Ht) as (-> & ? & ?).
      split; [lia|]. split; assumption.
    - exact (parseMappingTypeName_ids _ lo _ _ _ _ _ _ Hm Hlo Ht).
    - exact (parseIdentifierPath_ids lo _ _ _ _ _ _ Hm Hlo Ht).
    - unfold parseTypeName in Hm.
      destruct (parseTypeName_with_ids _ lo _ _ _ _ _ _
                  (generateTypeName_ids fuel) Hm Hlo Ht) as (? & ? & ?).
      split; [lia|]. split; assumption.
    - ret_inv Hm. split; [lia|]. split; [reflexivity | exact Ht]. }
  destruct Hchild as (Hs0 & Hid0 & Ha).
  destruct (IH _ _ _ _ H ltac:(lia) Ha) as (Hs' & Hid' & Ht').
  split; [lia|]. split; [congruence | exact Ht'].
Qed.

(** X13. The ids in the tree [TypeName.Parse] builds on a fresh type name
    are all fresh: the node carries the first id drawn, and the ids of the
    node, of its span, of its key and value types at every depth and of
    their path nodes were all drawn by this call, between the counter it
    found and the counter it leaves, which it advanced by two at least. *)
Theorem TypeName_Parse_fresh_ids fuel t parentNodeId ctx s t' s' :
  TypeName_Parse fuel t parentNodeId ctx s = Returns (t', s') ->
  tn_KeyType t = None -> tn_ValueType t = None -> tn_PathNode t = None ->
  s + 2 <= s' /\ tn_Id t' = s /\ Forall (fun id => s <= id < s') (tn_ids t').
Proof.
  unfold TypeName_Parse. intros H Hk Hv Hp.
  next_id H. next_id H.
  match type of H with
  | Parse_children _ ?x _ _ _ = _ =>
      assert (Hx : ids_in s (s + 1 + 1) x)
  end.
  { destruct t as [id nt src name td k v pn sm rd]. simpl in Hk, Hv, Hp. subst.
    apply ids_fresh_node; simpl; lia. }
  destruct (Parse_children_ids _ s _ _ _ _ _ _ H ltac:(lia) Hx)
    as (Hs & Hid & Ht').
  split; [lia|]. split; [|exact Ht'].
  rewrite Hid. same_id. destruct t; reflexivity.
Qed.


(** *** The shapes of a type name, one by one *)

Lemma Parse_children_terminals fuel parentNodeId children :
  forallb is_terminal_child children = true ->
  forall t s, Parse_children fuel t parentNodeId children s = Returns (t, s).
Proof.
  induction children as [|child rest IH]; intros H t s; [reflexivity|].
  simpl in H. apply andb_true_iff in H as [Hc Hrest].
  destruct child; try discriminate. simpl. unfold bind at 1. simpl.
  apply IH. exact Hrest.
Qed.

(** X14. [TypeName.Parse] signals a fatal error of its own only for a type
    name with a function-type spelling or a child of an unknown production
    somewhere in it: on every other type name it returns or fails in the
    run time, it does not abort with a message. *)
Theorem type_name_fatal_error_only_when_unrecognized
    fuel t parentNodeId ctx s msg :
  tnc_recognized ctx = true ->
  TypeName_Parse fuel t parentNodeId ctx s <> Panics msg.
Proof.
  intros Hrec H. apply TypeName_Parse_Panics in H.
  rewrite H in Hrec. discriminate.
Qed.

(** X15. The first child of a type name that is not a terminal, when it
    belongs to no production [TypeName.Parse] knows (a function type name
    directly under it among them), aborts the translation with the fatal
    error [Unknown type name] that names the Go type of the child. *)
Theorem type_name_unknown_child
    fuel t parentNodeId ctx terminals child rest s :
  tnc_GetChildren ctx = (terminals ++ child :: rest)%list ->
  forallb is_terminal_child terminals = true ->
  is_unknown_production child = true ->
  TypeName_Parse fuel t parentNodeId ctx s
  = Panics ("Unknown type name @ TypeName.Parse: " ++ child_goType child).
Proof.
  intros Hchildren Hterm Hchild. unfold TypeName_Parse.
  unfold bind at 1 2, GetNextID. rewrite Hchildren.
  apply Parse_children_unknown_child; [exact Hterm|].
  destruct child; try discriminate; exact I.
Qed.

Lemma generateTypeName_key fuel t keyCtx r s :
  exists keyNode,
    generateTypeName (S fuel) t (CtxMappingKeyType keyCtx) r s
    = Returns ((keyNode, t, r), s + 2)
    /\ (mkc_ElementaryTypeName keyCtx = None ->
        (forall subject,
            ResolveByNode subject (mkc_GetText keyCtx) = None) ->
        tn_TypeDescription keyNode = None).
Proof.
  cbn [generateTypeName]. unfold bind, GetNextID.
  replace (s + 1 + 1) with (s + 2) by lia.
  destruct (mkc_ElementaryTypeName keyCtx) as [e|].
  - destruct (normalizeTypeDescription (etn_GetText e)) as [n i].
    cbn. eexists. split; [reflexivity | discriminate].
  - cbn.
    match goal with
    | |- context [ResolveByNode ?subject ?name] =>
        destruct (ResolveByNode subject name) as [[refId refTd]|] eqn:E
    end.
    + eexists. split; [reflexivity|]. intros _ Hnone.
      rewrite Hnone in E. discriminate.
    + eexists. split; [reflexivity|]. reflexivity.
Qed.

Lemma generateTypeName_elementary fuel t ctx e r s :
  tnc_ElementaryTypeName ctx = Some e ->
  exists node,
    generateTypeName (S fuel) t (CtxTypeName ctx) r s
    = Returns ((node, t, r), s + 2)
    /\ tn_TypeDescription node
       = Some {| TypeString := fst (normalizeTypeDescription (etn_GetText e));
                 TypeIdentifier := snd (normalizeTypeDescription (etn_GetText e)) |}.
Proof.
  intros He. cbn [generateTypeName]. unfold bind, GetNextID.
  replace (s + 1 + 1) with (s + 2) by lia. rewrite He.
  destruct (normalizeTypeDescription (etn_GetText e)) as [n i].
  cbn. eexists. split; reflexivity.
Qed.

(** X16. A function type where a type is expected under an array suffix
    or as the value of a mapping aborts the translation with the fatal
    error [Function type name is not supported yet], which names the type
    name production whatever the function type is. *)
Theorem function_type_not_supported fuel t parentNodeId ctx s :
  (forall base f rest,
      tnc_GetChildren ctx = ChildTypeName base :: rest ->
      tnc_ElementaryTypeName base = None ->
      tnc_MappingType base = None ->
      tnc_FunctionTypeName base = Some f ->
      TypeName_Parse fuel t parentNodeId ctx s
      = Panics "Function type name is not supported yet @ TypeName.generateTypeName: *parser.TypeNameContext")
  /\ (forall m f rest,
         tnc_GetChildren ctx = ChildMappingType m :: rest ->
         tnc_ElementaryTypeName (mtc_GetValue m) = None ->
         tnc_MappingType (mtc_GetValue m) = None ->
         tnc_FunctionTypeName (mtc_GetValue m) = Some f ->
         TypeName_Parse (S fuel) t parentNodeId ctx s
         = Panics "Function type name is not supported yet @ TypeName.generateTypeName: *parser.TypeNameContext").
Proof.
  split.
  - intros base f rest Hchildren He Hm Hf. unfold TypeName_Parse.
    unfold bind at 1 2, GetNextID. rewrite Hchildren.
    cbn [Parse_children]. unfold bind at 1.
    rewrite (parseTypeName_function_type _ _ _ _ _ _ He Hm Hf). reflexivity.
  - intros m f rest Hchildren He Hm Hf. unfold TypeName_Parse.
    unfold bind at 1 2, GetNextID. rewrite Hchildren.
    cbn [Parse_children]. unfold bind at 1.
    unfold parseMappingTypeName.
    match goal with
    | |- context [generateTypeName (S fuel) ?x (CtxMappingKeyType ?k) ?r] =>
        destruct (generateTypeName_key fuel x k r (s + 1 + 1))
          as (keyNode & Hkey & _)
    end.
    rewrite (bind_eq_Returns _ _ _ _ _ Hkey). cbv beta iota.
    unfold bind at 1.
    rewrite (generateTypeName_function_type _ _ _ _ _ _ He Hm Hf). reflexivity.
Qed.

(** X17. A mapping whose key is a user-defined type the Resolver does not
    know (yet) is not translated: with an elementary value type, building
    the type description reads [t.KeyType.TypeDescription.TypeIdentifier]
    through the nil description of the key, a nil dereference. *)
Theorem mapping_unresolved_key_nil_dereference
    fuel t parentNodeId ctx m ve rest s :
  tnc_GetChildren ctx = ChildMappingType m :: rest ->
  mkc_ElementaryTypeName (mtc_GetKey m) = None ->
  (forall subject, ResolveByNode subject (mkc_GetText (mtc_GetKey m)) = None) ->
  tnc_ElementaryTypeName (mtc_GetValue m) = Some ve ->
  TypeName_Parse (S fuel) t parentNodeId ctx s = RuntimePanics NilDereference.
Proof.
  intros Hchildren Hk Hnone Hv. unfold TypeName_Parse.
  unfold bind at 1 2, GetNextID. rewrite Hchildren.
  cbn [Parse_children]. unfold bind at 1.
  unfold parseMappingTypeName.
  match goal with
  | |- context [generateTypeName (S fuel) ?x (CtxMappingKeyType ?k) ?r] =>
      destruct (generateTypeName_key fuel x k r (s + 1 + 1))
        as (keyNode & Hkey & Hktd)
  end.
  rewrite (bind_eq_Returns _ _ _ _ _ Hkey). cbv beta iota.
  match goal with
  | |- context [generateTypeName (S fuel) ?x (CtxTypeName ?c) ?r] =>
      destruct (generateTypeName_elementary fuel x c ve r (s + 1 + 1 + 2) Hv)
        as (valueNode & Hvalue & _)
  end.
  rewrite (bind_eq_Returns _ _ _ _ _ Hvalue). cbv beta iota.
  unfold bind at 1. unfold mapping_TypeDescription.
  match goal with
  | |- context [tn_KeyType ?x] =>
      replace (tn_KeyType x) with (Some keyNode) by (destruct t; reflexivity)
  end.
  match goal with
  | |- context [tn_ValueType ?x] =>
      replace (tn_ValueType x) with (Some valueNode) by (destruct t; reflexivity)
  end.
  unfold bind, deref, ret. rewrite (Hktd Hk Hnone). reflexivity.
Qed.

(** X18. An array whose base is an elementary type is translated as its
    base: the node [TypeName.Parse] returns carries the name, the span and
    the type description of the base type, under the id drawn first; the
    brackets leave no trace, not in the name and not in the node type, which
    is left as it was. *)
Theorem array_of_elementary_is_its_base
    fuel t parentNodeId ctx base brackets e s :
  tnc_GetChildren ctx = ChildTypeName base :: brackets ->
  forallb is_terminal_child brackets = true ->
  tnc_ElementaryTypeName base = Some e ->
  exists t',
    TypeName_Parse fuel t parentNodeId ctx s = Returns (t', s + 3)
    /\ tn_Id t' = s
    /\ tn_Name t' = tnc_GetText base
    /\ span_of (tnc_GetStart base) (tnc_GetStop base) (tn_Src t')
    /\ src_Id (tn_Src t') = s + 2
    /\ tn_NodeType t' = tn_NodeType t
    /\ tn_TypeDescription t'
       = Some {| TypeString := fst (normalizeTypeDescription (etn_GetText e));
                 TypeIdentifier := snd (normalizeTypeDescription (etn_GetText e)) |}.
Proof.
  intros Hchildren Hterm He. unfold TypeName_Parse.
  unfold bind at 1 2, GetNextID. rewrite Hchildren.
  cbn [Parse_children]. unfold bind at 1.
  unfold parseTypeName, parseTypeName_with. unfold bind at 1. unfold GetNextID.
  rewrite He.
  destruct (normalizeTypeDescription (etn_GetText e)) as [n i].
  unfold ret at 1.
  rewrite (Parse_children_terminals _ _ _ Hterm).
  replace (s + 1 + 1 + 1) with (s + 3) by lia.
  eexists. split; [reflexivity|].
  destruct t; simpl. repeat split; try reflexivity. lia.
Qed.

(** X19. A user-defined type, given by an identifier path: the node is a
    user-defined path name whose own name is left as it was, and its path
    node carries the first identifier of the path only, which is also the
    name the Resolver is asked for.  What the Resolver finds is recorded on
    the node and on the path node; when it finds nothing, the translation
    still returns and the node stays without type description. *)
Theorem identifier_path_type_name
    fuel t parentNodeId ctx path first others rest found s :
  tnc_GetChildren ctx = ChildIdentifierPath path :: rest ->
  forallb is_terminal_child rest = true ->
  ipc_AllIdentifier path = first :: others ->
  (forall subject, ResolveByNode subject (idc_GetText first) = found) ->
  exists t' pathNode,
    TypeName_Parse fuel t parentNodeId ctx s = Returns (t', s + 4)
    /\ tn_NodeType t' = NodeType_USER_DEFINED_PATH_NAME
    /\ tn_Name t' = tn_Name t
    /\ tn_PathNode t' = Some pathNode
    /\ pn_Name pathNode = idc_GetText first
    /\ pn_Id pathNode = s + 2
    /\ src_ParentIndex (pn_Src pathNode) = s
    /\ match found with
       | Some (refId, refTypeDescription) =>
           pn_ReferencedDeclaration pathNode = refId
           /\ tn_ReferencedDeclaration t' = refId
           /\ tn_TypeDescription t' = refTypeDescription
       | None =>
           pn_ReferencedDeclaration pathNode = 0
           /\ tn_ReferencedDeclaration t' = tn_ReferencedDeclaration t
           /\ tn_TypeDescription t' = tn_TypeDescription t
       end.
Proof.
  intros Hchildren Hterm Hfirst Hfound. unfold TypeName_Parse.
  unfold bind at 1 2, GetNextID. rewrite Hchildren.
  cbn [Parse_children]. unfold bind at 1.
  unfold parseIdentifierPath. rewrite Hfirst.
  unfold bind, GetNextID. rewrite Hfound.
  replace (s + 1 + 1 + 1 + 1) with (s + 4) by lia.
  destruct found as [[refId refTd]|]; unfold ret; cbv beta iota;
    rewrite (Parse_children_terminals _ _ _ Hterm);
    eexists; eexists; (split; [reflexivity|]);
    destruct t; simpl; repeat split; try reflexivity; simpl; lia.
Qed.


(** *** The bound on the recursion is a device of the model *)

Lemma bind_both {A B : Type} (m1 m2 : Build A) (k1 k2 : A -> Build B) (s : Z) :
  m1 s = m2 s -> (forall a s', k1 a s' = k2 a s') ->
  bind m1 k1 s = bind m2 k2 s.
Proof.
  unfold bind. intros -> H. destruct (m2 s) as [[a s'] | | |]; auto.
Qed.

Lemma GenerateCtx_depth_positive ctx : (1 <= GenerateCtx_depth ctx)%nat.
Proof. destruct ctx as [k | [? ? ? ? ?] | [? ? ? ?]]; simpl; lia. Qed.

Lemma parseTypeName_with_ext generate generate' t parentNodeId ctx s :
  (forall m t r s, tnc_MappingType ctx = Some m ->
                   generate t (CtxMappingType m) r s
                   = generate' t (CtxMappingType m) r s) ->
  parseTypeName_with generate t parentNodeId ctx s
  = parseTypeName_with generate' t parentNodeId ctx s.
Proof.
  intros Hgen. unfold parseTypeName_with.
  apply bind_ext. intros srcId s1.
  destruct (tnc_ElementaryTypeName ctx) as [e|]; [reflexivity|].
  destruct (tnc_MappingType ctx) as [m|]; [|reflexivity].
  apply bind_congr. apply Hgen. reflexivity.
Qed.

Lemma generateTypeName_any_fuel (fuel : nat) :
  forall fuel' t ctx r s,
    (GenerateCtx_depth ctx <= fuel)%nat ->
    (GenerateCtx_depth ctx <= fuel')%nat ->
    generateTypeName fuel t ctx r s = generateTypeName fuel' t ctx r s.
Proof.
  induction fuel as [|fuel IH]; intros fuel' t ctx r s Hfuel Hfuel';
    pose proof (GenerateCtx_depth_positive ctx) as Hpos; [lia|].
  destruct fuel' as [|fuel']; [lia|].
  simpl. apply bind_ext. intros id s1. apply bind_congr.
  destruct ctx as [keyCtx | mapCtx | tnCtx].
  - reflexivity.
  - destruct mapCtx as [text start stop key value].
    simpl in Hfuel, Hfuel'. simpl mtc_GetKey. simpl mtc_GetValue.
    assert (Hvalue : (1 <= tnc_depth value)%nat)
      by (destruct value; simpl; lia).
    destruct (store r t _) as [? ?].
    apply bind_both; [apply IH; simpl; lia | intros [[? ?] ?] ?].
    destruct (store _ _ _) as [? ?].
    apply bind_both; [apply IH; simpl; lia | intros [[? ?] ?] ?].
    reflexivity.
  - apply bind_ext. intros srcId s2.
    destruct (tnc_ElementaryTypeName tnCtx); [reflexivity|].
    destruct (tnc_MappingType tnCtx) as [m|] eqn:Em.
    { apply tnc_MappingType_depth in Em. simpl in Hfuel, Hfuel'.
      apply bind_congr. apply IH; simpl; lia. }
    destruct (tnc_FunctionTypeName tnCtx); [reflexivity|].
    apply bind_congr. apply parseTypeName_with_ext.
    intros m ? ? ? Hm. congruence.
Qed.

Lemma Parse_children_any_fuel fuel fuel' parentNodeId children :
  (children_depth children <= fuel)%nat ->
  (children_depth children <= fuel')%nat ->
  forall t s,
    Parse_children fuel t parentNodeId children s
    = Parse_children fuel' t parentNodeId children s.
Proof.
  induction children as [|child rest IH]; intros Hfuel Hfuel' t s; simpl.
  { reflexivity. }
  assert (Hc : (child_depth child <= fuel)%nat /\ (children_depth rest <= fuel)%nat
               /\ (child_depth child <= fuel')%nat
               /\ (children_depth rest <= fuel')%nat).
  { change (children_depth (child :: rest))
      with (Nat.max (child_depth child) (children_depth rest)) in Hfuel, Hfuel'.
    lia. }
  destruct Hc as (Hc & Hrest & Hc' & Hrest'). clear Hfuel Hfuel'.
  apply bind_both; [|intros; apply IH; assumption].
  destruct child as [e | m | f | path | c | text | goType]; try reflexivity.
  - destruct m as [text start stop key value]. simpl in Hc, Hc'.
    unfold parseMappingTypeName. simpl mtc_GetKey. simpl mtc_GetValue.
    assert (Hvalue : (1 <= tnc_depth value)%nat)
      by (destruct value; simpl; lia).
    apply bind_both;
      [apply generateTypeName_any_fuel; simpl; lia | intros [[? ?] ?] ?].
    apply bind_congr. apply generateTypeName_any_fuel; simpl; lia.
  - unfold parseTypeName. apply parseTypeName_with_ext.
    intros m ? ? ? Hm. apply tnc_MappingType_depth in Hm.
    simpl in Hc, Hc'. apply generateTypeName_any_fuel; simpl; lia.
Qed.

(** X20. [TypeName.Parse] terminates on every parse tree: the recursion
    of [generateTypeName] and [parseTypeName] through each other goes down
    the tree, so that a bound of the depth of the tree is never met, and the
    outcome is the same under every bound that large. *)
Theorem TypeName_Parse_terminates fuel fuel' t parentNodeId ctx s :
  (tnc_depth ctx <= fuel)%nat ->
  (tnc_depth ctx <= fuel')%nat ->
  TypeName_Parse fuel t parentNodeId ctx s <> OutOfFuel
  /\ TypeName_Parse fuel' t parentNodeId ctx s
     = TypeName_Parse fuel t parentNodeId ctx s.
Proof.
  intros Hfuel Hfuel'. split; [apply TypeName_Parse_fuel; exact Hfuel|].
  unfold TypeName_Parse.
  apply bind_ext. intros id s1. apply bind_ext. intros srcId s2.
  apply Parse_children_any_fuel;
    destruct ctx as [text start stop children];
    rewrite tnc_depth_children in Hfuel, Hfuel'; simpl; lia.
Qed.


(** *** When [Parse] returns *)

Lemma match_statements_unreadable statements :
  forall p s,
    declarations_typed (pe_Name p) statements = false ->
    match_statements statements p s = RuntimePanics NilDereference.
Proof.
  induction statements as [|statement rest IH]; intros p s H; simpl in H.
  { discriminate. }
  simpl. unfold bind.
  destruct statement as [v | id].
  - rewrite match_declarations_eq.
    destruct (declaration_named (pe_Name p) (vd_GetDeclarations v)) as [d|].
    + destruct (decl_GetTypeName d) as [typeName|]; [|reflexivity].
      apply IH. destruct p; exact H.
    + apply IH. exact H.
  - apply IH. exact H.
Qed.

Lemma Parse_scopes_unreadable fnNode bodyNode p s :
  scopes_readable (pe_Name p) fnNode bodyNode = false ->
  Parse_scopes fnNode bodyNode p s = RuntimePanics NilDereference.
Proof.
  unfold scopes_readable, Parse_scopes. intros H.
  destruct fnNode as [[[parameters|] | [parameters|] | nodeType]|];
    try reflexivity; simpl in H; unfold bind; simpl;
    (destruct bodyNode as [body|]; [|discriminate]);
    apply match_statements_unreadable;
    try exact H.
  all: match goal with
       | |- context [match_parameters ?l ?x] =>
           destruct (match_parameters_same l x)
             as (_ & _ & _ & _ & _ & _ & Hn & _); rewrite Hn; exact H
       end.
Qed.

Lemma Parse_identifier_unreadable fnNode bodyNode ctx p s :
  readable ctx fnNode bodyNode = false ->
  Parse_identifier fnNode bodyNode ctx p s = RuntimePanics NilDereference.
Proof.
  unfold readable, Parse_identifier.
  destruct (pec_Identifier ctx) as [name|]; [|discriminate].
  intros H. unfold bind.
  rewrite Parse_scopes_unreadable; [reflexivity | exact H].
Qed.

Lemma Parse_tail_returns_iff expNode ctx q s :
  (exists r, Parse_tail expNode ctx q s = Returns r)
  <-> literal_readable ctx q = true.
Proof.
  unfold Parse_tail, literal_readable.
  destruct (String.eqb (pe_Name q) "_"); simpl.
  { split; [reflexivity | eexists; reflexivity]. }
  destruct (pec_Literal ctx) as [literalCtx|].
  2:{ split; [reflexivity | eexists; reflexivity]. }
  unfold Parse_literal.
  destruct (lit_BooleanLiteral literalCtx); simpl.
  { split; [reflexivity | eexists; reflexivity]. }
  destruct (lit_StringLiteral literalCtx); simpl.
  { split; [reflexivity | eexists; reflexivity]. }
  destruct (lit_NumberLiteral literalCtx); simpl.
  { rewrite Parse_number_eq. split; [reflexivity | eexists; reflexivity]. }
  destruct (lit_HexStringLiteral literalCtx); simpl.
  { split; [intros [r H]; discriminate | discriminate]. }
  destruct (String.eqb (pec_GetText ctx) "msg"); simpl.
  { split; [reflexivity|]. intros _. unfold bind. simpl.
    destruct expNode; eexists; reflexivity. }
  unfold bind.
  destruct (pe_TypeDescription q) as [d|]; simpl.
  - split; [reflexivity|]. intros _.
    destruct (String.eqb (TypeString d) ""); [destruct expNode|];
      eexists; reflexivity.
  - split; [intros [r H]; discriminate | discriminate].
Qed.

(** X24. [Parse] returns exactly when it follows no nil pointer: there is
    an enclosing expression, variable declaration or body for the span to
    point at; for an identifier, the enclosing constructor has a parameter
    list and every declaration of the body with the name of the identifier,
    shadowed or not, has a type name; and the last block reads no literal
    through a nil accessor or nil type description. *)
Theorem Parse_returns_iff p unit fnNode bodyNode vDeclar expNode ctx s :
  (exists p', PrimaryExpression_Parse p unit fnNode bodyNode vDeclar expNode
                ctx s = Returns (p', s + 1))
  <-> exists parentIndex,
        parent_of expNode vDeclar bodyNode = Some parentIndex
        /\ readable ctx fnNode bodyNode = true
        /\ literal_readable ctx
             (identified fnNode bodyNode ctx
                (head_node p unit expNode ctx s parentIndex)) = true.
Proof.
  assert (E : PrimaryExpression_Parse p unit fnNode bodyNode vDeclar expNode
                ctx s =
              match parent_of expNode vDeclar bodyNode with
              | Some parentIndex =>
                  (p2 <- Parse_identifier fnNode bodyNode ctx
                           (head_node p unit expNode ctx s parentIndex) ;;
                   Parse_tail expNode ctx p2) (s + 1)
              | None => RuntimePanics NilDereference
              end).
  { rewrite Parse_blocks. unfold bind at 1. rewrite Parse_head_eq.
    destruct (parent_of expNode vDeclar bodyNode); reflexivity. }
  split.
  - intros [p' H]. rewrite E in H.
    destruct (parent_of expNode vDeclar bodyNode) as [parentIndex|];
      [|discriminate].
    exists parentIndex. split; [reflexivity|].
    destruct (readable ctx fnNode bodyNode) eqn:R.
    + split; [reflexivity|]. unfold bind in H.
      rewrite (Parse_identifier_eq _ _ _ _ _ R) in H.
      apply (Parse_tail_returns_iff expNode ctx _ (s + 1)). eexists. exact H.
    + unfold bind in H. rewrite (Parse_identifier_unreadable _ _ _ _ _ R) in H.
      discriminate.
  - intros (parentIndex & Hparent & R & L).
    rewrite (Parse_eq _ _ _ _ _ _ _ _ R), Hparent.
    apply (Parse_tail_returns_iff expNode ctx _ (s + 1)) in L as [[p' s'] H].
    exists p'. rewrite H.
    apply Parse_tail_keeps in H as (-> & _). reflexivity.
Qed.


(** *** What a mapping leaves on its own node *)

Lemma parseTypeName_with_user_defined generate t parentNodeId ctx s t' s' :
  tnc_ElementaryTypeName ctx = None ->
  tnc_MappingType ctx = None ->
  parseTypeName_with generate t parentNodeId ctx s = Returns (t', s') ->
  tn_NodeType t' = NodeType_USER_DEFINED_PATH_NAME
  /\ tn_Name t' = tnc_GetText ctx
  /\ span_of (tnc_GetStart ctx) (tnc_GetStop ctx) (tn_Src t')
  /\ src_ParentIndex (tn_Src t') = parentNodeId
  /\ tn_Id t' = tn_Id t.
Proof.
  intros He Hm H. unfold parseTypeName_with in H. rewrite He, Hm in H.
  next_id H.
  destruct (tnc_FunctionTypeName ctx) as [f|]; [discriminate|].
  bind_inv H. bind_inv H. apply deref_Returns in Hm1 as [Hpath ->].
  rewrite Hpath in Hm0. next_id Hm0. next_id Hm0. ret_inv Hm0.
  destruct (ResolveByNode _ _) as [[refId refTd]|]; ret_inv H;
    destruct t; simpl; repeat split; reflexivity.
Qed.

(** X25. A mapping to a user-defined type overwrites its own node: the
    value type is translated on the receiver, so that the node
    [TypeName.Parse] returns for the mapping is a user-defined path name
    with the name and the span of the value type, pointing at itself as its
    parent. *)
Theorem mapping_to_user_type_overwrites_the_node
    fuel t parentNodeId ctx m rest s t' s' :
  tnc_GetChildren ctx = ChildMappingType m :: rest ->
  forallb is_terminal_child rest = true ->
  tnc_ElementaryTypeName (mtc_GetValue m) = None ->
  tnc_MappingType (mtc_GetValue m) = None ->
  TypeName_Parse fuel t parentNodeId ctx s = Returns (t', s') ->
  tn_NodeType t' = NodeType_USER_DEFINED_PATH_NAME
  /\ tn_Name t' = tnc_GetText (mtc_GetValue m)
  /\ span_of (tnc_GetStart (mtc_GetValue m)) (tnc_GetStop (mtc_GetValue m))
       (tn_Src t')
  /\ src_ParentIndex (tn_Src t') = tn_Id t'
  /\ tn_Id t' = s.
Proof.
  intros Hchildren Hterm He Hm H. unfold TypeName_Parse in H.
  next_id H. next_id H. rewrite Hchildren in H. cbn [Parse_children] in H.
  apply bind_Returns in H as (tm & sm & Hmap & H).
  rewrite (Parse_children_terminals _ _ _ Hterm) in H.
  assert (tm = t' /\ sm = s') as [-> ->] by (inversion H; auto). clear H.
  unfold parseMappingTypeName in Hmap.
  destruct fuel as [|fuel]; [discriminate|].
  match type of Hmap with
  | context [generateTypeName (S fuel) ?x (CtxMappingKeyType ?k) ?r] =>
      destruct (generateTypeName_key fuel x k r (s + 1 + 1))
        as (keyNode & Hkey & _)
  end.
  rewrite (bind_eq_Returns _ _ _ _ _ Hkey) in Hmap. cbv beta iota in Hmap.
  apply bind_Returns in Hmap as ([[valueNode t2] r2] & sv & Hvalue & Hmap).
  apply bind_Returns in Hmap as (description & sd & _ & Hmap). ret_inv Hmap.
  cbn [generateTypeName] in Hvalue. next_id Hvalue.
  apply bind_Returns in Hvalue as ([[typeName t3] r3] & s3 & Hbody & Hend).
  next_id Hbody. rewrite He, Hm in Hbody.
  destruct (tnc_FunctionTypeName (mtc_GetValue m)) as [f|]; [discriminate|].
  apply bind_Returns in Hbody as (tp & sp & Hparse & Hret).
  assert (tp = t3) as -> by (apply ret_Returns in Hret; inversion Hret; auto).
  clear Hret.
  assert (t3 = t2) as ->.
  { destruct (tn_TypeDescription typeName);
      [|destruct (ResolveByNode _ _) as [[? ?]|]];
      apply ret_Returns in Hend; inversion Hend; auto. }
  clear Hend.
  apply (parseTypeName_with_user_defined _ _ _ _ _ _ _ He Hm) in Hparse
    as (Hnt & Hname & Hspan & Hparent & Hid).
  revert Hparent Hid. same_id. intros Hparent Hid.
  assert (Hs : tn_Id t2 = s) by (rewrite Hid; destruct t; reflexivity).
  clear Hkey. destruct t2; simpl in *. destruct Hspan as (? & ? & ?).
  repeat split; try assumption; congruence.
Qed.


(** X26. A mapping from an elementary key to an elementary value, through
    [TypeName.Parse]: six ids are drawn, in the order node, span, key, span
    of the key, value, span of the value; the key and value nodes are
    elementary type names called as their productions are spelled and
    pointing at the mapping node as their parent; and the mapping node
    itself keeps the name and the node type it had: it is not made a
    mapping type name, as the mapping under a mapping or an array is. *)
Theorem mapping_of_elementary_types
    fuel t parentNodeId ctx m rest ke ve s :
  tnc_GetChildren ctx = ChildMappingType m :: rest ->
  forallb is_terminal_child rest = true ->
  mkc_ElementaryTypeName (mtc_GetKey m) = Some ke ->
  tnc_ElementaryTypeName (mtc_GetValue m) = Some ve ->
  exists t' keyType valueType,
    TypeName_Parse (S fuel) t parentNodeId ctx s = Returns (t', s + 6)
    /\ tn_Id t' = s /\ src_Id (tn_Src t') = s + 1
    /\ tn_NodeType t' = tn_NodeType t /\ tn_Name t' = tn_Name t
    /\ tn_KeyType t' = Some keyType /\ tn_ValueType t' = Some valueType
    /\ tn_Id keyType = s + 2 /\ src_Id (tn_Src keyType) = s + 3
    /\ tn_Id valueType = s + 4 /\ src_Id (tn_Src valueType) = s + 5
    /\ tn_NodeType keyType = NodeType_ELEMENTARY_TYPE_NAME
    /\ tn_NodeType valueType = NodeType_ELEMENTARY_TYPE_NAME
    /\ tn_Name keyType = mkc_GetText (mtc_GetKey m)
    /\ tn_Name valueType = tnc_GetText (mtc_GetValue m)
    /\ src_ParentIndex (tn_Src keyType) = s
    /\ src_ParentIndex (tn_Src valueType) = s.
Proof.
  intros Hchildren Hterm Hk Hv. unfold TypeName_Parse.
  unfold bind at 1 2, GetNextID. rewrite Hchildren.
  cbn [Parse_children]. unfold bind at 1.
  unfold parseMappingTypeName. cbn [generateTypeName].
  unfold bind, GetNextID. rewrite Hk.
  destruct (normalizeTypeDescription (etn_GetText ke)) as [kn ki].
  cbn. unfold bind, GetNextID. rewrite Hv.
  destruct (normalizeTypeDescription (etn_GetText ve)) as [vn vi].
  cbn. unfold ret.
  rewrite (Parse_children_terminals _ _ _ Hterm).
  replace (s + 1 + 1 + 1 + 1 + 1 + 1) with (s + 6) by lia.
  eexists. eexists. eexists. split; [reflexivity|].
  destruct t; simpl. repeat split; try reflexivity; simpl; lia.
Qed.


(** *** The productions the spans of a type name tree are read from *)

Lemma span_from_tokens productions id line column parent start stop :
  In (start, stop) productions ->
  span_from productions
    {| src_Id := id; src_Line := line; src_Column := column;
       src_Start := tok_Start start; src_End := tok_Stop stop;
       src_Length := Int64.add (Int64.sub (tok_Stop stop) (tok_Start start)) 1;
       src_ParentIndex := parent |}.
Proof. intros H. exists start, stop. split; [exact H | repeat split]. Qed.

Lemma tnc_productions_children text start stop children :
  tnc_productions (mkTypeNameContext text start stop children)
  = (start, stop) :: flat_map child_productions children.
Proof.
  simpl; f_equal; induction children as [|child rest IH]; simpl; congruence.
Qed.

Lemma tnc_own_production c :
  In (tnc_GetStart c, tnc_GetStop c) (tnc_productions c).
Proof. destruct c. rewrite tnc_productions_children. left. reflexivity. Qed.

Lemma child_productions_incl c child :
  In child (tnc_GetChildren c) ->
  incl (child_productions child) (tnc_productions c).
Proof.
  destruct c as [text start stop children]. rewrite tnc_productions_children.
  simpl. intros Hin x Hx. right. apply in_flat_map. exists child. auto.
Qed.

Lemma tnc_MappingType_productions c m :
  tnc_MappingType c = Some m -> incl (mtc_productions m) (tnc_productions c).
Proof.
  unfold tnc_MappingType. intros H.
  apply first_child_In in H as (child & Hin & Hc).
  destruct child; inversion Hc; subst.
  exact (child_productions_incl _ _ Hin).
Qed.

Lemma tnc_IdentifierPath_productions c path :
  tnc_IdentifierPath c = Some path ->
  incl (ipc_productions path) (tnc_productions c).
Proof.
  unfold tnc_IdentifierPath. intros H.
  apply first_child_In in H as (child & Hin & Hc).
  destruct child; inversion Hc; subst.
  exact (child_productions_incl _ _ Hin).
Qed.

Lemma mtc_key_productions m :
  incl (mkc_productions (mtc_GetKey m)) (mtc_productions m).
Proof.
  destruct m as [text start stop key value]. simpl mtc_GetKey.
  intros x Hx.
  change (In x ((start, stop)
                  :: (mkc_productions key ++ tnc_productions value)%list)).
  right. apply in_or_app. left. exact Hx.
Qed.

Lemma mtc_value_productions m :
  incl (tnc_productions (mtc_GetValue m)) (mtc_productions m).
Proof.
  destruct m as [text start stop key value]. simpl mtc_GetValue.
  intros x Hx.
  change (In x ((start, stop)
                  :: (mkc_productions key ++ tnc_productions value)%list)).
  right. apply in_or_app. right. exact Hx.
Qed.

Lemma spans_from_unfold productions t :
  spans_from productions t <->
  span_from productions (tn_Src t)
  /\ match tn_KeyType t with Some k => spans_from productions k | None => True end
  /\ match tn_ValueType t with Some v => spans_from productions v | None => True end
  /\ match tn_PathNode t with
     | Some pathNode => span_from productions (pn_Src pathNode)
     | None => True
     end.
Proof.
  destruct t as [id nt src name td k v pn sm rd]. unfold spans_from. simpl.
  rewrite !Forall_cons_iff, !Forall_app.
  destruct k, v, pn; simpl; rewrite ?Forall_cons_iff, ?Forall_nil_iff; logic.
Qed.

(** The setters that leave the spans alone. *)
Lemma from_set_NodeType L v t : spans_from L t -> spans_from L (set_tn_NodeType v t).
Proof. destruct t; exact (fun H => H). Qed.
Lemma from_set_Name L v t : spans_from L t -> spans_from L (set_tn_Name v t).
Proof. destruct t; exact (fun H => H). Qed.
Lemma from_set_Id L v t : spans_from L t -> spans_from L (set_tn_Id v t).
Proof. destruct t; exact (fun H => H). Qed.
Lemma from_set_TypeDescription L v t :
  spans_from L t -> spans_from L (set_tn_TypeDescription v t).
Proof. destruct t; exact (fun H => H). Qed.
Lemma from_set_ReferencedDeclaration L v t :
  spans_from L t -> spans_from L (set_tn_ReferencedDeclaration v t).
Proof. destruct t; exact (fun H => H). Qed.
Lemma from_set_StateMutability L v t :
  spans_from L t -> spans_from L (set_tn_StateMutability v t).
Proof. destruct t; exact (fun H => H). Qed.

Lemma from_set_Src L v t :
  span_from L v -> spans_from L t -> spans_from L (set_tn_Src v t).
Proof.
  intros Hv. rewrite (spans_from_unfold L (set_tn_Src _ _)), (spans_from_unfold L t).
  destruct t; simpl. logic.
Qed.

Lemma from_set_KeyType L k t :
  spans_from L k -> spans_from L t -> spans_from L (set_tn_KeyType (Some k) t).
Proof.
  intros Hk. rewrite (spans_from_unfold L (set_tn_KeyType _ _)), (spans_from_unfold L t).
  destruct t; simpl. logic.
Qed.

Lemma from_set_ValueType L v t :
  spans_from L v -> spans_from L t -> spans_from L (set_tn_ValueType (Some v) t).
Proof.
  intros Hv. rewrite (spans_from_unfold L (set_tn_ValueType _ _)), (spans_from_unfold L t).
  destruct t; simpl. logic.
Qed.

Lemma from_set_PathNode L pathNode t :
  span_from L (pn_Src pathNode) -> spans_from L t ->
  spans_from L (set_tn_PathNode (Some pathNode) t).
Proof.
  intros Hp. rewrite (spans_from_unfold L (set_tn_PathNode _ _)), (spans_from_unfold L t).
  destruct t; simpl. logic.
Qed.

Lemma from_resolved_path L refId t :
  spans_from L t ->
  spans_from L
    match tn_PathNode t with
    | Some pathNode =>
        set_tn_PathNode (Some (set_pn_ReferencedDeclaration refId pathNode)) t
    | None => t
    end.
Proof.
  intros Ht. destruct (tn_PathNode t) as [pn|] eqn:E; [|exact Ht].
  apply from_set_PathNode; [|exact Ht].
  apply spans_from_unfold in Ht. rewrite E in Ht.
  destruct pn. simpl in *. logic.
Qed.

Lemma store_from L (r r' : TypeNameRef) (t t' : TypeName)
    (f : TypeName -> TypeName) :
  store r t f = (t', r') ->
  (forall x, spans_from L x -> spans_from L (f x)) ->
  spans_from L t -> ref_spans_from L r ->
  spans_from L t' /\ ref_spans_from L r'.
Proof.
  intros H Hf Ht Hr. destruct r; simpl in H; inversion H; subst; simpl; auto.
Qed.

Lemma from_fresh_node L id src nt name td sm rd :
  span_from L src ->
  spans_from L (mkTypeName id nt src name td None None None sm rd).
Proof. intros H. unfold spans_from. simpl. repeat constructor. exact H. Qed.

Lemma parseTypeName_with_from L generate t parentNodeId ctx s t' s' :
  generate_reads_spans L generate ->
  parseTypeName_with generate t parentNodeId ctx s = Returns (t', s') ->
  incl (tnc_productions ctx) L ->
  spans_from L t -> spans_from L t'.
Proof.
  intros Hgen H Hin Ht. unfold parseTypeName_with in H.
  next_id H.
  match type of H with
  | context [set_tn_Src ?src (set_tn_Name ?n t)] =>
      assert (Ht0 : spans_from L (set_tn_Src src (set_tn_Name n t)))
        by (apply from_set_Src;
            [apply span_from_tokens, Hin, tnc_own_production
            | apply from_set_Name; exact Ht]);
      set (t0 := set_tn_Src src (set_tn_Name n t)) in *
  end.
  destruct (tnc_ElementaryTypeName ctx) as [e|].
  { destruct (normalizeTypeDescription (etn_GetText e)) as [n i].
    ret_inv H. apply from_set_TypeDescription. exact Ht0. }
  destruct (tnc_MappingType ctx) as [m|] eqn:Em.
  { bind_inv H. destruct a as [[res t1] r1]. ret_inv H.
    apply tnc_MappingType_productions in Em.
    exact (proj1 (Hgen _ _ _ _ _ _ _ _ Hm (incl_tran Em Hin)
                    (from_set_NodeType _ NodeType_MAPPING_TYPE_NAME _ Ht0) I)). }
  destruct (tnc_FunctionTypeName ctx) as [f|]; [discriminate|].
  bind_inv H. bind_inv H. apply deref_Returns in Hm0 as [Hpath ->].
  rewrite Hpath in Hm. next_id Hm. next_id Hm. ret_inv Hm.
  apply tnc_IdentifierPath_productions in Hpath.
  match type of H with
  | context [SubjectTypeName ?x] =>
      assert (Hx : spans_from L x);
      [| destruct (ResolveByNode (SubjectTypeName x) (ipc_GetText a0))
           as [[refId refTd]|]; ret_inv H ]
  end.
  - apply from_set_PathNode.
    + apply span_from_tokens, Hin, Hpath. left. reflexivity.
    + apply from_set_NodeType. exact Ht0.
  - apply from_set_TypeDescription, from_set_ReferencedDeclaration.
    exact (from_resolved_path _ refId _ Hx).
  - exact Hx.
Qed.

Lemma generateTypeName_from L (fuel : nat) :
  generate_reads_spans L (generateTypeName fuel).
Proof.
  induction fuel as [|fuel IH]; intros t ctx r s res t' r' s' H Hin Ht Hr.
  { discriminate. }
  simpl in H. next_id H. bind_inv H.
  destruct a as [[typeName t1] r1].
  assert (Hbody : spans_from L t1 /\ ref_spans_from L r1
                  /\ match ctx with
                     | CtxMappingType _ => True
                     | _ => spans_from L typeName
                     end).
  { clear H. destruct ctx as [keyCtx | mapCtx | tnCtx].
    - simpl in Hin. next_id Hm.
      assert (Hown : In (mkc_GetStart keyCtx, mkc_GetStop keyCtx) L)
        by (apply Hin; left; reflexivity).
      destruct (mkc_ElementaryTypeName keyCtx) as [e|].
      + destruct (normalizeTypeDescription (etn_GetText e)) as [n i].
        ret_inv Hm. repeat split; auto.
        apply from_fresh_node, span_from_tokens, Hown.
      + ret_inv Hm. repeat split; auto.
        apply from_fresh_node, span_from_tokens, Hown.
    - simpl in Hin.
      destruct (store r t (set_tn_NodeType NodeType_MAPPING_TYPE_NAME))
        as [t2 r2] eqn:E2.
      pose proof (store_from L _ _ _ _ _ E2
                    (fun x => from_set_NodeType _ _ x) Ht Hr) as [Ht2 Hr2].
      bind_inv Hm. destruct a as [[keyType t3] r3].
      destruct (IH _ _ _ _ _ _ _ _ Hm0
                  (incl_tran (mtc_key_productions mapCtx) Hin) Ht2 Hr2)
        as (Ht3 & Hr3 & Hkey).
      destruct (store r3 t3 (set_tn_KeyType (Some keyType))) as [t4 r4] eqn:E4.
      pose proof (store_from L _ _ _ _ _ E4
                    (fun x => from_set_KeyType _ _ x Hkey) Ht3 Hr3) as [Ht4 Hr4].
      bind_inv Hm. destruct a as [[valueType t5] r5].
      destruct (IH _ _ _ _ _ _ _ _ Hm1
                  (incl_tran (mtc_value_productions mapCtx) Hin) Ht4 Hr4)
        as (Ht5 & Hr5 & Hvalue).
      destruct (store r5 t5 (set_tn_ValueType (Some valueType))) as [t6 r6] eqn:E6.
      pose proof (store_from L _ _ _ _ _ E6
                    (fun x => from_set_ValueType _ _ x Hvalue) Ht5 Hr5) as [Ht6 Hr6].
      bind_inv Hm.
      destruct (store r6 t6 (set_tn_TypeDescription (Some a))) as [t7 r7] eqn:E7.
      pose proof (store_from L _ _ _ _ _ E7
                    (fun x => from_set_TypeDescription _ _ x) Ht6 Hr6) as [Ht7 Hr7].
      ret_inv Hm. auto.
    - simpl in Hin. next_id Hm.
      assert (Hown : In (tnc_GetStart tnCtx, tnc_GetStop tnCtx) L)
        by (apply Hin, tnc_own_production).
      destruct (tnc_ElementaryTypeName tnCtx) as [e|].
      { destruct (normalizeTypeDescription (etn_GetText e)) as [n i].
        ret_inv Hm. repeat split; auto.
        apply from_fresh_node, span_from_tokens, Hown. }
      destruct (tnc_MappingType tnCtx) as [m|] eqn:Em.
      { bind_inv Hm. destruct a as [[res1 t2] local]. ret_inv Hm.
        match type of Hm0 with
        | generateTypeName _ _ _ (RefLocal ?n) _ = _ =>
            assert (Hn : spans_from L n)
              by (apply from_fresh_node, span_from_tokens, Hown)
        end.
        apply tnc_MappingType_productions in Em.
        destruct (IH _ _ _ _ _ _ _ _ Hm0 (incl_tran Em Hin) Ht Hn)
          as (Ht2 & Hlocal & _).
        repeat split; auto. destruct local; simpl; auto. }
      destruct (tnc_FunctionTypeName tnCtx) as [f|]; [discriminate|].
      bind_inv Hm. ret_inv Hm.
      pose proof (parseTypeName_with_from L _ _ _ _ _ _ _ IH Hm0 Hin Ht) as Ht2.
      repeat split; auto.
      apply from_fresh_node, span_from_tokens, Hown. }
  destruct Hbody as (Ht1 & Hr1 & Hres).
  destruct (tn_TypeDescription typeName).
  { ret_inv H. auto. }
  destruct (ResolveByNode (SubjectTypeName typeName) (tn_Name typeName))
    as [[refId refTd]|]; ret_inv H; repeat split; auto.
  destruct ctx; auto using from_set_TypeDescription, from_set_ReferencedDeclaration.
Qed.

Lemma parseMappingTypeName_from L fuel t parentNodeId ctx s t' s' :
  parseMappingTypeName fuel t parentNodeId ctx s = Returns (t', s') ->
  incl (mtc_productions ctx) L ->
  spans_from L t -> spans_from L t'.
Proof.
  unfold parseMappingTypeName. intros H Hin Ht.
  bind_inv H. destruct a as [[keyType t1] r1].
  destruct (generateTypeName_from L fuel _ _ _ _ _ _ _ _ Hm
              (incl_tran (mtc_key_productions ctx) Hin) Ht I)
    as (Ht1 & _ & Hkey).
  bind_inv H. destruct a as [[valueType t2] r2].
  destruct (generateTypeName_from L fuel _ _ _ _ _ _ _ _ Hm0
              (incl_tran (mtc_value_productions ctx) Hin)
              (from_set_KeyType _ _ _ Hkey Ht1) I)
    as (Ht2 & _ & Hvalue).
  bind_inv H. ret_inv H.
  apply from_set_TypeDescription, from_set_ValueType; assumption.
Qed.

Lemma parseIdentifierPath_from L t parentNodeId ctx s t' s' :
  parseIdentifierPath t parentNodeId ctx s = Returns (t', s') ->
  incl (ipc_productions ctx) L ->
  spans_from L t -> spans_from L t'.
Proof.
  unfold parseIdentifierPath. intros H Hin Ht.
  destruct (ipc_AllIdentifier ctx) as [|identifierCtx others] eqn:Eall.
  { ret_inv H. apply from_set_NodeType. exact Ht. }
  next_id H. next_id H.
  assert (Hown : In (idc_GetStart identifierCtx, idc_GetStop identifierCtx) L).
  { apply Hin. unfold ipc_productions. rewrite Eall. right. left. reflexivity. }
  match type of H with
  | context [SubjectTypeName ?x] =>
      assert (Hx : spans_from L x);
      [| destruct (ResolveByNode (SubjectTypeName x) (idc_GetText identifierCtx))
           as [[refId refTd]|]; ret_inv H ]
  end.
  - apply from_set_PathNode.
    + apply span_from_tokens, Hown.
    + apply from_set_NodeType. exact Ht.
  - apply from_set_TypeDescription, from_set_ReferencedDeclaration.
    exact (from_resolved_path _ refId _ Hx).
  - exact Hx.
Qed.

Lemma parseElementaryTypeName_from L t parentNodeId ctx s t' s' :
  parseElementaryTypeName t parentNodeId ctx s = Returns (t', s') ->
  spans_from L t -> spans_from L t'.
Proof.
  unfold parseElementaryTypeName. intros H Ht.
  destruct (normalizeTypeDescription (etn_GetText ctx)) as [n i].
  ret_inv H.
  destruct (String.eqb i "t_address"); [|destruct (String.eqb i "t_address_payable")];
    auto using from_set_TypeDescription, from_set_StateMutability,
      from_set_NodeType, from_set_Name.
Qed.

Lemma Parse_children_from L fuel parentNodeId children :
  (forall child, In child children -> incl (child_productions child) L) ->
  forall t s t' s',
    Parse_children fuel t parentNodeId children s = Returns (t', s') ->
    spans_from L t -> spans_from L t'.
Proof.
  induction children as [|child rest IH]; intros Hin t s t' s' H Ht; simpl in H.
  { ret_inv H. exact Ht. }
  bind_inv H.
  apply (IH (fun c Hc => Hin c (or_intror Hc)) _ _ _ _ H). clear H IH.
  pose proof (Hin child (or_introl eq_refl)) as Hchild.
  destruct child as [e | m | f | path | c | text | goType]; try discriminate.
  - exact (parseElementaryTypeName_from L _ _ _ _ _ _ Hm Ht).
  - exact (parseMappingTypeName_from L _ _ _ _ _ _ _ Hm Hchild Ht).
  - exact (parseIdentifierPath_from L _ _ _ _ _ _ Hm Hchild Ht).
  - unfold parseTypeName in Hm.
    exact (parseTypeName_with_from L _ _ _ _ _ _ _
             (generateTypeName_from L fuel) Hm Hchild Ht).
  - ret_inv Hm. exact Ht.
Qed.

Lemma TypeName_Parse_from fuel parentNodeId ctx s t' s' :
  TypeName_Parse fuel NewTypeName parentNodeId ctx s = Returns (t', s') ->
  spans_from (tnc_productions ctx) t'.
Proof.
  unfold TypeName_Parse. intros H. next_id H. next_id H.
  apply (Parse_children_from (tnc_productions ctx) _ _ _
           (fun child Hc => child_productions_incl ctx child Hc) _ _ _ _ H).
  apply from_fresh_node, span_from_tokens, tnc_own_production.
Qed.

(** C7, amended. Every node of the tree a translator returns carries a span
    whose length is [end - start + 1] in Go's [int64], with start and end
    the offsets of the start and stop tokens of a production of the
    translated parse tree: for a primary expression, of its own production;
    in the tree [TypeName.Parse] builds on a fresh type name, for the node
    itself, the key and value nodes of every mapping at every depth and
    every path node, of a production of the parse tree of the type name
    (which need not be the production of the node: an array type carries
    the span of its base type).  The node [generateTypeName] allocates for a
    mapping production, which no caller attaches to the tree, is not among
    them: it has no span. *)
Theorem span_length_is_end_minus_start_plus_one :
  (forall p unit fnNode bodyNode vDeclar expNode ctx s p' s',
      PrimaryExpression_Parse p unit fnNode bodyNode vDeclar expNode ctx s
        = Returns (p', s') ->
      span_of (pec_GetStart ctx) (pec_GetStop ctx) (pe_Src p'))
  /\ (forall fuel parentNodeId ctx s t' s',
         TypeName_Parse fuel NewTypeName parentNodeId ctx s = Returns (t', s') ->
         spans_ok t' /\ spans_from (tnc_productions ctx) t').
Proof.
  split.
  - intros. eapply PrimaryExpression_Parse_Src; eassumption.
  - intros fuel parentNodeId ctx s t' s' H. split.
    + eapply TypeName_Parse_spans; eassumption.
    + eapply TypeName_Parse_from; eassumption.
Qed.

End Translators.

(** ** The properties at sample inputs *)

Lemma span_length_witness :
  (exists p' s',
      PrimaryExpression_Parse resolve_nothing 0 sample_node sample_unit None
        (Some sample_body) None None (number_literal "12.5" 3) 101
        = Returns (p', s')
      /\ span_of (token_at 0 3) (token_at 0 3) (pe_Src p'))
  /\ (exists t' s',
         TypeName_Parse sample_normalize resolve_nothing 3 NewTypeName 0
           sample_mapping_type_name 100 = Returns (t', s')
         /\ spans_ok t'
         /\ spans_from (tnc_productions sample_mapping_type_name) t').
Proof.
  split.
  - eexists. eexists. split; [vm_compute; reflexivity|].
    eapply (proj1 (span_length_is_end_minus_start_plus_one
                    sample_normalize resolve_nothing 0)
             sample_node sample_unit None (Some sample_body) None None
             (number_literal "12.5" 3) 101).
    vm_compute. reflexivity.
  - eexists. eexists. split; [vm_compute; reflexivity|].
    exact (proj2 (span_length_is_end_minus_start_plus_one
                    sample_normalize resolve_nothing 0)
             3%nat 0 sample_mapping_type_name 100 _ _ eq_refl).
Defined.

(** C7 as stated fails.  The node [generateTypeName] allocates for the
    mapping production [mapping(address => uint256)], the node 100 it hands
    to the Resolver and returns, has the span zero: its length is 0, not
    [0 - 0 + 1].  And the node [TypeName.Parse] returns for the array type
    [uint256[]], a production from offset 0 to offset 8, ends at offset 6:
    its span is the span of the base type. *)
Lemma span_counterexample :
  (exists res t' r' s',
      generateTypeName sample_normalize resolve_nothing 3 NewTypeName
        (CtxMappingType sample_mapping) RefReceiver 100
      = Returns ((res, t', r'), s')
      /\ tn_Id res = 100
      /\ tn_Src res = SrcNode_zero
      /\ src_Length (tn_Src res)
         <> Int64.add (Int64.sub (src_End (tn_Src res)) (src_Start (tn_Src res))) 1)
  /\ (exists t' s',
         TypeName_Parse sample_normalize resolve_nothing 3 NewTypeName 0
           sample_array 100 = Returns (t', s')
         /\ tok_Start (tnc_GetStart sample_array) = 0
         /\ tok_Stop (tnc_GetStop sample_array) = 8
         /\ src_Start (tn_Src t') = 0
         /\ src_End (tn_Src t') = 6
         /\ src_End (tn_Src t') <> tok_Stop (tnc_GetStop sample_array)).
Proof.
  split.
  - do 4 eexists. split; [vm_compute; reflexivity|].
    repeat split. vm_compute. discriminate.
  - do 2 eexists. split; [vm_compute; reflexivity|].
    repeat split. vm_compute. discriminate.
Qed.

Lemma mapping_type_description_witness :
  exists t' s',
    parseMappingTypeName sample_normalize resolve_nothing 2 NewTypeName 0
      sample_mapping 100 = Returns (t', s')
    /\ mapping_described t'.
Proof.
  eexists. eexists. split; [vm_compute; reflexivity|].
  eapply (proj1 (mapping_type_description sample_normalize resolve_nothing)
           2%nat NewTypeName 0 sample_mapping 100).
  vm_compute. reflexivity.
Defined.

(** C1 as stated fails: for [mapping(address => uint256)], with the key and
    value identifiers [t_address] and [t_uint256], the identifier of the
    mapping is [t_mapping_$t_address_$t_uint256$], not
    [mapping_$t_address_$t_uint256$]. *)
Lemma mapping_identifier_counterexample :
  exists t' s' keyType valueType k v d,
    TypeName_Parse sample_normalize resolve_nothing 3 NewTypeName 0
      sample_mapping_type_name 100 = Returns (t', s')
    /\ tn_KeyType t' = Some keyType
    /\ tn_ValueType t' = Some valueType
    /\ tn_TypeDescription keyType = Some k
    /\ tn_TypeDescription valueType = Some v
    /\ tn_TypeDescription t' = Some d
    /\ TypeIdentifier d = "t_mapping_$t_address_$t_uint256$"
    /\ TypeIdentifier d
       <> "mapping_$" ++ TypeIdentifier k ++ "_$" ++ TypeIdentifier v ++ "$".
Proof.
  do 7 eexists.
  split; [vm_compute; reflexivity|].
  repeat (split; [reflexivity|]).
  vm_compute. discriminate.
Qed.

Lemma hex_string_literal_witness :
  PrimaryExpression_Parse resolve_nothing 0 sample_node sample_unit None
    (Some sample_body) None None hex_string_literal 101
  = RuntimePanics NilDereference.
Proof.
  apply (proj2 (hex_string_literal_nil_dereference resolve_nothing 0)
           sample_node sample_unit None (Some sample_body) None None
           hex_string_literal
           (mkLiteralContext None None None (Some "hex'00ff'")) "hex'00ff'" 101);
    reflexivity.
Defined.

Lemma placeholder_witness :
  exists p',
    PrimaryExpression_Parse resolve_nothing 0 sample_node sample_unit
      (Some (function_with_parameter "_")) (Some sample_body) None None
      (identifier "_" 0) 101 = Returns (p', 101 + 1)
    /\ p' = set_pe_NodeType NodeType_PLACEHOLDER_STATEMENT
              (identified resolve_nothing (Some (function_with_parameter "_"))
                 (Some sample_body) (identifier "_" 0)
                 (head_node sample_node sample_unit None (identifier "_" 0) 101 50))
    /\ pe_NodeType p' = NodeType_PLACEHOLDER_STATEMENT
    /\ pe_Kind p' = pe_Kind sample_node /\ pe_Value p' = pe_Value sample_node
    /\ pe_HexValue p' = pe_HexValue sample_node
    /\ pe_IsPure p' = pe_IsPure sample_node.
Proof.
  apply (placeholder_returned_before_literals resolve_nothing 0 sample_node
           sample_unit (Some (function_with_parameter "_")) (Some sample_body)
           None None (identifier "_" 0) 50 101); reflexivity.
Defined.

(** C6 as stated fails: in a function with a parameter [uint256 _], the
    identifier [_] is resolved before the node is returned as a placeholder
    statement: it carries the type description of the parameter and a
    referenced declaration, where a node that had gone past the identifier
    handling would carry neither. *)
Lemma placeholder_counterexample :
  exists p' s',
    PrimaryExpression_Parse resolve_nothing 0 sample_node sample_unit
      (Some (function_with_parameter "_")) (Some sample_body) None None
      (identifier "_" 0) 101 = Returns (p', s')
    /\ pe_NodeType p' = NodeType_PLACEHOLDER_STATEMENT
    /\ pe_TypeDescription p'
       = Some {| TypeIdentifier := "t_uint256"; TypeString := "uint256" |}
    /\ pe_ReferencedDeclaration p' = 100
    /\ pe_TypeDescription p' <> pe_TypeDescription sample_node
    /\ pe_ReferencedDeclaration p' <> pe_ReferencedDeclaration sample_node.
Proof.
  eexists. eexists. split; [vm_compute; reflexivity|].
  simpl. repeat split; discriminate.
Qed.

Lemma message_type_witness :
  (exists p',
      PrimaryExpression_Parse resolve_nothing 0 sample_node sample_unit
        (Some (function_with_parameter "x")) (Some body_declaring_x_twice)
        None None (identifier "msg" 2) 101 = Returns (p', 101 + 1)
      /\ pe_TypeDescription p' = Some magic_message)
  /\ (exists p',
         PrimaryExpression_Parse resolve_nothing 0 sample_node sample_unit
           (Some (function_with_parameter "msg")) (Some sample_body)
           None None (identifier "msg" 2) 101 = Returns (p', 101 + 1)
         /\ pe_TypeDescription p'
            = Some {| TypeIdentifier := "t_uint256"; TypeString := "uint256" |}).
Proof.
  split.
  - destruct (message_type_unless_shadowed resolve_nothing 0 sample_node
                sample_unit (Some (function_with_parameter "x"))
                (Some body_declaring_x_twice) None None (identifier "msg" 2)
                50 101 eq_refl eq_refl eq_refl eq_refl)
      as (p' & Hret & Hunshadowed & _).
    exists p'. split; [exact Hret | apply Hunshadowed; reflexivity].
  - destruct (message_type_unless_shadowed resolve_nothing 0 sample_node
                sample_unit (Some (function_with_parameter "msg"))
                (Some sample_body) None None (identifier "msg" 2)
                50 101 eq_refl eq_refl eq_refl eq_refl)
      as (p' & Hret & _ & Hshadowed).
    exists p'. split; [exact Hret|].
    exact (Hshadowed "msg" eq_refl eq_refl eq_refl).
Defined.

(** C3 as stated fails: in a function with a parameter [uint256 msg], the
    identifier [msg] gets the type description of the parameter, not the
    message type. *)
Lemma message_type_counterexample :
  exists p' s',
    PrimaryExpression_Parse resolve_nothing 0 sample_node sample_unit
      (Some (function_with_parameter "msg")) (Some sample_body) None None
      (identifier "msg" 2) 101 = Returns (p', s')
    /\ pe_TypeDescription p'
       = Some {| TypeIdentifier := "t_uint256"; TypeString := "uint256" |}
    /\ pe_TypeDescription p'
       <> Some {| TypeIdentifier := "t_magic_message"; TypeString := "msg" |}.
Proof.
  eexists. eexists. split; [vm_compute; reflexivity|].
  simpl. split; [reflexivity | discriminate].
Qed.

Lemma local_declaration_witness :
  exists p',
    PrimaryExpression_Parse resolve_nothing 0 sample_node sample_unit
      (Some (function_with_parameter "x")) (Some body_declaring_x_twice)
      None None (identifier "x" 0) 101 = Returns (p', 101 + 1)
    /\ pe_ReferencedDeclaration p' = 22
    /\ pe_TypeDescription p'
       = Some {| TypeIdentifier := "t_bool"; TypeString := "bool" |}.
Proof.
  apply (local_declaration_wins resolve_nothing 0 sample_node sample_unit
           (Some (function_with_parameter "x")) (Some body_declaring_x_twice)
           None None (identifier "x" 0) "x"
           (mkVariableDeclaration 22
              [mkDeclaration 32 "x" (Some (sample_type 33 "bool"))])
           (mkDeclaration 32 "x" (Some (sample_type 33 "bool")))
           (sample_type 33 "bool")
           {| TypeIdentifier := "t_bool"; TypeString := "bool" |} 101);
    reflexivity.
Defined.

(** C4 as stated fails: with a parameter [uint256 x], a local declaration
    [Foo x] (the statement 20) whose type is not resolved, and a Resolver
    that finds a declaration 99 for [x], the identifier [x] after the
    declaration records 99 and the type the Resolver gives, not the local
    declaration. *)
Lemma local_declaration_counterexample :
  exists p' s',
    PrimaryExpression_Parse resolve_x 0 sample_node sample_unit
      (Some (function_with_parameter "x")) (Some body_declaring_unresolved_x)
      None None (identifier "x" 0) 101 = Returns (p', s')
    /\ local_declaration "x" (body_GetStatements body_declaring_unresolved_x)
       = Some (mkVariableDeclaration 20
                 [mkDeclaration 30 "x" (Some (sample_unresolved_type 31 "Foo"))],
               mkDeclaration 30 "x" (Some (sample_unresolved_type 31 "Foo")))
    /\ pe_ReferencedDeclaration p' = 99
    /\ pe_ReferencedDeclaration p' <> 20
    /\ pe_TypeDescription p'
       <> tn_TypeDescription (sample_unresolved_type 31 "Foo").
Proof.
  eexists. eexists. split; [vm_compute; reflexivity|].
  simpl. repeat split; discriminate.
Qed.

(** C5 fails on the code: in [function f(uint256 x)], whose parameter is
    the node 7, the identifier [x] (the node 100) is resolved by the
    parameters, and its referenced declaration is 100, its own id, not 7. *)
Lemma parameter_reference_at_sample :
  exists p' s',
    PrimaryExpression_Parse resolve_nothing 0 sample_node sample_unit
      (Some (function_with_parameter "x")) (Some sample_body) None None
      (identifier "x" 0) 101 = Returns (p', s')
    /\ parameter_named "x" (parameters_of (Some (function_with_parameter "x")))
       = Some (mkParameter 7 "x" (Some (sample_type 8 "uint256")))
    /\ pe_TypeDescription p'
       = Some {| TypeIdentifier := "t_uint256"; TypeString := "uint256" |}
    /\ pe_Id p' = 100
    /\ pe_ReferencedDeclaration p' = 100
    /\ pe_ReferencedDeclaration p' <> 7.
Proof.
  eexists. eexists. split; [vm_compute; reflexivity|].
  simpl. repeat split; discriminate.
Qed.

Lemma malformed_number_literal_witness :
  exists p' numerator,
    PrimaryExpression_Parse resolve_nothing 0 sample_node sample_unit None
      (Some sample_body) None None (number_literal "0x10" 3) 101
      = Returns (p', 101 + 1)
    /\ p' = number_node 0 "0x10"
              (set_pe_IsPure true
                 (set_pe_NodeType NodeType_LITERAL
                    (identified resolve_nothing None (Some sample_body)
                       (number_literal "0x10" 3)
                       (head_node sample_node sample_unit None
                          (number_literal "0x10" 3) 101 50))))
    /\ numerator = fst (strconv_Atoi (numerator_text (literal_value "0x10")))
    /\ pe_TypeDescription p' =
       Some {| TypeIdentifier :=
                 "t_rational_" ++ fmt_d numerator ++ "_by_"
                   ++ fmt_d (denominator_of 0 (literal_value "0x10"));
               TypeString :=
                 (if strings_Contains (literal_value "0x10") "."
                  then "fixed_const " else "int_const ") ++ "0x10" |}
    /\ (ErrSyntax = ErrSyntax -> numerator = 0)
    /\ (ErrSyntax = ErrRange ->
        numerator = Int64.max_signed \/ numerator = Int64.min_signed).
Proof.
  apply (malformed_number_literal resolve_nothing 0 sample_node sample_unit
           None (Some sample_body) None None (number_literal "0x10" 3)
           (mkLiteralContext None None (Some "0x10") None) "0x10" 50 101
           ErrSyntax); reflexivity.
Defined.

(** The two malformed literals of the claim, evaluated: the hexadecimal
    lexeme gets the numerator 0, the lexeme beyond the range of [int] gets
    the largest [int]. *)
Example malformed_number_literals_evaluated :
  (exists p' s',
      PrimaryExpression_Parse resolve_nothing 0 sample_node sample_unit None
        (Some sample_body) None None (number_literal "0x10" 3) 101
        = Returns (p', s')
      /\ pe_TypeDescription p'
         = Some {| TypeIdentifier := "t_rational_0_by_1";
                   TypeString := "int_const 0x10" |})
  /\ (exists p' s',
         PrimaryExpression_Parse resolve_nothing 0 sample_node sample_unit None
           (Some sample_body) None None
           (number_literal "99999999999999999999" 19) 101 = Returns (p', s')
         /\ pe_TypeDescription p'
            = Some {| TypeIdentifier := "t_rational_9223372036854775807_by_1";
                      TypeString := "int_const 99999999999999999999" |}).
Proof.
  split; eexists; eexists; (split; [vm_compute; reflexivity | reflexivity]).
Qed.

Lemma number_literal_rational_witness :
  (exists p',
      PrimaryExpression_Parse resolve_nothing 0 sample_node sample_unit None
        (Some sample_body) None None (number_literal "12.5" 3) 101
        = Returns (p', 101 + 1)
      /\ pe_TypeDescription p' =
         Some {| TypeIdentifier :=
                   "t_rational_" ++ fmt_d (decimal_value ("12" ++ "5")) ++ "_by_"
                     ++ fmt_d (10 ^ Z.of_nat (String.length "5"));
                 TypeString := "fixed_const " ++ ("12" ++ "." ++ "5") |})
  /\ (exists p',
         PrimaryExpression_Parse resolve_nothing 0 sample_node sample_unit None
           (Some sample_body) None None (number_literal "42" 1) 101
           = Returns (p', 101 + 1)
         /\ pe_TypeDescription p' =
            Some {| TypeIdentifier :=
                      "t_rational_" ++ fmt_d (decimal_value "42") ++ "_by_1";
                    TypeString := "int_const " ++ "42" |}).
Proof.
  split.
  - apply (proj1 (number_literal_rational resolve_nothing 0)
             sample_node sample_unit None (Some sample_body) None None
             (number_literal "12.5" 3)
             (mkLiteralContext None None (Some "12.5") None) "12" "5" 50 101);
      reflexivity.
  - apply (proj2 (number_literal_rational resolve_nothing 0)
             sample_node sample_unit None (Some sample_body) None None
             (number_literal "42" 1)
             (mkLiteralContext None None (Some "42") None) "42" 50 101);
      reflexivity.
Defined.

(** C2 as stated fails: the lexeme [12.5] gets the identifier
    [t_rational_125_by_10], not [rational_125_by_10], and [42] gets
    [t_rational_42_by_1], not [rational_42_by_1]. *)
Lemma number_literal_counterexample :
  (exists p' s' d,
      PrimaryExpression_Parse resolve_nothing 0 sample_node sample_unit None
        (Some sample_body) None None (number_literal "12.5" 3) 101
        = Returns (p', s')
      /\ pe_TypeDescription p' = Some d
      /\ TypeIdentifier d = "t_rational_125_by_10"
      /\ TypeString d = "fixed_const 12.5"
      /\ TypeIdentifier d <> "rational_125_by_10")
  /\ (exists p' s' d,
         PrimaryExpression_Parse resolve_nothing 0 sample_node sample_unit None
           (Some sample_body) None None (number_literal "42" 1) 101
           = Returns (p', s')
         /\ pe_TypeDescription p' = Some d
         /\ TypeIdentifier d = "t_rational_42_by_1"
         /\ TypeString d = "int_const 42"
         /\ TypeIdentifier d <> "rational_42_by_1").
Proof.
  split; eexists; eexists; eexists;
    (split; [vm_compute; reflexivity|]);
    (split; [reflexivity|]); simpl; repeat split; discriminate.
Qed.

(** Number literals outside the form of the amended C2: a lexeme with an
    exponent fails the conversion and gets the numerator 0, and with 19
    fractional digits the power of 10 is outside [int], so that the
    denominator is what the conversion from [float64] gives on the platform
    (the smallest [int] here, as on amd64). *)
Example number_literals_outside_the_decimal_form :
  (exists p' s',
      PrimaryExpression_Parse resolve_nothing (- 2 ^ 63) sample_node sample_unit
        None (Some sample_body) None None (number_literal "1.5e3" 4) 101
        = Returns (p', s')
      /\ pe_TypeDescription p'
         = Some {| TypeIdentifier := "t_rational_0_by_1000";
                   TypeString := "fixed_const 1.5e3" |})
  /\ (exists p' s',
         PrimaryExpression_Parse resolve_nothing (- 2 ^ 63) sample_node
           sample_unit None (Some sample_body) None None
           (number_literal "0.0000000000000000001" 20) 101 = Returns (p', s')
         /\ pe_TypeDescription p'
            = Some {| TypeIdentifier := "t_rational_1_by_-9223372036854775808";
                      TypeString := "fixed_const 0.0000000000000000001" |}).
Proof.
  split; eexists; eexists; (split; [vm_compute; reflexivity | reflexivity]).
Qed.

Lemma Parse_bookkeeping_witness :
  exists p' s',
    PrimaryExpression_Parse resolve_nothing 0 sample_node sample_unit None
      (Some sample_body) None (Some sample_call) (number_literal "12.5" 3) 101
      = Returns (p', s')
    /\ s' = 101 + 1
    /\ pe_Id p' = pe_Id sample_node
    /\ src_Id (pe_Src p') = 101
    /\ parent_of (Some sample_call) None (Some sample_body)
       = Some (src_ParentIndex (pe_Src p'))
    /\ pe_OverloadedDeclarations p' = pe_OverloadedDeclarations sample_node
    /\ pe_ArgumentTypes p'
       = (pe_ArgumentTypes sample_node ++ call_arguments (Some sample_call))%list.
Proof.
  eexists. eexists. split; [vm_compute; reflexivity|].
  eapply (Parse_bookkeeping resolve_nothing 0 sample_node sample_unit None
            (Some sample_body) None (Some sample_call)
            (number_literal "12.5" 3) 101).
  vm_compute. reflexivity.
Defined.

Lemma Parse_without_parent_witness :
  PrimaryExpression_Parse resolve_nothing 0 sample_node sample_unit None None
    None None (identifier "x" 0) 101
  = RuntimePanics NilDereference.
Proof.
  apply (proj2 (Parse_returns_or_dereferences_nil resolve_nothing 0 sample_node
                  sample_unit None None None None (identifier "x" 0) 101)).
  reflexivity.
Defined.

Lemma resolver_fallback_witness :
  exists p',
    PrimaryExpression_Parse resolve_x 0 sample_node sample_unit None
      (Some sample_body) None (Some sample_call) (identifier "x" 0) 101
      = Returns (p', 101 + 1)
    /\ pe_Name p' = "x"
    /\ match resolve_x
               (SubjectPrimaryExpression
                  (set_pe_Name "x"
                     (head_node sample_node sample_unit (Some sample_call)
                        (identifier "x" 0) 101 40)))
               "x" with
       | Some (refId, refTypeDescription) =>
           pe_ReferencedDeclaration p' = refId
           /\ pe_TypeDescription p' = refTypeDescription
       | None =>
           pe_ReferencedDeclaration p' = pe_ReferencedDeclaration sample_node
           /\ pe_TypeDescription p' = None
       end.
Proof.
  apply (resolver_fallback resolve_x 0 sample_node sample_unit None
           (Some sample_body) None (Some sample_call) (identifier "x" 0)
           "x" 40 101); reflexivity.
Defined.

(** X4. When a parameter or a local declaration has given the node a type
    description, or the production has no identifier, the Resolver is not
    consulted: the outcome of [Parse] is the same whatever the Resolver
    knows. *)
Theorem resolver_not_consulted_when_typed
    (resolve resolve' : ResolverSubject -> string -> option (Z * option TypeDescription))
    (overflow : Z) p unit fnNode bodyNode vDeclar expNode ctx parentIndex s :
  readable ctx fnNode bodyNode = true ->
  parent_of expNode vDeclar bodyNode = Some parentIndex ->
  typed_before_resolver fnNode bodyNode ctx
    (head_node p unit expNode ctx s parentIndex) = true ->
  PrimaryExpression_Parse resolve overflow p unit fnNode bodyNode vDeclar
    expNode ctx s
  = PrimaryExpression_Parse resolve' overflow p unit fnNode bodyNode vDeclar
      expNode ctx s.
Proof.
  intros Hread Hparent Htyped.
  rewrite (Parse_typed_eq resolve overflow _ _ _ _ _ _ _ _ _ Hread Hparent Htyped).
  rewrite (Parse_typed_eq resolve' overflow _ _ _ _ _ _ _ _ _ Hread Hparent Htyped).
  reflexivity.
Qed.

Lemma resolver_not_consulted_witness :
  PrimaryExpression_Parse resolve_nothing 0 sample_node sample_unit
    (Some (function_with_parameter "x")) (Some sample_body) None None
    (identifier "x" 0) 101
  = PrimaryExpression_Parse resolve_x 0 sample_node sample_unit
      (Some (function_with_parameter "x")) (Some sample_body) None None
      (identifier "x" 0) 101.
Proof.
  apply (resolver_not_consulted_when_typed resolve_nothing resolve_x 0
           sample_node sample_unit (Some (function_with_parameter "x"))
           (Some sample_body) None None (identifier "x" 0) 50 101);
    reflexivity.
Defined.

Lemma literal_node_witness :
  exists p' s',
    PrimaryExpression_Parse resolve_nothing 0 sample_node sample_unit None
      (Some sample_body) None None string_literal 101 = Returns (p', s')
    /\ pe_NodeType p' = NodeType_LITERAL
    /\ pe_IsPure p' = true
    /\ pe_HexValue p' = hex_EncodeToString (pe_Value p')
    /\ pe_Kind p' = NodeType_STRING /\ pe_Value p' = literal_value "'abc'"
    /\ pe_Name p' = ""
    /\ pe_TypeDescription p'
       = Some {| TypeIdentifier := "t_string_literal";
                 TypeString := "literal_string " ++ "'abc'" |}.
Proof.
  eexists. eexists. split; [vm_compute; reflexivity|].
  eapply (literal_node resolve_nothing 0 sample_node sample_unit None
            (Some sample_body) None None string_literal
            (mkLiteralContext None (Some "'abc'") None None) 101);
    vm_compute; reflexivity.
Defined.

Lemma unknown_literal_witness :
  PrimaryExpression_Parse resolve_nothing 0 sample_node sample_unit None
    (Some sample_body) None (Some sample_call) unicode_literal 101
  = RuntimePanics NilDereference.
Proof.
  apply (unknown_literal_nil_dereference resolve_nothing 0 sample_node
           sample_unit None (Some sample_body) None (Some sample_call)
           unicode_literal (mkLiteralContext None None None None) 101);
    reflexivity.
Defined.

Lemma block_and_this_witness :
  (exists p',
      PrimaryExpression_Parse resolve_nothing 0 sample_node sample_contract
        (Some (function_with_parameter "x")) (Some sample_body) None None
        (identifier "block" 4) 101 = Returns (p', 101 + 1)
      /\ pe_TypeDescription p' = Some magic_block)
  /\ (exists p',
         PrimaryExpression_Parse resolve_nothing 0 sample_node sample_contract
           (Some (function_with_parameter "x")) (Some sample_body) None None
           (identifier "this" 3) 101 = Returns (p', 101 + 1)
         /\ pe_TypeDescription p'
            = Some {| TypeIdentifier := "t_contract$_Token_$1";
                      TypeString := "contract Token" |}).
Proof.
  split.
  - apply (proj1 (block_and_this_types resolve_nothing 0 sample_node
                    sample_contract (Some (function_with_parameter "x"))
                    (Some sample_body) None None (identifier "block" 4) 50 101
                    eq_refl eq_refl eq_refl eq_refl)).
    reflexivity.
  - apply (proj2 (block_and_this_types resolve_nothing 0 sample_node
                    sample_contract (Some (function_with_parameter "x"))
                    (Some sample_body) None None (identifier "this" 3) 50 101
                    eq_refl eq_refl eq_refl eq_refl)
             {| TypeIdentifier := "t_contract$_Token_$1";
                TypeString := "contract Token" |});
      reflexivity.
Defined.

Lemma first_child_decides_witness :
  parseExpressionStatement resolve_nothing 0 sample_delegate sample_unit None
    (Some sample_body) None
    ([ExprChild_TerminalNode ";"] ++ ExprChild_FunctionCall "f()"
       :: [ExprChild_Unrecognized "*parser.InlineArrayContext"])%list 101
  = parseExpressionStatement_children resolve_nothing 0 sample_delegate
      sample_unit None (Some sample_body) None
      ([ExprChild_TerminalNode ";"] ++ ExprChild_FunctionCall "f()"
         :: [ExprChild_Unrecognized "*parser.InlineArrayContext"])%list
      [ExprChild_FunctionCall "f()"] 101
  /\ parseExpressionStatement resolve_nothing 0 sample_delegate sample_unit None
       (Some sample_body) None
       ([ExprChild_TerminalNode ";"] ++ ExprChild_FunctionCall "f()"
          :: [ExprChild_Unrecognized "*parser.InlineArrayContext"])%list 101
     = parseExpressionStatement resolve_nothing 0 sample_delegate sample_unit
         None (Some sample_body) None [ExprChild_FunctionCall "f()"] 101.
Proof.
  destruct (expression_statement_first_child_decides resolve_nothing 0
              sample_delegate sample_unit None (Some sample_body) None
              [ExprChild_TerminalNode ";"] (ExprChild_FunctionCall "f()")
              [ExprChild_Unrecognized "*parser.InlineArrayContext"] 101
              eq_refl eq_refl) as [Hloop Halone].
  split; [exact Hloop | apply Halone; reflexivity].
Defined.

Lemma nil_iff_terminals_witness :
  parseExpressionStatement resolve_nothing 0 sample_delegate sample_unit None
    (Some sample_body) None [ExprChild_TerminalNode ";"] 101
  = Returns (None, 101)
  /\ forallb is_terminal [ExprChild_TerminalNode ";"] = true /\ 101 = 101.
Proof.
  split.
  - apply (proj1 (expression_statement_nil_iff_terminals resolve_nothing 0
                    sample_delegate sample_unit None (Some sample_body) None
                    [ExprChild_TerminalNode ";"] 101)).
    reflexivity.
  - apply (proj2 (expression_statement_nil_iff_terminals resolve_nothing 0
                    sample_delegate sample_unit None (Some sample_body) None
                    [ExprChild_TerminalNode ";"] 101) 101).
    reflexivity.
Defined.

Lemma unrecognized_child_witness :
  parseExpressionStatement resolve_nothing 0 sample_delegate sample_unit None
    (Some sample_body) None
    ([ExprChild_TerminalNode "("]
       ++ ExprChild_Unrecognized "*parser.InlineArrayContext"
       :: [ExprChild_FunctionCall "f()"])%list 101
  = Panics ("Expression statement child not recognized @ ExpressionStatement.Parse: "
              ++ "*parser.InlineArrayContext").
Proof.
  apply (expression_statement_unrecognized_child resolve_nothing 0
           sample_delegate sample_unit None (Some sample_body) None
           [ExprChild_TerminalNode "("] "*parser.InlineArrayContext"
           [ExprChild_FunctionCall "f()"] 101).
  reflexivity.
Defined.

Lemma fatal_errors_witness :
  (exists terminals goType rest,
      [ExprChild_Unrecognized "*parser.TupleContext"]
      = (terminals ++ ExprChild_Unrecognized goType :: rest)%list
      /\ forallb is_terminal terminals = true
      /\ "Expression statement child not recognized @ ExpressionStatement.Parse: *parser.TupleContext"
         = "Expression statement child not recognized @ ExpressionStatement.Parse: "
             ++ goType)
  \/ (exists d childCtx,
         sample_delegate d sample_unit None (Some sample_body) None childCtx 101
         = Panics "Expression statement child not recognized @ ExpressionStatement.Parse: *parser.TupleContext").
Proof.
  apply (expression_statement_fatal_errors resolve_nothing 0 sample_delegate
           sample_unit None (Some sample_body) None
           [ExprChild_Unrecognized "*parser.TupleContext"] 101).
  reflexivity.
Defined.

Lemma primary_expression_statement_witness :
  exists node s',
    parseExpressionStatement resolve_nothing 0 sample_delegate sample_unit None
      (Some sample_body) (Some sample_call)
      ([ExprChild_TerminalNode "("]
         ++ ExprChild_PrimaryExpression (number_literal "12.5" 3)
         :: [ExprChild_TerminalNode ";"])%list 101
    = Returns (node, s')
    /\ exists p,
         node = Some (NodePrimaryExpression p)
         /\ s' = 101 + 2
         /\ pe_Id p = 101
         /\ src_Id (pe_Src p) = 101 + 1
         /\ parent_of (Some sample_call) None (Some sample_body)
            = Some (src_ParentIndex (pe_Src p))
         /\ pe_OverloadedDeclarations p = []
         /\ pe_ArgumentTypes p = call_arguments (Some sample_call).
Proof.
  eexists. eexists. split; [vm_compute; reflexivity|].
  eapply (expression_statement_primary_expression resolve_nothing 0
            sample_delegate sample_unit None (Some sample_body)
            (Some sample_call) [ExprChild_TerminalNode "("]
            (number_literal "12.5" 3) [ExprChild_TerminalNode ";"] 101);
    vm_compute; reflexivity.
Defined.

Lemma fresh_ids_witness :
  exists t' s',
    TypeName_Parse sample_normalize resolve_nothing 3 NewTypeName 0
      sample_mapping_type_name 100 = Returns (t', s')
    /\ 100 + 2 <= s' /\ tn_Id t' = 100
    /\ Forall (fun id => 100 <= id < s') (tn_ids t').
Proof.
  eexists. eexists. split; [vm_compute; reflexivity|].
  eapply (TypeName_Parse_fresh_ids sample_normalize resolve_nothing 3
            NewTypeName 0 sample_mapping_type_name 100);
    [vm_compute; reflexivity | reflexivity | reflexivity | reflexivity].
Defined.

Lemma fatal_error_only_when_unrecognized_witness :
  TypeName_Parse sample_normalize resolve_nothing 3 NewTypeName 0
    sample_nested_array 100
  <> Panics "Unknown type name @ TypeName.Parse: *parser.TypeNameContext".
Proof.
  apply (type_name_fatal_error_only_when_unrecognized sample_normalize
           resolve_nothing 3 NewTypeName 0 sample_nested_array 100).
  reflexivity.
Defined.

Lemma unknown_child_witness :
  TypeName_Parse sample_normalize resolve_nothing 3 NewTypeName 0
    sample_function_type 100
  = Panics ("Unknown type name @ TypeName.Parse: "
              ++ child_goType
                   (ChildFunctionTypeName
                      (mkFunctionTypeNameContext "function()external"))).
Proof.
  apply (type_name_unknown_child sample_normalize resolve_nothing 3 NewTypeName
           0 sample_function_type []
           (ChildFunctionTypeName (mkFunctionTypeNameContext "function()external"))
           [] 100); reflexivity.
Defined.

Lemma function_type_not_supported_witness :
  TypeName_Parse sample_normalize resolve_nothing 3 NewTypeName 0
    sample_function_type_array 100
  = Panics "Function type name is not supported yet @ TypeName.generateTypeName: *parser.TypeNameContext"
  /\ TypeName_Parse sample_normalize resolve_nothing 3 NewTypeName 0
       sample_function_type_mapping 100
     = Panics "Function type name is not supported yet @ TypeName.generateTypeName: *parser.TypeNameContext".
Proof.
  split.
  - apply (proj1 (function_type_not_supported sample_normalize resolve_nothing
                    3 NewTypeName 0 sample_function_type_array 100)
             sample_function_type
             (mkFunctionTypeNameContext "function()external")
             [ChildTerminalNode "["; ChildTerminalNode "]"]); reflexivity.
  - apply (proj2 (function_type_not_supported sample_normalize resolve_nothing
                    2 NewTypeName 0 sample_function_type_mapping 100)
             (mkMappingTypeContext "mapping(address=>function()external)"
                (token_at 0 6) (token_at 35 35) sample_key_address
                sample_function_type)
             (mkFunctionTypeNameContext "function()external") []);
      reflexivity.
Defined.

Lemma mapping_unresolved_key_witness :
  TypeName_Parse sample_normalize resolve_nothing 3 NewTypeName 0
    sample_mapping_from_Foo 100
  = RuntimePanics NilDereference.
Proof.
  apply (mapping_unresolved_key_nil_dereference sample_normalize
           resolve_nothing 2 NewTypeName 0 sample_mapping_from_Foo
           (mkMappingTypeContext "mapping(Foo=>uint256)" (token_at 0 6)
              (token_at 20 20) sample_key_Foo sample_uint256)
           (mkElementaryTypeNameContext "uint256") [] 100);
    reflexivity.
Defined.

Lemma array_of_elementary_witness :
  exists t',
    TypeName_Parse sample_normalize resolve_nothing 3 NewTypeName 0
      sample_array 100 = Returns (t', 100 + 3)
    /\ tn_Id t' = 100
    /\ tn_Name t' = "uint256"
    /\ span_of (token_at 0 6) (token_at 0 6) (tn_Src t')
    /\ src_Id (tn_Src t') = 100 + 2
    /\ tn_NodeType t' = tn_NodeType NewTypeName
    /\ tn_TypeDescription t'
       = Some {| TypeString := fst (sample_normalize "uint256");
                 TypeIdentifier := snd (sample_normalize "uint256") |}.
Proof.
  apply (array_of_elementary_is_its_base sample_normalize resolve_nothing 3
           NewTypeName 0 sample_array
           (mkTypeNameContext "uint256" (token_at 0 6) (token_at 0 6)
              [ChildElementaryTypeName (mkElementaryTypeNameContext "uint256")])
           [ChildTerminalNode "["; ChildTerminalNode "]"]
           (mkElementaryTypeNameContext "uint256") 100); reflexivity.
Defined.

Lemma identifier_path_witness :
  exists t' pathNode,
    TypeName_Parse sample_normalize resolve_nothing 3 NewTypeName 0
      sample_user_type 100 = Returns (t', 100 + 4)
    /\ tn_NodeType t' = NodeType_USER_DEFINED_PATH_NAME
    /\ tn_Name t' = tn_Name NewTypeName
    /\ tn_PathNode t' = Some pathNode
    /\ pn_Name pathNode = "Lib"
    /\ pn_Id pathNode = 100 + 2
    /\ src_ParentIndex (pn_Src pathNode) = 100
    /\ pn_ReferencedDeclaration pathNode = 0
    /\ tn_ReferencedDeclaration t' = tn_ReferencedDeclaration NewTypeName
    /\ tn_TypeDescription t' = tn_TypeDescription NewTypeName.
Proof.
  apply (identifier_path_type_name sample_normalize resolve_nothing 3
           NewTypeName 0 sample_user_type sample_path
           (mkIdentifierContext "Lib" (token_at 0 2) (token_at 0 2))
           [mkIdentifierContext "Foo" (token_at 4 6) (token_at 4 6)]
           [] None 100); reflexivity.
Defined.

(** ** Properties of the detector registry *)

Section RegistryProperties.

Variable DetectorType : Type.
Variable DetectorType_eqb : DetectorType -> DetectorType -> bool.
Variable Detector : Type.

(** The comparison of map keys is Go's [==] on detector types. *)
Hypothesis DetectorType_eqb_eq :
  forall a b, DetectorType_eqb a b = true <-> a = b.

Lemma DetectorType_eqb_refl a : DetectorType_eqb a a = true.
Proof using DetectorType_eqb_eq. apply DetectorType_eqb_eq. reflexivity. Qed.

Lemma DetectorType_eqb_neq a b : a <> b -> DetectorType_eqb a b = false.
Proof using DetectorType_eqb_eq.
  intros H. destruct (DetectorType_eqb a b) eqn:E; [|reflexivity].
  apply DetectorType_eqb_eq in E. contradiction.
Qed.

Lemma lookup_assign_same (reg : Registry DetectorType Detector) ty d :
  lookup DetectorType_eqb (assign DetectorType_eqb reg ty d) ty = Some d.
Proof using DetectorType_eqb_eq.
  induction reg as [|[key old] rest IH]; simpl.
  - rewrite DetectorType_eqb_refl. reflexivity.
  - destruct (DetectorType_eqb key ty) eqn:E; simpl; rewrite E; auto.
Qed.

Lemma lookup_assign_other (reg : Registry DetectorType Detector) ty d ty' :
  ty' <> ty ->
  lookup DetectorType_eqb (assign DetectorType_eqb reg ty d) ty'
  = lookup DetectorType_eqb reg ty'.
Proof using DetectorType_eqb_eq.
  intros Hneq. induction reg as [|[key old] rest IH]; simpl.
  - rewrite DetectorType_eqb_neq by congruence. reflexivity.
  - destruct (DetectorType_eqb key ty) eqn:E; simpl.
    + apply DetectorType_eqb_eq in E. subst key.
      rewrite DetectorType_eqb_neq by congruence. reflexivity.
    + destruct (DetectorType_eqb key ty'); [reflexivity | exact IH].
Qed.

Lemma RegisterDetector_keeps (reg : Registry DetectorType Detector) ty d ty' :
  DetectorExists DetectorType_eqb reg ty' = true ->
  GetDetector DetectorType_eqb (snd (RegisterDetector DetectorType_eqb reg ty d)) ty'
  = GetDetector DetectorType_eqb reg ty'.
Proof using DetectorType_eqb_eq.
  unfold RegisterDetector, GetDetector. intros Hex.
  destruct (DetectorExists DetectorType_eqb reg ty) eqn:E; simpl; [reflexivity|].
  apply lookup_assign_other. intros ->. congruence.
Qed.

Lemma RegisterDetector_registered (reg : Registry DetectorType Detector) ty d :
  DetectorExists DetectorType_eqb
    (snd (RegisterDetector DetectorType_eqb reg ty d)) ty = true.
Proof using DetectorType_eqb_eq.
  unfold RegisterDetector.
  destruct (DetectorExists DetectorType_eqb reg ty) eqn:E; simpl; [exact E|].
  unfold DetectorExists. rewrite lookup_assign_same. reflexivity.
Qed.

Lemma RegisterDetector_refused (reg : Registry DetectorType Detector) ty d :
  DetectorExists DetectorType_eqb reg ty = true ->
  RegisterDetector DetectorType_eqb reg ty d = (false, reg).
Proof. unfold RegisterDetector. intros ->. reflexivity. Qed.

Lemma DetectorExists_kept (reg : Registry DetectorType Detector) ty d ty' :
  DetectorExists DetectorType_eqb reg ty' = true ->
  DetectorExists DetectorType_eqb
    (snd (RegisterDetector DetectorType_eqb reg ty d)) ty' = true.
Proof using DetectorType_eqb_eq.
  intros H. pose proof (RegisterDetector_keeps reg ty d ty' H) as Hget.
  unfold GetDetector in Hget. unfold DetectorExists in *.
  rewrite Hget. exact H.
Qed.

(** X21. [RegisterDetector] registers a detector type once: it returns
    true exactly when the type was not in the registry, the type is in the
    registry afterwards, [GetDetector] then yields the new detector after a
    true and the detector that was there after a false, and the entries of
    all other types are as they were. *)
Theorem RegisterDetector_registers_once (reg : Registry DetectorType Detector) ty d ok reg' :
  RegisterDetector DetectorType_eqb reg ty d = (ok, reg') ->
  (ok = true <-> DetectorExists DetectorType_eqb reg ty = false)
  /\ DetectorExists DetectorType_eqb reg' ty = true
  /\ GetDetector DetectorType_eqb reg' ty
     = (if ok then Some d else GetDetector DetectorType_eqb reg ty)
  /\ (forall ty', ty' <> ty ->
        GetDetector DetectorType_eqb reg' ty'
        = GetDetector DetectorType_eqb reg ty').
Proof using DetectorType_eqb_eq.
  intros H.
  pose proof (RegisterDetector_registered reg ty d) as Hreg.
  rewrite H in Hreg. simpl in Hreg.
  unfold RegisterDetector in H.
  destruct (DetectorExists DetectorType_eqb reg ty) eqn:E; simpl in H;
    inversion H; subst; clear H.
  - repeat split; try discriminate; auto.
  - repeat split; auto.
    + unfold GetDetector. apply lookup_assign_same.
    + intros ty' Hneq. unfold GetDetector. apply lookup_assign_other. exact Hneq.
Qed.

(** X22. A registered detector cannot be replaced: once a call of
    [RegisterDetector] for a type has gone through, whatever it returned,
    every later call for the type returns false and leaves the registry as
    it is. *)
Theorem RegisterDetector_never_replaces (reg : Registry DetectorType Detector) ty d d' ok reg' :
  RegisterDetector DetectorType_eqb reg ty d = (ok, reg') ->
  RegisterDetector DetectorType_eqb reg' ty d' = (false, reg').
Proof using DetectorType_eqb_eq.
  intros H. apply RegisterDetector_refused.
  pose proof (RegisterDetector_registered reg ty d) as Hreg.
  rewrite H in Hreg. exact Hreg.
Qed.

(** X23. [RegisterDetectors] can be called again: after a call the three
    detector types are registered, the detectors that were registered
    before the call are still the ones [GetDetector] yields, and a second
    call, with detectors of its own, changes nothing. *)
Theorem RegisterDetectors_idempotent
    (stateVariable transfer mint : DetectorType)
    (d1 d2 d3 d1' d2' d3' : Detector) (reg : Registry DetectorType Detector) :
  let reg' := RegisterDetectors DetectorType_eqb stateVariable transfer mint
                d1 d2 d3 reg in
  DetectorExists DetectorType_eqb reg' stateVariable = true
  /\ DetectorExists DetectorType_eqb reg' transfer = true
  /\ DetectorExists DetectorType_eqb reg' mint = true
  /\ (forall ty,
        DetectorExists DetectorType_eqb reg ty = true ->
        GetDetector DetectorType_eqb reg' ty = GetDetector DetectorType_eqb reg ty)
  /\ RegisterDetectors DetectorType_eqb stateVariable transfer mint
       d1' d2' d3' reg' = reg'.
Proof using DetectorType_eqb_eq.
  unfold RegisterDetectors.
  set (r1 := snd (RegisterDetector DetectorType_eqb reg stateVariable d1)).
  set (r2 := snd (RegisterDetector DetectorType_eqb r1 transfer d2)).
  set (r3 := snd (RegisterDetector DetectorType_eqb r2 mint d3)).
  assert (H1 : DetectorExists DetectorType_eqb r3 stateVariable = true).
  { apply DetectorExists_kept, DetectorExists_kept, RegisterDetector_registered. }
  assert (H2 : DetectorExists DetectorType_eqb r3 transfer = true).
  { apply DetectorExists_kept, RegisterDetector_registered. }
  assert (H3 : DetectorExists DetectorType_eqb r3 mint = true).
  { apply RegisterDetector_registered. }
  cbv zeta. repeat split; try assumption.
  - intros ty Hex. unfold r3, r2.
    rewrite RegisterDetector_keeps
      by (apply DetectorExists_kept, DetectorExists_kept; exact Hex).
    rewrite RegisterDetector_keeps by (apply DetectorExists_kept; exact Hex).
    apply RegisterDetector_keeps. exact Hex.
  - rewrite (RegisterDetector_refused r3 stateVariable d1' H1). simpl.
    rewrite (RegisterDetector_refused r3 transfer d2' H2). simpl.
    rewrite (RegisterDetector_refused r3 mint d3' H3). reflexivity.
Qed.

End RegistryProperties.

(** The registry of a program that has registered one detector, with
    strings for detector types and for detectors. *)
Lemma RegisterDetector_registers_once_witness :
  (true = true <-> DetectorExists String.eqb (@registry string string) "mint" = false)
  /\ DetectorExists String.eqb [("mint", "MintDetector")] "mint" = true
  /\ GetDetector String.eqb [("mint", "MintDetector")] "mint"
     = (if true then Some "MintDetector"
        else GetDetector String.eqb (@registry string string) "mint")
  /\ (forall ty', ty' <> "mint" ->
        GetDetector String.eqb [("mint", "MintDetector")] ty'
        = GetDetector String.eqb (@registry string string) ty').
Proof.
  apply (RegisterDetector_registers_once string String.eqb string String.eqb_eq
           registry "mint" "MintDetector" true [("mint", "MintDetector")]).
  reflexivity.
Defined.

Lemma RegisterDetector_never_replaces_witness :
  RegisterDetector String.eqb [("mint", "MintDetector")] "mint" "OtherDetector"
  = (false, [("mint", "MintDetector")]).
Proof.
  apply (RegisterDetector_never_replaces string String.eqb string String.eqb_eq
           registry "mint" "MintDetector" "OtherDetector" true
           [("mint", "MintDetector")]).
  reflexivity.
Defined.

Lemma RegisterDetectors_idempotent_witness :
  let reg' := RegisterDetectors String.eqb "state_variable" "transfer" "mint"
                "A" "B" "C" [("transfer", "T")] in
  DetectorExists String.eqb reg' "state_variable" = true
  /\ DetectorExists String.eqb reg' "transfer" = true
  /\ DetectorExists String.eqb reg' "mint" = true
  /\ (forall ty,
        DetectorExists String.eqb [("transfer", "T")] ty = true ->
        GetDetector String.eqb reg' ty
        = GetDetector String.eqb [("transfer", "T")] ty)
  /\ RegisterDetectors String.eqb "state_variable" "transfer" "mint"
       "A'" "B'" "C'" reg' = reg'.
Proof.
  exact (RegisterDetectors_idempotent string String.eqb string String.eqb_eq
           "state_variable" "transfer" "mint" "A" "B" "C" "A'" "B'" "C'"
           [("transfer", "T")]).
Defined.

Lemma TypeName_Parse_terminates_witness :
  TypeName_Parse sample_normalize resolve_nothing 3 NewTypeName 0
    sample_mapping_type_name 100 <> OutOfFuel
  /\ TypeName_Parse sample_normalize resolve_nothing 7 NewTypeName 0
       sample_mapping_type_name 100
     = TypeName_Parse sample_normalize resolve_nothing 3 NewTypeName 0
         sample_mapping_type_name 100.
Proof.
  apply (TypeName_Parse_terminates sample_normalize resolve_nothing 3 7
           NewTypeName 0 sample_mapping_type_name 100); vm_compute; lia.
Defined.

Lemma Parse_returns_witness :
  exists p',
    PrimaryExpression_Parse resolve_nothing 0 sample_node sample_unit
      (Some (function_with_parameter "x")) (Some body_declaring_x_twice) None
      None (identifier "x" 0) 101 = Returns (p', 101 + 1).
Proof.
  apply (proj2 (Parse_returns_iff resolve_nothing 0 sample_node sample_unit
                  (Some (function_with_parameter "x"))
                  (Some body_declaring_x_twice) None None (identifier "x" 0)
                  101)).
  exists 50. repeat split; reflexivity.
Defined.

Lemma mapping_to_user_type_witness :
  exists t' s',
    TypeName_Parse sample_normalize resolve_Foo 3 NewTypeName 0
      sample_mapping_to_Foo 100 = Returns (t', s')
    /\ tn_NodeType t' = NodeType_USER_DEFINED_PATH_NAME
    /\ tn_Name t' = "Foo"
    /\ span_of (token_at 17 19) (token_at 17 19) (tn_Src t')
    /\ src_ParentIndex (tn_Src t') = tn_Id t'
    /\ tn_Id t' = 100.
Proof.
  eexists. eexists. split; [vm_compute; reflexivity|].
  eapply (mapping_to_user_type_overwrites_the_node sample_normalize resolve_Foo
            3 NewTypeName 0 sample_mapping_to_Foo
            (mkMappingTypeContext "mapping(address=>Foo)" (token_at 0 6)
               (token_at 20 20) sample_key_address sample_Foo) [] 100);
    vm_compute; reflexivity.
Defined.

Lemma mapping_of_elementary_types_witness :
  exists t' keyType valueType,
    TypeName_Parse sample_normalize resolve_nothing 3 NewTypeName 0
      sample_mapping_type_name 100 = Returns (t', 100 + 6)
    /\ tn_Id t' = 100 /\ src_Id (tn_Src t') = 100 + 1
    /\ tn_NodeType t' = tn_NodeType NewTypeName
    /\ tn_Name t' = tn_Name NewTypeName
    /\ tn_KeyType t' = Some keyType /\ tn_ValueType t' = Some valueType
    /\ tn_Id keyType = 100 + 2 /\ src_Id (tn_Src keyType) = 100 + 3
    /\ tn_Id valueType = 100 + 4 /\ src_Id (tn_Src valueType) = 100 + 5
    /\ tn_NodeType keyType = NodeType_ELEMENTARY_TYPE_NAME
    /\ tn_NodeType valueType = NodeType_ELEMENTARY_TYPE_NAME
    /\ tn_Name keyType = "address"
    /\ tn_Name valueType = "uint256"
    /\ src_ParentIndex (tn_Src keyType) = 100
    /\ src_ParentIndex (tn_Src valueType) = 100.
Proof.
  apply (mapping_of_elementary_types sample_normalize resolve_nothing 2
           NewTypeName 0 sample_mapping_type_name sample_mapping []
           (mkElementaryTypeNameContext "address")
           (mkElementaryTypeNameContext "uint256") 100); reflexivity.
Defined.
